(** * ctapipe.coordinates.angular_frames: frames, kernels and transforms

    A shallow embedding of [ctapipe/coordinates/angular_frames.py]: the two
    trigonometric kernels [altaz_to_offset] and [offset_to_altaz], the four
    frames with their attributes, and the six registered transforms.

    The Python code computes with [numpy] scalars and arrays wrapped in
    [astropy] quantities.  The embedding keeps that structure:

    - the arithmetic is an interface ([Numeric]) with two instances, the real
      numbers (for the trigonometric identities) and binary64 floats (for what
      happens on a division by zero);
    - a numpy value is a scalar or an array ([NDArray]), and the numpy
      functions broadcast as numpy does;
    - a quantity is a value tagged with a unit, and the astropy operations
      convert units where astropy converts them;
    - an attribute that is [None] is an [option], and reading a field of
      [None] raises [AttributeError]. *)

From Stdlib Require Import Floats.
From Stdlib Require Import Reals Lra Lia List Bool ZArith RNsatz.
From Stdlib Require String Ascii.
Import ListNotations.

Set Implicit Arguments.

(** ** The arithmetic the code is written over *)

Class Numeric (T : Type) : Type := {
  zero : T;
  tiny : T;          (* the literal 1e-14 *)
  deg_in_rad : T;    (* scale of one degree in radians *)
  rad_in_deg : T;    (* scale of one radian in degrees *)
  cm_in_m : T;       (* scale of one centimetre in metres *)
  m_in_cm : T;       (* scale of one metre in centimetres *)
  add : T -> T -> T;
  sub : T -> T -> T;
  mul : T -> T -> T;
  div : T -> T -> T;
  neg : T -> T;
  eqb : T -> T -> bool;
  ncos : T -> T;
  nsin : T -> T;
  ntan : T -> T;
  narccos : T -> T;
  narcsin : T -> T;
  narctan : T -> T;
  narctan2 : T -> T -> T;
  nsqrt : T -> T
}.

Declare Scope num_scope.
Delimit Scope num_scope with num.
Infix "+" := add : num_scope.
Infix "-" := sub : num_scope.
Infix "*" := mul : num_scope.
Infix "/" := div : num_scope.
Notation "- x" := (neg x) : num_scope.

(** ** numpy values: a scalar or a one-dimensional array *)

Inductive NDArray (A : Type) : Type :=
| Scalar (a : A)
| Array (l : list A).

Arguments Scalar {A} a.
Arguments Array {A} l.

Module np.

Definition isscalar {A} (v : NDArray A) : bool :=
  match v with Scalar _ => true | Array _ => false end.

(** A unary function applied element by element. *)
Definition map1 {A B} (f : A -> B) (v : NDArray A) : NDArray B :=
  match v with
  | Scalar a => Scalar (f a)
  | Array l => Array (map f l)
  end.

Fixpoint zip_with {A B C} (f : A -> B -> C) (l : list A) (m : list B) : list C :=
  match l, m with
  | a :: l', b :: m' => f a b :: zip_with f l' m'
  | _, _ => []
  end.

(** A binary function with numpy's broadcasting of a scalar against an
    array.  Two arrays are combined position by position; numpy refuses
    arrays of different lengths, and every statement below takes arrays of
    one length. *)
Definition map2 {A B C} (f : A -> B -> C) (v : NDArray A) (w : NDArray B) : NDArray C :=
  match v, w with
  | Scalar a, Scalar b => Scalar (f a b)
  | Scalar a, Array m => Array (map (f a) m)
  | Array l, Scalar b => Array (map (fun a => f a b) l)
  | Array l, Array m => Array (zip_with f l m)
  end.

Fixpoint where_from (i : nat) (l : list bool) : list nat :=
  match l with
  | [] => []
  | b :: l' => if b then i :: where_from (S i) l' else where_from (S i) l'
  end.

(** [np.where(mask)[0]]: the positions where the mask holds.  A scalar
    mask is treated by numpy as an array of one element. *)
Definition where_ (mask : NDArray bool) : list nat :=
  match mask with
  | Scalar b => if b then [0%nat] else []
  | Array l => where_from 0 l
  end.

Fixpoint set_nth {A} (l : list A) (i : nat) (v : A) : list A :=
  match l, i with
  | [], _ => []
  | _ :: l', O => v :: l'
  | a :: l', S i' => a :: set_nth l' i' v
  end.

(** [a[pos] = v] for an array [a]: every listed position receives [v].
    The positions come from [where_] on an array of the same length, so
    they are in range (out of range numpy raises [IndexError], and [set_nth]
    leaves the list as it is).  The code never indexes a scalar (it tests
    [isscalar] first). *)
Definition setitem {A} (a : NDArray A) (pos : list nat) (v : A) : NDArray A :=
  match a with
  | Scalar x => Scalar x
  | Array l => Array (fold_left (fun acc i => set_nth acc i v) pos l)
  end.

(** The element of a value that an independent call on input number [i]
    sees: a scalar is broadcast, so it is picked whole; an array gives its
    element [i], when it has one. *)
Definition pick {A} (v : NDArray A) (i : nat) : option (NDArray A) :=
  match v with
  | Scalar a => Some (Scalar a)
  | Array l => option_map Scalar (nth_error l i)
  end.

(** [np.broadcast_to(v, shape)]: a scalar is repeated along an array of
    [n] elements; an array is kept as it is (numpy refuses an array of
    another length). *)
Definition broadcast_to {A} (v : NDArray A) (n : option nat) : NDArray A :=
  match v, n with
  | Scalar a, Some n => Array (repeat a n)
  | _, _ => v
  end.

(** A property of every element. *)
Definition forall_ {A} (P : A -> Prop) (v : NDArray A) : Prop :=
  match v with
  | Scalar a => P a
  | Array l => Forall P l
  end.

(** numpy's arithmetic and functions, element by element. *)
Section Functions.
Context {T : Type} {NT : Numeric T}.

Definition add_ : NDArray T -> NDArray T -> NDArray T := map2 add.
Definition sub_ : NDArray T -> NDArray T -> NDArray T := map2 sub.
Definition mul_ : NDArray T -> NDArray T -> NDArray T := map2 mul.
Definition div_ : NDArray T -> NDArray T -> NDArray T := map2 div.
Definition neg_ : NDArray T -> NDArray T := map1 neg.
Definition eq_ : NDArray T -> NDArray T -> NDArray bool := map2 eqb.
Definition cos : NDArray T -> NDArray T := map1 ncos.
Definition sin : NDArray T -> NDArray T := map1 nsin.
Definition tan : NDArray T -> NDArray T := map1 ntan.
Definition arccos : NDArray T -> NDArray T := map1 narccos.
Definition arcsin : NDArray T -> NDArray T := map1 narcsin.
Definition arctan : NDArray T -> NDArray T := map1 narctan.
Definition arctan2 : NDArray T -> NDArray T -> NDArray T := map2 narctan2.
Definition sqrt : NDArray T -> NDArray T := map1 nsqrt.
End Functions.

End np.

Declare Scope np_scope.
Delimit Scope np_scope with np.
Infix "+" := np.add_ : np_scope.
Infix "-" := np.sub_ : np_scope.
Infix "*" := np.mul_ : np_scope.
Infix "/" := np.div_ : np_scope.
Notation "- x" := (np.neg_ x) : np_scope.
Infix "==" := np.eq_ (at level 70, no associativity) : np_scope.

(** [numpy.shape] of a value: [None] for a scalar, the length of an array. *)
Definition shape {A} (v : NDArray A) : option nat :=
  match v with
  | Scalar _ => None
  | Array l => Some (length l)
  end.

(** ** astropy units and quantities *)

Module u.

Inductive AngleUnit : Type := rad | deg.
Inductive LengthUnit : Type := m | cm.

(** A quantity: a value (a number or a numpy value) with its unit. *)
Record Quantity (A U : Type) : Type := mkQuantity { value : A; unit : U }.

Arguments mkQuantity {A U} value unit.
Arguments value {A U} q.
Arguments unit {A U} q.

Section Conversion.
Context {T : Type} {NT : Numeric T}.
Local Open Scope num_scope.

(** A unit system converts a number from one unit to another.  Between
    equal units astropy hands the number back unchanged; between
    different units it multiplies by the scale. *)
Class Units (U : Type) : Type := { convert : U -> U -> T -> T }.

#[global] Instance angle_units : Units AngleUnit := {|
  convert from to x :=
    match from, to with
    | rad, rad | deg, deg => x
    | deg, rad => x * deg_in_rad
    | rad, deg => x * rad_in_deg
    end |}.

#[global] Instance length_units : Units LengthUnit := {|
  convert from to x :=
    match from, to with
    | m, m | cm, cm => x
    | cm, m => x * cm_in_m
    | m, cm => x * m_in_cm
    end |}.

(** [q.to_value(unit)], also written [q.to(unit).value]. *)
Definition to_value {U} `{Units U} (q : Quantity (NDArray T) U) (target : U) : NDArray T :=
  np.map1 (convert (unit q) target) (value q).

(** [q.to(unit)]. *)
Definition to {U} `{Units U} (q : Quantity (NDArray T) U) (target : U) : Quantity (NDArray T) U :=
  mkQuantity (to_value q target) target.

(** The same conversion for a quantity that holds one number, as the
    frame attributes do (one pointing direction, one focal length). *)
Definition number_to_value {U} `{Units U} (q : Quantity T U) (target : U) : T :=
  convert (unit q) target (value q).

(** [value * unit]: a bare value becomes a quantity. *)
Definition times {A U} (v : A) (unit : U) : Quantity A U := mkQuantity v unit.

(** astropy hands a quantity to a numpy trigonometric function in
    radians, and the result is a bare (dimensionless) value. *)
Definition cos (q : Quantity (NDArray T) AngleUnit) : NDArray T := np.cos (to_value q rad).
Definition sin (q : Quantity (NDArray T) AngleUnit) : NDArray T := np.sin (to_value q rad).
Definition number_cos (q : Quantity T AngleUnit) : T := ncos (number_to_value q rad).
Definition number_sin (q : Quantity T AngleUnit) : T := nsin (number_to_value q rad).

(** [a - b] and [a + b] on quantities: [b] is converted to the unit of
    [a], which is the unit of the result. *)
Definition sub_ {U} `{Units U} (a b : Quantity (NDArray T) U) : Quantity (NDArray T) U :=
  mkQuantity (value a - to_value b (unit a))%np (unit a).
Definition add_ {U} `{Units U} (a b : Quantity (NDArray T) U) : Quantity (NDArray T) U :=
  mkQuantity (value a + to_value b (unit a))%np (unit a).

(** A quantity times a dimensionless value keeps its unit. *)
Definition scale {U} (a : Quantity (NDArray T) U) (k : NDArray T) : Quantity (NDArray T) U :=
  mkQuantity (value a * k)%np (unit a).

(** A one-number quantity seen as a quantity over numpy values. *)
Definition lift {U} (q : Quantity T U) : Quantity (NDArray T) U :=
  mkQuantity (Scalar (value q)) (unit q).

(** [a / b] on quantities: the values are divided and the unit is the pair
    of the two units, which astropy does not simplify. *)
Definition true_divide {U V} (a : Quantity (NDArray T) U) (b : Quantity T V)
  : Quantity (NDArray T) (U * V) :=
  mkQuantity (value a / Scalar (value b))%np (unit a, unit b).

(** [q.to_value()] with no unit: the value in the unit [q] has. *)
Definition to_value_as_is {A U} (q : Quantity A U) : A := value q.

(** [v * q] for a bare value [v] and a one-number quantity [q]. *)
Definition value_times {U} (v : NDArray T) (q : Quantity T U) : Quantity (NDArray T) U :=
  mkQuantity (v * Scalar (value q))%np (unit q).

(** [- q] and [q == 0] for a one-number quantity. *)
Definition number_neg {U} (q : Quantity T U) : Quantity T U :=
  mkQuantity (- value q) (unit q).
Definition number_is_zero {U} (q : Quantity T U) : bool := eqb (value q) zero.

End Conversion.

End u.

(** ** The kernels *)

Section Kernels.

Context {T : Type} {NT : Numeric T}.

Abbreviation Value := (NDArray T).
Abbreviation Angle := (u.Quantity (NDArray T) u.AngleUnit).
Abbreviation Length := (u.Quantity (NDArray T) u.LengthUnit).
(** One angle, as a pointing direction holds it. *)
Abbreviation Angle1 := (u.Quantity T u.AngleUnit).

Local Open Scope np_scope.

(** [altaz_to_offset(obj_azimuth, obj_altitude, azimuth, altitude)].  The
    transforms call it with quantities, so the subtraction and the
    trigonometric functions are astropy's. *)
Definition altaz_to_offset (obj_azimuth obj_altitude : Angle) (azimuth altitude : Angle1)
  : Value * Value :=
  let diff_az := u.sub_ obj_azimuth (u.lift azimuth) in
  let cosine_obj_alt := u.cos obj_altitude in

    let xp0 := (- u.cos diff_az) * cosine_obj_alt in
    let yp0 := u.sin diff_az * cosine_obj_alt in
    let zp0 := u.sin obj_altitude in

    let sin_sys_alt := Scalar (u.number_sin altitude) in
    let cos_sys_alt := Scalar (u.number_cos altitude) in

    let xp1 := sin_sys_alt * xp0 + cos_sys_alt * zp0 in
    let yp1 := yp0 in
    let zp1 := (- cos_sys_alt) * xp0 + sin_sys_alt * zp0 in

    let disp := np.tan (np.arccos zp1) in
    let alpha := np.arctan2 yp1 xp1 in

    let x_off := disp * np.cos alpha in
    let y_off := disp * np.sin alpha in

    (x_off, y_off).

(** [offset_to_altaz(x_off, y_off, altitude, azimuth)]; it returns
    [(obj_altitude, obj_azimuth)] in the unit of [azimuth]. *)
Definition offset_to_altaz (x_off y_off : Angle) (altitude azimuth : Angle1)
  : Angle * Angle :=
  let unit := u.unit azimuth in

    let x_off := u.to_value x_off u.rad in
    let y_off := u.to_value y_off u.rad in
    let azimuth := u.number_to_value azimuth u.rad in
    let altitude := u.number_to_value altitude u.rad in

    let offset := np.sqrt (x_off * x_off + y_off * y_off) in
    let pos := np.where_ (offset == Scalar zero) in

    let offset :=
      if (0 <? length pos)%nat then
        if np.isscalar offset then Scalar tiny
        else np.setitem offset pos tiny
      else offset in

    let atan_off := np.arctan offset in

    let sin_atan_off := np.sin atan_off in
    let xp1 := x_off * (sin_atan_off / offset) in
    let yp1 := y_off * (sin_atan_off / offset) in
    let zp1 := np.cos atan_off in

    let sin_obj_alt := Scalar (nsin altitude) in
    let cos_obj_alt := Scalar (ncos altitude) in

    let xp0 := sin_obj_alt * xp1 - cos_obj_alt * zp1 in
    let yp0 := yp1 in
    let zp0 := cos_obj_alt * xp1 + sin_obj_alt * zp1 in

    let obj_altitude := np.arcsin zp0 in
    let obj_azimuth := np.arctan2 yp0 (- xp0) + Scalar azimuth in

    let '(obj_altitude, obj_azimuth) :=
      if (0 <? length pos)%nat then
        if np.isscalar obj_altitude then (Scalar altitude, Scalar azimuth)
        else (np.setitem obj_altitude pos altitude, np.setitem obj_azimuth pos azimuth)
      else (obj_altitude, obj_azimuth) in

    let obj_altitude := u.times obj_altitude u.rad in
    let obj_azimuth := u.times obj_azimuth u.rad in

    (u.to obj_altitude unit, u.to obj_azimuth unit).

End Kernels.

(** ** Exceptions *)

(** Reading [.alt] or [.az] of an attribute that is [None] raises Python's
    [AttributeError]; the module raises nothing else of its own. *)
Inductive Exception : Type := AttributeError.

Inductive Result (A : Type) : Type :=
| Ok (a : A)
| Raise (e : Exception).

Arguments Ok {A} a.
Arguments Raise {A} e.

Definition bind {A B} (r : Result A) (k : A -> Result B) : Result B :=
  match r with
  | Ok a => k a
  | Raise e => Raise e
  end.

Notation "x <- r ;; k" := (bind r (fun x => k))
  (at level 61, r at next level, right associativity).

(** [o.field] for an attribute [o] that may be [None]. *)
Definition getattr {A B} (o : option A) (field : A -> B) : Result B :=
  match o with
  | Some a => Ok (field a)
  | None => Raise AttributeError
  end.

(** ** Representations *)

(** Modelled from the spec: [PlanarRepresentation], which the module imports
    from [ctapipe.coordinates.representation].  The specification gives it
    as the two-dimensional storage of a frame, an offset pair [(x, y)]:
    angles for the telescope and nominal frames, lengths for the camera
    frame.  It is built as [PlanarRepresentation(x, y)] and read as [.x] and
    [.y]. *)
Module Planar.
Record t (T U : Type) : Type := make {
  x : u.Quantity (NDArray T) U;
  y : u.Quantity (NDArray T) U
}.
Arguments make {T U} x y.
End Planar.

(** astropy's [CartesianRepresentation]: three components of one shape. *)
Module Cartesian.
Record t (T : Type) : Type := make {
  x : u.Quantity (NDArray T) u.LengthUnit;
  y : u.Quantity (NDArray T) u.LengthUnit;
  z : u.Quantity (NDArray T) u.LengthUnit
}.
Arguments make {T} x y z.

(** The shape that the components broadcast to: that of the first array
    among them (astropy refuses arrays of different lengths). *)
Definition common_shape {T} (x y z : u.Quantity (NDArray T) u.LengthUnit) : option nat :=
  match shape (u.value x), shape (u.value y) with
  | Some n, _ => Some n
  | None, Some n => Some n
  | None, None => shape (u.value z)
  end.

Definition broadcast {T} (q : u.Quantity (NDArray T) u.LengthUnit) (n : option nat)
  : u.Quantity (NDArray T) u.LengthUnit :=
  u.mkQuantity (np.broadcast_to (u.value q) n) (u.unit q).

(** [CartesianRepresentation(x, y, z)]: the constructor broadcasts the
    components against each other, so a scalar given next to arrays becomes
    an array of their length. *)
Definition init {T} (x y z : u.Quantity (NDArray T) u.LengthUnit) : t T :=
  let n := common_shape x y z in
  make (broadcast x n) (broadcast y n) (broadcast z n).
End Cartesian.

(** astropy's [UnitSphericalRepresentation(lon, lat)], holding the two
    angles it is given.  astropy stores the longitude wrapped into one turn
    and hands [.az] and [.alt] of a horizon coordinate back in degrees; the
    wrapping and that change of unit are left out here: the statements about
    the azimuth of a horizon coordinate are made up to whole turns, or about
    the kernel's own return value, and the angles are read through their
    radians. *)
Module UnitSpherical.
Record t (T : Type) : Type := make {
  lon : u.Quantity (NDArray T) u.AngleUnit;
  lat : u.Quantity (NDArray T) u.AngleUnit
}.
Arguments make {T} lon lat.
End UnitSpherical.

(** ** Frames

    Every frame also carries [obstime] and [location]; no transform reads
    them and [realize_frame] hands them on, so they are left out. *)

(** A frame instance with data. *)
Record Coordinate (F D : Type) : Type := mkCoordinate { frame : F; data : D }.
Arguments mkCoordinate {F D} frame data.

(** [frame.realize_frame(representation)]: the same frame attributes, with
    the representation as data. *)
Definition realize_frame {F D} (f : F) (representation : D) : Coordinate F D :=
  mkCoordinate f representation.

(** [HorizonFrame(AltAz)]: no attribute that a transform reads. *)
Module HorizonFrame.
Record t : Type := make { }.
End HorizonFrame.

(** A pointing direction: the value of a [CoordinateAttribute(frame=HorizonFrame)],
    one azimuth and one altitude. *)
Module Pointing.
Record t (T : Type) : Type := make {
  az : u.Quantity T u.AngleUnit;
  alt : u.Quantity T u.AngleUnit
}.
Arguments make {T} az alt.
End Pointing.

Module TelescopeFrame.
Record t (T : Type) : Type := make {
  telescope_pointing : option (Pointing.t T)   (* default=None *)
}.
Arguments make {T} telescope_pointing.
End TelescopeFrame.

Module NominalFrame.
Record t (T : Type) : Type := make {
  reference_point : option (Pointing.t T)      (* default=None *)
}.
Arguments make {T} reference_point.
End NominalFrame.

Module CameraFrame.
Record t (T : Type) : Type := make {
  focal_length : u.Quantity T u.LengthUnit;
  rotation : u.Quantity T u.AngleUnit;
  telescope_pointing : option (Pointing.t T)   (* default=None *)
}.
Arguments make {T} focal_length rotation telescope_pointing.

(** [CameraFrame(focal_length=..., rotation=..., telescope_pointing=...)]
    with each argument optional.  [QuantityAttribute(default=0, unit=u.m)]
    gives an unset focal length the value 0 m, and converts a given one to
    metres; [QuantityAttribute(default=0 * u.deg, unit=u.rad)] does the same
    for the rotation, in radians. *)
Definition init {T} {NT : Numeric T}
    (focal_length : option (u.Quantity T u.LengthUnit))
    (rotation : option (u.Quantity T u.AngleUnit))
    (telescope_pointing : option (Pointing.t T)) : t T :=
  make
    (match focal_length with
     | None => u.mkQuantity zero u.m
     | Some q => u.mkQuantity (u.number_to_value q u.m) u.m
     end)
    (match rotation with
     | None => u.mkQuantity (u.number_to_value (u.mkQuantity zero u.deg) u.rad) u.rad
     | Some q => u.mkQuantity (u.number_to_value q u.rad) u.rad
     end)
    telescope_pointing.
End CameraFrame.

(** The data of a camera coordinate: planar as the frame's default
    representation has it, or Cartesian as [telescope_to_camera] returns it. *)
Inductive CameraData (T : Type) : Type :=
| PlanarData (p : Planar.t T u.LengthUnit)
| CartesianData (c : Cartesian.t T).

Arguments PlanarData {T} p.
Arguments CartesianData {T} c.

(** ** The transforms *)

Section Transforms.

Context {T : Type} {NT : Numeric T}.

Abbreviation HorizonCoord := (Coordinate HorizonFrame.t (UnitSpherical.t T)).
Abbreviation TelescopeCoord := (Coordinate (TelescopeFrame.t T) (Planar.t T u.AngleUnit)).
Abbreviation NominalCoord := (Coordinate (NominalFrame.t T) (Planar.t T u.AngleUnit)).
Abbreviation CameraCoord := (Coordinate (CameraFrame.t T) (CameraData T)).

(** [coord.az] and [coord.alt] of a horizon coordinate. *)
Definition az (c : HorizonCoord) := UnitSpherical.lon (data c).
Definition alt (c : HorizonCoord) := UnitSpherical.lat (data c).

(** [coord.cartesian.x] and [coord.cartesian.y] of a camera coordinate: the
    Cartesian form of a planar position keeps its [x] and [y]. *)
Definition cartesian_x (c : CameraCoord) :=
  match data c with
  | PlanarData p => Planar.x p
  | CartesianData c => Cartesian.x c
  end.
Definition cartesian_y (c : CameraCoord) :=
  match data c with
  | PlanarData p => Planar.y p
  | CartesianData c => Cartesian.y c
  end.

Definition horizon_to_telescope (horizon_coord : HorizonCoord)
    (telescope_frame : TelescopeFrame.t T) : Result TelescopeCoord :=
  alt_pointing <- getattr (TelescopeFrame.telescope_pointing telescope_frame) (@Pointing.alt T) ;;
  az_pointing <- getattr (TelescopeFrame.telescope_pointing telescope_frame) (@Pointing.az T) ;;

  let '(x_off, y_off) :=
    altaz_to_offset (az horizon_coord) (alt horizon_coord) az_pointing alt_pointing in
  let x_off := u.times x_off u.rad in
  let y_off := u.times y_off u.rad in

  let representation := Planar.make x_off y_off in

  Ok (realize_frame telescope_frame representation).

Definition telescope_to_horizon (telescope_coord : TelescopeCoord)
    (horizon_frame : HorizonFrame.t) : Result HorizonCoord :=
  let pointing := TelescopeFrame.telescope_pointing (frame telescope_coord) in

  pointing_alt <- getattr pointing (@Pointing.alt T) ;;
  pointing_az <- getattr pointing (@Pointing.az T) ;;
  let '(altitude, azimuth) :=
    offset_to_altaz
      (Planar.x (data telescope_coord))
      (Planar.y (data telescope_coord))
      pointing_alt
      pointing_az in

  let representation := UnitSpherical.make azimuth altitude in
  Ok (realize_frame horizon_frame representation).

Definition nominal_to_altaz (norm_coord : NominalCoord)
    (altaz_coord : HorizonFrame.t) : Result HorizonCoord :=
  alt_nom <- getattr (NominalFrame.reference_point (frame norm_coord)) (@Pointing.alt T) ;;
  az_nom <- getattr (NominalFrame.reference_point (frame norm_coord)) (@Pointing.az T) ;;

  let x_off := Planar.x (data norm_coord) in
  let y_off := Planar.y (data norm_coord) in

  let '(altitude, azimuth) := offset_to_altaz x_off y_off alt_nom az_nom in

  let representation := UnitSpherical.make azimuth altitude in
  Ok (realize_frame altaz_coord representation).

Definition altaz_to_nominal (altaz_coord : HorizonCoord)
    (norm_coord : NominalFrame.t T) : Result NominalCoord :=
  alt_nom <- getattr (NominalFrame.reference_point norm_coord) (@Pointing.alt T) ;;
  az_nom <- getattr (NominalFrame.reference_point norm_coord) (@Pointing.az T) ;;
  let azimuth := az altaz_coord in
  let altitude := alt altaz_coord in
  let '(x_off, y_off) := altaz_to_offset azimuth altitude az_nom alt_nom in
  let x_off := u.times x_off u.rad in
  let y_off := u.times y_off u.rad in
  let representation := Planar.make x_off y_off in

  Ok (realize_frame norm_coord representation).

Definition telescope_to_nominal (tel_coord : TelescopeCoord)
    (nominal_frame : NominalFrame.t T) : Result NominalCoord :=
  alt_tel <- getattr (TelescopeFrame.telescope_pointing (frame tel_coord)) (@Pointing.alt T) ;;
  az_tel <- getattr (TelescopeFrame.telescope_pointing (frame tel_coord)) (@Pointing.az T) ;;
  alt_nom <- getattr (NominalFrame.reference_point nominal_frame) (@Pointing.alt T) ;;
  az_nom <- getattr (NominalFrame.reference_point nominal_frame) (@Pointing.az T) ;;

  let '(alt_trans, az_trans) :=
    offset_to_altaz
      (Planar.x (data tel_coord)) (Planar.y (data tel_coord))
      alt_tel
      az_tel in

  let '(x_off, y_off) := altaz_to_offset az_trans alt_trans az_nom alt_nom in
  let x_off := u.times x_off u.rad in
  let y_off := u.times y_off u.rad in

  let representation := Planar.make x_off y_off in

  Ok (realize_frame nominal_frame representation).

Definition nominal_to_telescope (norm_coord : NominalCoord)
    (tel_frame : TelescopeFrame.t T) : Result TelescopeCoord :=
  alt_tel <- getattr (TelescopeFrame.telescope_pointing tel_frame) (@Pointing.alt T) ;;
  az_tel <- getattr (TelescopeFrame.telescope_pointing tel_frame) (@Pointing.az T) ;;
  alt_nom <- getattr (NominalFrame.reference_point (frame norm_coord)) (@Pointing.alt T) ;;
  az_nom <- getattr (NominalFrame.reference_point (frame norm_coord)) (@Pointing.az T) ;;

  let '(alt_trans, az_trans) :=
    offset_to_altaz
      (Planar.x (data norm_coord))
      (Planar.y (data norm_coord))
      alt_nom
      az_nom in

  let '(x_off, y_off) := altaz_to_offset az_trans alt_trans az_tel alt_tel in
  let x_off := u.times x_off u.rad in
  let y_off := u.times y_off u.rad in

  let representation :=
    Planar.make
      (u.to x_off (u.unit (Planar.x (data norm_coord))))
      (u.to y_off (u.unit (Planar.x (data norm_coord)))) in

  Ok (realize_frame tel_frame representation).

Definition camera_to_telescope (camera_coord : CameraCoord)
    (telescope_frame : TelescopeFrame.t T) : Result TelescopeCoord :=
  let x_pos := cartesian_x camera_coord in
  let y_pos := cartesian_y camera_coord in

  let rot := CameraFrame.rotation (frame camera_coord) in
  let '(x_rotated, y_rotated) :=
    if u.number_is_zero rot then (x_pos, y_pos)
    else
      (u.sub_ (u.scale x_pos (Scalar (u.number_cos rot)))
              (u.scale y_pos (Scalar (u.number_sin rot))),
       u.add_ (u.scale x_pos (Scalar (u.number_sin rot)))
              (u.scale y_pos (Scalar (u.number_cos rot)))) in

  let focal_length := CameraFrame.focal_length (frame camera_coord) in

  let x_rotated := u.times (u.to_value_as_is (u.true_divide x_rotated focal_length)) u.rad in
  let y_rotated := u.times (u.to_value_as_is (u.true_divide y_rotated focal_length)) u.rad in
  let representation := Planar.make x_rotated y_rotated in

  Ok (realize_frame telescope_frame representation).

Definition telescope_to_camera (telescope_coord : TelescopeCoord)
    (camera_frame : CameraFrame.t T) : Result CameraCoord :=
  let x_pos := Planar.x (data telescope_coord) in
  let y_pos := Planar.y (data telescope_coord) in
  (* reverse the rotation applied to get to this system *)
  let rot := u.number_neg (CameraFrame.rotation camera_frame) in

  let '(x_rotated, y_rotated) :=
    if eqb (u.value rot) zero then (x_pos, y_pos)
    else
      let cosrot := Scalar (u.number_cos rot) in
      let sinrot := Scalar (u.number_sin rot) in
      (u.sub_ (u.scale x_pos cosrot) (u.scale y_pos sinrot),
       u.add_ (u.scale x_pos sinrot) (u.scale y_pos cosrot)) in

  let focal_length := CameraFrame.focal_length camera_frame in
  let x_rotated := u.value_times (u.to_value x_rotated u.rad) focal_length in
  let y_rotated := u.value_times (u.to_value y_rotated u.rad) focal_length in

  let representation :=
    Cartesian.init x_rotated y_rotated (u.times (Scalar zero) u.m) in

  Ok (realize_frame camera_frame (CartesianData representation)).

(** ** The transform graph

    [@frame_transform_graph.transform(FunctionTransform, A, B)] registers a
    function as the direct edge from frame class [A] to frame class [B]. *)

Inductive FrameKind : Type := Horizon | Telescope | Nominal | Camera.

Inductive AnyFrame : Type :=
| AHorizonFrame (f : HorizonFrame.t)
| ATelescopeFrame (f : TelescopeFrame.t T)
| ANominalFrame (f : NominalFrame.t T)
| ACameraFrame (f : CameraFrame.t T).

Inductive AnyCoord : Type :=
| AHorizon (c : HorizonCoord)
| ATelescope (c : TelescopeCoord)
| ANominal (c : NominalCoord)
| ACamera (c : CameraCoord).

Definition kind_of_frame (f : AnyFrame) : FrameKind :=
  match f with
  | AHorizonFrame _ => Horizon
  | ATelescopeFrame _ => Telescope
  | ANominalFrame _ => Nominal
  | ACameraFrame _ => Camera
  end.

Definition kind_of (c : AnyCoord) : FrameKind :=
  match c with
  | AHorizon _ => Horizon
  | ATelescope _ => Telescope
  | ANominal _ => Nominal
  | ACamera _ => Camera
  end.

Definition fmap {A B} (f : A -> B) (r : Result A) : Result B :=
  x <- r ;; Ok (f x).

(** The registered edge from the frame of [c] to the frame [f], applied;
    [None] when the module registers no direct edge between the two. *)
Definition frame_transform_graph (c : AnyCoord) (f : AnyFrame) : option (Result AnyCoord) :=
  match c, f with
  | AHorizon c, ATelescopeFrame f => Some (fmap ATelescope (horizon_to_telescope c f))
  | ATelescope c, AHorizonFrame f => Some (fmap AHorizon (telescope_to_horizon c f))
  | ANominal c, AHorizonFrame f => Some (fmap AHorizon (nominal_to_altaz c f))
  | AHorizon c, ANominalFrame f => Some (fmap ANominal (altaz_to_nominal c f))
  | ATelescope c, ANominalFrame f => Some (fmap ANominal (telescope_to_nominal c f))
  | ANominal c, ATelescopeFrame f => Some (fmap ATelescope (nominal_to_telescope c f))
  | ACamera c, ATelescopeFrame f => Some (fmap ATelescope (camera_to_telescope c f))
  | ATelescope c, ACameraFrame f => Some (fmap ACamera (telescope_to_camera c f))
  | _, _ => None
  end.

End Transforms.

(** ** Two arithmetics *)

(** [numpy.arctan2(y, x)] on the reals: the angle of the point [(x, y)],
    in [(-pi, pi]], and [0] at the origin. *)
Definition Ratan2 (y x : R) : R :=
  if Rlt_dec 0 x then atan (y / x)
  else if Rlt_dec x 0 then
    if Rle_dec 0 y then atan (y / x) + PI else atan (y / x) - PI
  else if Rlt_dec 0 y then PI / 2
  else if Rlt_dec y 0 then - (PI / 2)
  else 0.

Definition Reqb (x y : R) : bool := if Req_dec_T x y then true else false.

(** Exact real arithmetic: what the formulas of the code compute when no
    operation rounds.  The running code is numpy's binary64
    ([float_numeric] below), and it departs from the exact values most for
    a target on the reference of [altaz_to_offset], where
    [tan(arccos(zp1))] is taken at [zp1] next to 1: see [c_library] and the
    statements in binary64. *)
#[global] Instance R_numeric : Numeric R := {|
  zero := 0%R;
  tiny := 1e-14%R;
  deg_in_rad := (PI / 180)%R;
  rad_in_deg := (180 / PI)%R;
  cm_in_m := (1 / 100)%R;
  m_in_cm := 100%R;
  add := Rplus;
  sub := Rminus;
  mul := Rmult;
  div := Rdiv;
  neg := Ropp;
  eqb := Reqb;
  ncos := Rtrigo_def.cos;
  nsin := Rtrigo_def.sin;
  ntan := Rtrigo1.tan;
  narccos := Ratan.acos;
  narcsin := Ratan.asin;
  narctan := Ratan.atan;
  narctan2 := Ratan2;
  nsqrt := R_sqrt.sqrt
|}.

(** The functions of the C mathematical library that binary64 arithmetic
    does not define; any implementation may be plugged in. *)
Record Libm : Type := mkLibm {
  libm_cos : float -> float;
  libm_sin : float -> float;
  libm_tan : float -> float;
  libm_acos : float -> float;
  libm_asin : float -> float;
  libm_atan : float -> float;
  libm_atan2 : float -> float -> float
}.

(** IEEE 754 binary64 arithmetic, as numpy's [float64]. *)
Definition float_numeric (lm : Libm) : Numeric float := {|
  zero := 0%float;
  tiny := 0x1.6849b86a12b9bp-47%float;        (* 1e-14 *)
  deg_in_rad := 0x1.1df46a2529d39p-6%float;   (* 0.017453292519943295 *)
  rad_in_deg := 0x1.ca5dc1a63c1f8p+5%float;   (* 57.29577951308232 *)
  cm_in_m := 0x1.47ae147ae147bp-7%float;      (* 0.01 *)
  m_in_cm := 100%float;
  add := PrimFloat.add;
  sub := PrimFloat.sub;
  mul := PrimFloat.mul;
  div := PrimFloat.div;
  neg := PrimFloat.opp;
  eqb := PrimFloat.eqb;
  ncos := libm_cos lm;
  nsin := libm_sin lm;
  ntan := libm_tan lm;
  narccos := libm_acos lm;
  narcsin := libm_asin lm;
  narctan := libm_atan lm;
  narctan2 := libm_atan2 lm;
  nsqrt := PrimFloat.sqrt
|}.

(** A binary64 value that is an infinity or a NaN. *)
Definition inf_or_nan (f : float) : bool := is_nan f || is_infinity f.

(** What the statements in binary64 about the pointing at altitude 8 degrees
    ask of the mathematical library.  [0x1.1df46a2529d39p-3] is 8 degrees in
    radians, as [8 * deg_in_rad] rounds; the cosine and the sine asked for
    there are the correctly rounded ones (0.9902680687415704 and
    0.13917310096006544), which the C library returns.  The arc cosine of a
    number above 1 is NaN, and the functions return NaN at NaN, as IEEE 754
    and numpy have it. *)
Definition c_library (lm : Libm) : Prop :=
  libm_cos lm 0%float = 1%float /\
  libm_cos lm 0x1.1df46a2529d39p-3%float = 0x1.fb046a930947ap-1%float /\
  libm_sin lm 0x1.1df46a2529d39p-3%float = 0x1.1d06c968d9e19p-3%float /\
  libm_acos lm 0x1.0000000000001p+0%float = nan /\
  libm_tan lm nan = nan /\
  libm_asin lm nan = nan /\
  libm_atan2 lm nan nan = nan.

(** A library that is [c_library] and says nothing else: the three values
    above, and NaN everywhere else. *)
Definition library_table : Libm :=
  mkLibm
    (fun x => if PrimFloat.eqb x 0 then 1%float
              else if PrimFloat.eqb x 0x1.1df46a2529d39p-3
                   then 0x1.fb046a930947ap-1%float
                   else nan)
    (fun x => if PrimFloat.eqb x 0x1.1df46a2529d39p-3
              then 0x1.1d06c968d9e19p-3%float
              else nan)
    (fun _ => nan) (fun _ => nan) (fun _ => nan) (fun _ => nan) (fun _ _ => nan).

(** ** Vocabulary of the statements about arrays *)

(** The quantity that an independent call on input number [i] sees. *)
Definition pick_quantity {T U} (q : u.Quantity (NDArray T) U) (i : nat)
  : option (u.Quantity (NDArray T) U) :=
  option_map (fun v => u.mkQuantity v (u.unit q)) (np.pick (u.value q) i).

(** The coordinate that an independent call on input number [i] sees: the
    same frame, with element [i] of each component of the data. *)
Definition pick_planar {T U} (p : Planar.t T U) (i : nat) : option (Planar.t T U) :=
  match pick_quantity (Planar.x p) i, pick_quantity (Planar.y p) i with
  | Some x, Some y => Some (Planar.make x y)
  | _, _ => None
  end.

Definition pick_spherical {T} (s : UnitSpherical.t T) (i : nat) : option (UnitSpherical.t T) :=
  match pick_quantity (UnitSpherical.lon s) i, pick_quantity (UnitSpherical.lat s) i with
  | Some lon, Some lat => Some (UnitSpherical.make lon lat)
  | _, _ => None
  end.

Definition pick_cartesian {T} (c : Cartesian.t T) (i : nat) : option (Cartesian.t T) :=
  match pick_quantity (Cartesian.x c) i, pick_quantity (Cartesian.y c) i,
        pick_quantity (Cartesian.z c) i with
  | Some x, Some y, Some z => Some (Cartesian.make x y z)
  | _, _, _ => None
  end.

Definition pick_camera_data {T} (d : CameraData T) (i : nat) : option (CameraData T) :=
  match d with
  | PlanarData p => option_map PlanarData (pick_planar p i)
  | CartesianData c => option_map CartesianData (pick_cartesian c i)
  end.

Definition pick_coordinate {F D} (pick_data : D -> nat -> option D)
    (c : Coordinate F D) (i : nat) : option (Coordinate F D) :=
  option_map (mkCoordinate (frame c)) (pick_data (data c) i).

Definition pick_coord {T} (c : @AnyCoord T) (i : nat) : option (@AnyCoord T) :=
  match c with
  | AHorizon c => option_map AHorizon (pick_coordinate pick_spherical c i)
  | ATelescope c => option_map ATelescope (pick_coordinate pick_planar c i)
  | ANominal c => option_map ANominal (pick_coordinate pick_planar c i)
  | ACamera c => option_map ACamera (pick_coordinate pick_camera_data c i)
  end.

(** The array call [batch] agrees with the call [single] on element [i]:
    both return, and element [i] of the one is the other; or both raise the
    same exception; or neither has an edge. *)
Definition agree_at {T} (i : nat) (batch single : option (Result (@AnyCoord T))) : Prop :=
  match batch, single with
  | Some (Ok r), Some (Ok r_i) => pick_coord r i = Some r_i
  | Some (Raise e), Some (Raise e') => e = e'
  | None, None => True
  | _, _ => False
  end.

(** The frame that a coordinate carries. *)
Definition frame_of {T} (c : @AnyCoord T) : @AnyFrame T :=
  match c with
  | AHorizon c => AHorizonFrame (frame c)
  | ATelescope c => ATelescopeFrame (frame c)
  | ANominal c => ANominalFrame (frame c)
  | ACamera c => ACameraFrame (frame c)
  end.

(** A value that broadcasts to the shape [s]: a scalar, or of that shape. *)
Definition broadcasts_to {A} (s : option nat) (v : NDArray A) : Prop :=
  shape v = None \/ shape v = s.

(** * ctapipe.pipeline.zmqpipe.drawer.pipelinedrawer: the drawer's state

    [PipelineDrawer] is a Qt widget; what is embedded here is the state it
    keeps between messages ([steps], [config_time], [queues]) and the
    methods that read and update it.  The painting itself ([initUI],
    [paintEvent], the rendering of the graph to PNG) is Qt's and graphviz's
    and is left out; a call of [self.update()] is counted. *)

Module Drawer.

Import String.
Local Open Scope string_scope.

(** The exceptions that the methods can raise: reading an attribute of
    [None], and iterating over [None]. *)
Inductive Exception : Type := AttributeError | TypeError.

Inductive Outcome (A : Type) : Type :=
| Return (a : A)
| Raised (e : Exception).

Arguments Return {A} a.
Arguments Raised {A} e.

(** [s.split(sep)[0]] for a separator that is not empty: what stands before
    the first occurrence of [sep], and all of [s] when there is none. *)
Fixpoint split_first (sep s : string) : string :=
  match s with
  | EmptyString => EmptyString
  | String c s' => if prefix sep s then EmptyString else String c (split_first sep s')
  end.

(** [class StagerRep]. *)
Module StagerRep.

Record t : Type := make {
  name : string;
  next_steps : list string;
  running : bool;
  nb_job_done : Z
}.

(** [StagerRep(name, next_steps=list(), running=False, nb_job_done=0)]. *)
Definition init (name : string) (next_steps : option (list string))
    (running : option bool) (nb_job_done : option Z) : t :=
  make name
    (match next_steps with Some l => l | None => [] end)
    (match running with Some b => b | None => false end)
    (match nb_job_done with Some n => n | None => 0%Z end).

End StagerRep.

(** A Python [dict] with string keys, in insertion order: [d[key] = value]
    replaces the value of a key that is there, in its place, and adds a
    new key at the end. *)
Fixpoint dict_set {V} (d : list (string * V)) (key : string) (value : V) : list (string * V) :=
  match d with
  | [] => [(key, value)]
  | (k, v) :: d' =>
      if String.eqb k key then (k, value) :: d' else (k, v) :: dict_set d' key value
  end.

Fixpoint dict_get {V} (d : list (string * V)) (key : string) : option V :=
  match d with
  | [] => None
  | (k, v) :: d' => if String.eqb k key then Some v else dict_get d' key
  end.

(** What [build_graph] hands to graphviz: the nodes with their attributes
    and the edges, in the order of the calls of [g.node] and [g.edge]. *)
Record Digraph : Type := mkDigraph {
  graph_name : string;
  format : string;
  nodes : list (string * list (string * string));
  edges : list (string * string)
}.

(** The fields of [PipelineDrawer] that the methods below read or write;
    [point_size], [zoom] and [statusBar] are set once and not read here. *)
Record t : Type := make {
  steps : option (list StagerRep.t);
  config_time : float;
  queues : list (string * string);
  updates : nat          (* calls of [self.update()] so far *)
}.

(** [PipelineDrawer.__init__]. *)
Definition init : t := make (Some []) 0%float [] 0.

Definition set_steps (self : t) (steps : option (list StagerRep.t)) : t :=
  make steps (config_time self) (queues self) (updates self).
Definition set_config_time (self : t) (config_time : float) : t :=
  make (steps self) config_time (queues self) (updates self).
Definition set_queues (self : t) (queues : list (string * string)) : t :=
  make (steps self) (config_time self) queues (updates self).
Definition update (self : t) : t :=
  make (steps self) (config_time self) (queues self) (S (updates self)).

(** [get_step_by_name]: the first step of that name, or [None]. *)
Fixpoint find_step (steps : list StagerRep.t) (name : string) : option StagerRep.t :=
  match steps with
  | [] => None
  | step :: steps' =>
      if String.eqb (StagerRep.name step) name then Some step else find_step steps' name
  end.

Definition get_step_by_name (self : t) (name : string) : Outcome (option StagerRep.t) :=
  match steps self with
  | None => Raised TypeError
  | Some steps => Return (find_step steps name)
  end.

(** The loop of [step_change]: the first step whose name is the name of the
    message, cut before ['$$thread'], receives the two values, and the loop
    breaks. *)
Fixpoint step_change_loop (steps : list StagerRep.t) (name : string) (running : bool)
    (nb_job_done : Z) : list StagerRep.t :=
  match steps with
  | [] => []
  | step :: steps' =>
      let foo := split_first "$$thread" name in
      if String.eqb (StagerRep.name step) foo then
        StagerRep.make (StagerRep.name step) (StagerRep.next_steps step) running nb_job_done
        :: steps'
      else step :: step_change_loop steps' name running nb_job_done
  end.

Definition step_change (self : t) (msg : string * bool * Z) : Outcome t :=
  let '(name, running, nb_job_done) := msg in
  match steps self with
  | None => Raised TypeError
  | Some steps => Return (set_steps self (Some (step_change_loop steps name running nb_job_done)))
  end.

Definition router_change (self : t) (msg : string * string) : t :=
  let '(name, queue) := msg in
  set_queues self (dict_set (queues self) name queue).

(** The edges of one step: [g.edge(step.name, next_step.name)] for each
    name in [step.next_steps]; a name that no step has gives
    [next_step = None], and reading [None.name] raises. *)
Fixpoint step_edges (steps : list StagerRep.t) (step_name : string) (next_steps : list string)
  : Outcome (list (string * string)) :=
  match next_steps with
  | [] => Return []
  | next_step_name :: rest =>
      match find_step steps next_step_name with
      | None => Raised AttributeError
      | Some next_step =>
          match step_edges steps step_name rest with
          | Return es => Return ((step_name, StagerRep.name next_step) :: es)
          | Raised e => Raised e
          end
      end
  end.

Fixpoint all_edges (steps todo : list StagerRep.t) : Outcome (list (string * string)) :=
  match todo with
  | [] => Return []
  | step :: todo' =>
      match step_edges steps (StagerRep.name step) (StagerRep.next_steps step) with
      | Raised e => Raised e
      | Return es =>
          match all_edges steps todo' with
          | Return es' => Return (es ++ es')%list
          | Raised e => Raised e
          end
      end
  end.

Definition node_of (step : StagerRep.t) : string * list (string * string) :=
  if StagerRep.running step
  then (StagerRep.name step, [("color", "lightblue2"); ("style", "filled")])
  else (StagerRep.name step, []).

Definition build_graph (self : t) : Outcome Digraph :=
  match steps self with
  | None => Raised TypeError
  | Some steps =>
      match all_edges steps steps with
      | Raised e => Raised e
      | Return es => Return (mkDigraph "test" "png" (map node_of steps) es)
      end
  end.

(** A message of the pipeline: the topic with the value sent under it, as
    the docstring of [pipechange] lists them.  [msg] is unpacked according
    to the topic, so the two are kept together; under any other topic
    [msg] is not read. *)
Inductive Message : Type :=
| GUI_GRAPH (config_time : float) (receiv_steps : option (list StagerRep.t))
| GUI_STAGER_CHANGE (name : string) (running : bool) (nb_job_done : Z)
| GUI_CONSUMER_CHANGE (name : string) (running : bool) (nb_job_done : Z)
| GUI_PRODUCER_CHANGE (name : string) (running : bool) (nb_job_done : Z)
| GUI_ROUTER_CHANGE (name queue : string)
| other_topic (topic : string).

Definition pipechange (self : t) (m : Message) : Outcome t :=
  match m with
  | GUI_GRAPH config_time receiv_steps =>
      let self :=
        if negb (PrimFloat.eqb config_time (Drawer.config_time self))
        then set_config_time (set_steps self receiv_steps) config_time
        else self in
      Return (update self)
  | GUI_STAGER_CHANGE name running nb_job_done
  | GUI_CONSUMER_CHANGE name running nb_job_done
  | GUI_PRODUCER_CHANGE name running nb_job_done =>
      match steps self with
      | None => Return (update self)
      | Some _ =>
          match step_change self (name, running, nb_job_done) with
          | Return self => Return (update self)
          | Raised e => Raised e
          end
      end
  | GUI_ROUTER_CHANGE name queue => Return (update (router_change self (name, queue)))
  | other_topic _ => Return (update self)
  end.

End Drawer.

(** ** Vocabulary of the statements about the drawer *)

(** The drawer after a sequence of messages, each handled by [pipechange]. *)
Fixpoint pipechanges (self : Drawer.t) (ms : list Drawer.Message) : Drawer.Outcome Drawer.t :=
  match ms with
  | [] => Drawer.Return self
  | m :: ms' =>
      match Drawer.pipechange self m with
      | Drawer.Return self' => pipechanges self' ms'
      | Drawer.Raised e => Drawer.Raised e
      end
  end.

(** The names of the steps and what follows each: the shape of the
    pipeline, without the state of the steps. *)
Definition pipeline_shape (self : Drawer.t) : option (list (String.string * list String.string)) :=
  option_map
    (map (fun s => (Drawer.StagerRep.name s, Drawer.StagerRep.next_steps s)))
    (Drawer.steps self).

Definition is_graph_message (m : Drawer.Message) : bool :=
  match m with Drawer.GUI_GRAPH _ _ => true | _ => false end.

(** The message sets the queue of the router [key]. *)
Definition sets_queue_of (key : String.string) (m : Drawer.Message) : bool :=
  match m with Drawer.GUI_ROUTER_CHANGE name _ => String.eqb name key | _ => false end.

(** * ctapipe.core.tool: the life cycle of a [Tool]

    [Tool] extends [traitlets.config.Application].  What is embedded is the
    control flow of [_setup] and [run] over the methods they call: the ones
    of traitlets ([parse_command_line], [load_config_file]) and the ones a
    subclass overrides ([initialize], [start], [finish]) are parameters, each
    a function on the state of the tool that returns or raises. *)

Module Tool.

Import String.
Local Open Scope string_scope.

(** What a method raises.  [is_exception] tells the instances of
    [Exception], which [except Exception] catches, from the other
    exceptions ([SystemExit], [KeyboardInterrupt]); [text] is [str(err)]. *)
Record Raised : Type := mkRaised { is_exception : bool; text : string }.

Inductive Outcome (A : Type) : Type :=
| Return (a : A)
| Raise (e : Raised).

Arguments Return {A} a.
Arguments Raise {A} e.

Inductive Level : Type := info | debug | error.

Section Methods.

(** The attributes that a subclass and its components add. *)
Variable User : Type.

Record t : Type := make {
  name : string;
  config_file : string;               (* [Unicode], empty when not given *)
  log : list (Level * string);        (* the records sent to [self.log], oldest first *)
  user : User
}.

(** A method: it runs on the tool, leaves it in a new state, and returns
    or raises; what it did before raising stays done. *)
Definition Method (A : Type) : Type := t -> Outcome A * t.

Definition ret {A} (a : A) : Method A := fun self => (Return a, self).

Definition bind {A B} (m : Method A) (k : A -> Method B) : Method B :=
  fun self =>
    match m self with
    | (Return a, self') => k a self'
    | (Raise e, self') => (Raise e, self')
    end.

(** [try: body except Exception as err: handler]. *)
Definition try_except {A} (body : Method A) (handler : Raised -> Method A) : Method A :=
  fun self =>
    match body self with
    | (Return a, self') => (Return a, self')
    | (Raise err, self') =>
        if is_exception err then handler err self' else (Raise err, self')
    end.

(** The tool with one more record in its log. *)
Definition logged (level : Level) (message : string) (self : t) : t :=
  make (name self) (config_file self) (log self ++ [(level, message)])%list (user self).

Definition log_ (level : Level) (message : string) : Method unit :=
  fun self => (Return tt, logged level message self).

Definition get {A} (field : t -> A) : Method A := fun self => (Return (field self), self).

Variable parse_command_line : option (list string) -> Method unit.
Variable load_config_file : string -> Method unit.
Variable initialize : Method unit.
Variable start : Method unit.
Variable finish : Method unit.
(** [str(self.config)]. *)
Variable show_config : t -> string.

Notation "x <~ m ;; k" := (bind m (fun x => k))
  (at level 61, m at next level, right associativity).
Notation "m ;;; k" := (bind m (fun _ => k))
  (at level 61, right associativity).

(** handle config and any other low-level setup *)
Definition _setup (argv : option (list string)) : Method unit :=
  parse_command_line argv ;;;
  config_file <~ get config_file ;;
  (if (String.length config_file =? 0)%nat then ret tt
   else load_config_file config_file) ;;;
  initialize.

Definition run (argv : option (list string)) : Method unit :=
  try_except
    (_setup argv ;;;
     name <~ get name ;;
     log_ info ("Starting: " ++ name) ;;;
     config <~ get show_config ;;
     log_ debug ("CONFIG: " ++ config) ;;;
     start ;;;
     finish)
    (fun err => log_ error ("Caught unexpected exception: " ++ text err)).

(** The tool once [run] has logged that it starts, and once it has logged
    the exception [err] that it caught. *)
Definition started (self : t) : t :=
  let self := logged info ("Starting: " ++ name self) self in
  logged debug ("CONFIG: " ++ show_config self) self.

Definition caught (err : Raised) (self : t) : t :=
  logged error ("Caught unexpected exception: " ++ text err) self.

End Methods.

(** The methods as [Tool] defines them, for a subclass that does not
    override them: [start] does nothing and [finish] logs a good-bye. *)
Definition default_start {User} : Method User unit := ret tt.
Definition default_finish {User} : Method User unit := log_ info "Goodbye".

End Tool.

(** ** Vocabulary of the statements over the reals *)

Local Open Scope R_scope.

(** The number of radians of a one-number angle. *)
Definition radians (q : u.Quantity R u.AngleUnit) : R := u.number_to_value q u.rad.

(** A one-number angle as the data of a coordinate (a scalar call). *)
Definition scalar_angle (r : R) (unit : u.AngleUnit) : u.Quantity (NDArray R) u.AngleUnit :=
  u.mkQuantity (Scalar r) unit.

(** The quantity [q] is one angle of [r] radians. *)
Definition is_angle (q : u.Quantity (NDArray R) u.AngleUnit) (r : R) : Prop :=
  u.to_value q u.rad = Scalar r.

(** The same angle told in radians. *)
Definition in_radians (q : u.Quantity R u.AngleUnit) : u.Quantity R u.AngleUnit :=
  u.mkQuantity (radians q) u.rad.

(** Coordinates of one direction or one offset (the scalar call shape). *)
Definition horizon_coord (f : HorizonFrame.t) (az alt : u.Quantity R u.AngleUnit)
  : Coordinate HorizonFrame.t (UnitSpherical.t R) :=
  mkCoordinate f (UnitSpherical.make (u.lift az) (u.lift alt)).

Definition planar_coord {F U} (f : F) (x y : u.Quantity R U)
  : Coordinate F (Planar.t R U) :=
  mkCoordinate f (Planar.make (u.lift x) (u.lift y)).

(** The unit vector of the direction at altitude [alt] whose azimuth is
    [d] away from a reference azimuth, with the axes the kernels use:
    [x] points away from the reference azimuth, [z] to the zenith. *)
Definition local_vector (d alt : R) : R * R * R :=
  (- cos d * cos alt, sin d * cos alt, sin alt).

(** The rotation about the [z] axis that takes the azimuth difference [d]
    to [d - a]; with the [x] axis pointing away from the reference it is the
    counter-clockwise rotation of the [(x, y)] plane by [a]. *)
Definition rotate_azimuth (a : R) (v : R * R * R) : R * R * R :=
  let '(x, y, z) := v in
  (x * cos a - y * sin a, x * sin a + y * cos a, z).

(** The rotation about the [y] axis that brings the direction at altitude
    [alt] onto the [z] axis, and its inverse. *)
Definition rotate_altitude (alt : R) (v : R * R * R) : R * R * R :=
  let '(x, y, z) := v in
  (sin alt * x + cos alt * z, y, - cos alt * x + sin alt * z).

Definition unrotate_altitude (alt : R) (v : R * R * R) : R * R * R :=
  let '(x, y, z) := v in
  (sin alt * x - cos alt * z, y, cos alt * x + sin alt * z).

Definition norm_sq (v : R * R * R) : R :=
  let '(x, y, z) := v in x * x + y * y + z * z.

(** The unit vector, in the reference's frame, of the direction that the
    tangent plane shows at the offset [(x, y)]. *)
Definition offset_vector (x y : R) : R * R * R :=
  let n := sqrt (1 + (x * x + y * y)) in (x / n, y / n, 1 / n).

(** The projection of the specification: magnitude [tan(arccos(z))] at the
    angle [atan2(y, x)]. *)
Definition tangent_projection (v : R * R * R) : R * R :=
  let '(x, y, z) := v in
  let offset_magnitude := tan (acos z) in
  let offset_angle := Ratan2 y x in
  (offset_magnitude * cos offset_angle, offset_magnitude * sin offset_angle).

(** [offsetFromDirection] in the words of the specification (section 4.1),
    on radians: the target's unit vector is rotated into the reference's
    local frame, first about the vertical by the reference azimuth (which
    leaves the azimuth difference), then about the altitude axis, and the
    result is projected. *)
Definition offsetFromDirection (targetAz targetAlt refAz refAlt : R) : R * R :=
  tangent_projection
    (rotate_altitude refAlt
       (rotate_azimuth refAz (local_vector targetAz targetAlt))).

(** Two directions given by azimuth and altitude are the same point of
    the sphere. *)
Definition same_direction (az1 alt1 az2 alt2 : R) : Prop :=
  local_vector az1 alt1 = local_vector az2 alt2.

(** The direction [(obj_az, obj_alt)] is in the forward hemisphere of the
    reference [(az, alt)]: less than a quarter turn away from it. *)
Definition forward (obj_az obj_alt az alt : R) : Prop :=
  0 < sin alt * sin obj_alt + cos alt * cos obj_alt * cos (obj_az - az).

(** A transform returned one horizon direction, and it is in the forward
    hemisphere of the pointing [p]. *)
Definition forward_of (r : Result (Coordinate HorizonFrame.t (UnitSpherical.t R)))
    (p : Pointing.t R) : Prop :=
  exists h z a,
    r = Ok h /\ is_angle (az h) z /\ is_angle (alt h) a /\
    forward z a (radians (Pointing.az p)) (radians (Pointing.alt p)).

(** An altitude as astropy's [Latitude] accepts it. *)
Definition valid_altitude (alt : R) : Prop := - (PI / 2) <= alt <= PI / 2.

Unset Implicit Arguments.

(** * Properties *)

(** ** Missing attributes *)

Section MissingAttributes.

Context {T : Type} {NT : Numeric T}.

Lemma getattr_None {A B} (field : A -> B) : getattr None field = Raise AttributeError.
Proof. reflexivity. Qed.

(** C6 (as the code has it).  With a Telescope frame whose
    [telescope_pointing] is unset, the four transforms that read the pointing
    (Horizon to Telescope, Telescope to Horizon, Telescope to Nominal,
    Nominal to Telescope) raise [AttributeError], whatever the other
    arguments; the two transforms between Camera and Telescope never read
    the pointing and return a coordinate. *)
Theorem unset_pointing_raises_where_read :
  let unset := TelescopeFrame.make (T:=T) None in
  (forall c, horizon_to_telescope c unset = Raise AttributeError) /\
  (forall d hf, telescope_to_horizon (mkCoordinate unset d) hf = Raise AttributeError) /\
  (forall d nf, telescope_to_nominal (mkCoordinate unset d) nf = Raise AttributeError) /\
  (forall c, nominal_to_telescope c unset = Raise AttributeError) /\
  (forall c, exists r, camera_to_telescope c unset = Ok r) /\
  (forall d cf, exists r, telescope_to_camera (mkCoordinate unset d) cf = Ok r).
Proof.
  cbv zeta.
  split; [reflexivity|].
  split; [reflexivity|].
  split; [reflexivity|].
  split; [reflexivity|].
  split; intros.
  - unfold camera_to_telescope.
    destruct (u.number_is_zero _); eexists; reflexivity.
  - unfold telescope_to_camera.
    destruct (eqb _ _); eexists; reflexivity.
Qed.

End MissingAttributes.

(** C6 (as stated) fails: the registered edge from Camera to a Telescope
    frame with no pointing returns a coordinate. *)
Lemma camera_to_unset_telescope_returns :
  let position := Planar.make (u.mkQuantity (Scalar 1%R) u.m) (u.mkQuantity (Scalar 0%R) u.m) in
  let camera := CameraFrame.init (Some (u.mkQuantity 28%R u.m)) None None in
  exists r,
    frame_transform_graph
      (ACamera (mkCoordinate camera (PlanarData position)))
      (ATelescopeFrame (TelescopeFrame.make None)) = Some (Ok r).
Proof.
  cbv zeta. unfold frame_transform_graph, camera_to_telescope.
  match goal with |- context [if ?b then _ else _] => destruct b end;
    eexists; reflexivity.
Qed.

(** ** The shape of element-wise operations *)

Lemma length_zip_with {A B C} (f : A -> B -> C) l m :
  length l = length m -> length (np.zip_with f l m) = length l.
Proof.
  revert m. induction l as [|a l IH]; intros [|b m] H; cbn in *; try congruence.
  rewrite IH by congruence. reflexivity.
Qed.

Lemma shape_map1 {A B} (f : A -> B) v s : shape v = s -> shape (np.map1 f v) = s.
Proof. intros <-. destruct v; cbn; [reflexivity | rewrite length_map; reflexivity]. Qed.

Lemma shape_map2_l {A B C} (f : A -> B -> C) v w s :
  shape v = s -> broadcasts_to s w -> shape (np.map2 f v w) = s.
Proof.
  intros <- [Hw|Hw]; destruct v as [a|l], w as [b|m]; cbn in *;
    rewrite ?length_map, ?length_zip_with by congruence; congruence.
Qed.

Lemma shape_map2_r {A B C} (f : A -> B -> C) v w s :
  broadcasts_to s v -> shape w = s -> shape (np.map2 f v w) = s.
Proof.
  intros [Hv|Hv] <-; destruct v as [a|l], w as [b|m]; cbn in *;
    rewrite ?length_map, ?length_zip_with by congruence; congruence.
Qed.

Lemma broadcasts_scalar {A} s (a : A) : broadcasts_to s (Scalar a).
Proof. left. reflexivity. Qed.

Lemma broadcasts_map1 {A B} (f : A -> B) v s :
  broadcasts_to s v -> broadcasts_to s (np.map1 f v).
Proof. intros [H|H]; [left|right]; apply shape_map1; exact H. Qed.

Lemma broadcasts_map2 {A B C} (f : A -> B -> C) v w s :
  broadcasts_to s v -> broadcasts_to s w -> broadcasts_to s (np.map2 f v w).
Proof.
  intros [Hv|Hv] [Hw|Hw].
  - left. destruct v, w; cbn in *; congruence.
  - right. apply shape_map2_r; [left|]; assumption.
  - right. apply shape_map2_l; [|left]; assumption.
  - right. apply shape_map2_l; [|right]; assumption.
Qed.

Lemma length_set_nth {A} (l : list A) i v : length (np.set_nth l i v) = length l.
Proof.
  revert i. induction l as [|a l IH]; intros [|i]; cbn; try reflexivity.
  rewrite IH. reflexivity.
Qed.

Lemma shape_setitem {A} (a : NDArray A) pos v : shape (np.setitem a pos v) = shape a.
Proof.
  destruct a as [x|l]; cbn; [reflexivity|]. f_equal.
  revert l. induction pos as [|i pos IH]; intros l; cbn; [reflexivity|].
  rewrite IH, length_set_nth. reflexivity.
Qed.

Lemma shape_overwrite {A} (c : bool) (r0 r : NDArray A) pos t s :
  shape r0 = s -> shape r = s ->
  shape (if c then if np.isscalar r0 then Scalar t else np.setitem r pos t else r) = s.
Proof.
  intros H0 H. destruct c; [|exact H].
  destruct r0 as [x|l]; cbn [np.isscalar].
  - rewrite <- H0. reflexivity.
  - rewrite shape_setitem. exact H.
Qed.

(** ** The unset focal length *)

Lemma div_by_zero_inf_or_nan (x : float) : inf_or_nan (x / 0)%float = true.
Proof.
  unfold inf_or_nan, is_nan, is_infinity.
  rewrite !FloatAxioms.eqb_spec, FloatAxioms.abs_spec, FloatAxioms.div_spec.
  destruct (Prim2SF x) as [s|s| |s m e]; try destruct s; reflexivity.
Qed.

Lemma forall_div_by_zero (lm : Libm) (v : NDArray float) :
  np.forall_ (fun f => inf_or_nan f = true)
    (@np.div_ _ (float_numeric lm) v (Scalar 0%float)).
Proof.
  destruct v as [a|l]; simpl.
  - apply div_by_zero_inf_or_nan.
  - induction l; simpl; constructor; auto using div_by_zero_inf_or_nan.
Qed.

(** C10.  In binary64 arithmetic, whatever the mathematical library: a
    Camera frame built with no focal length has the focal length 0 m (not
    [None]), and [camera_to_telescope] on any coordinate of that frame raises
    nothing.  It returns, in the Telescope frame it was given, one offset for
    each position (offsets of the shape of the positions, tagged in radians),
    and every one of them is an infinity or a NaN: the rotated position
    divided by 0, which for a frame built with no rotation either is the
    position itself divided by 0. *)
Theorem unset_focal_length_gives_inf_or_nan (lm : Libm)
    (rotation : option (u.Quantity float u.AngleUnit))
    (pointing : option (Pointing.t float))
    (position : CameraData float) (telescope_frame : TelescopeFrame.t float)
    (s : option nat) :
  let NT := float_numeric lm in
  let camera_frame := CameraFrame.init None rotation pointing in
  let camera_coord := mkCoordinate camera_frame position in
  shape (u.value (cartesian_x camera_coord)) = s ->
  shape (u.value (cartesian_y camera_coord)) = s ->
  CameraFrame.focal_length camera_frame = u.mkQuantity 0%float u.m /\
  exists r,
    camera_to_telescope camera_coord telescope_frame = Ok r /\
    frame r = telescope_frame /\
    u.unit (Planar.x (data r)) = u.rad /\
    u.unit (Planar.y (data r)) = u.rad /\
    shape (u.value (Planar.x (data r))) = s /\
    shape (u.value (Planar.y (data r))) = s /\
    np.forall_ (fun f => inf_or_nan f = true) (u.value (Planar.x (data r))) /\
    np.forall_ (fun f => inf_or_nan f = true) (u.value (Planar.y (data r))) /\
    (rotation = None ->
     u.value (Planar.x (data r)) = (u.value (cartesian_x camera_coord) / Scalar 0%float)%np /\
     u.value (Planar.y (data r)) = (u.value (cartesian_y camera_coord) / Scalar 0%float)%np).
Proof.
  intros NT camera_frame camera_coord Hx Hy. split; [reflexivity|].
  assert (Hdiv : forall v : NDArray float,
             shape v = s -> shape (v / Scalar 0%float)%np = s).
  { intros v Hv. apply shape_map2_l; [exact Hv | apply broadcasts_scalar]. }
  unfold camera_to_telescope.
  destruct (u.number_is_zero (CameraFrame.rotation (frame camera_coord))) eqn:E.
  - eexists. split; [reflexivity|].
    cbn [realize_frame frame data Planar.x Planar.y u.times u.unit u.value].
    repeat (split; [reflexivity|]).
    split; [apply Hdiv, Hx|]. split; [apply Hdiv, Hy|].
    split; [apply forall_div_by_zero|]. split; [apply forall_div_by_zero|].
    intros _. split; reflexivity.
  - eexists. split; [reflexivity|].
    cbn [realize_frame frame data Planar.x Planar.y u.times u.unit u.value].
    repeat (split; [reflexivity|]).
    split.
    { apply Hdiv. unfold u.sub_, u.scale, u.to_value. cbn [u.value u.unit].
      apply shape_map2_l; [apply shape_map2_l; [exact Hx | apply broadcasts_scalar]|].
      right. apply shape_map1. apply shape_map2_l; [exact Hy | apply broadcasts_scalar]. }
    split.
    { apply Hdiv. unfold u.add_, u.scale, u.to_value. cbn [u.value u.unit].
      apply shape_map2_l; [apply shape_map2_l; [exact Hx | apply broadcasts_scalar]|].
      right. apply shape_map1. apply shape_map2_l; [exact Hy | apply broadcasts_scalar]. }
    split; [apply forall_div_by_zero|]. split; [apply forall_div_by_zero|].
    intros ->. exfalso. revert E. vm_compute. discriminate.
Qed.

(** The theorem at two positions, (1 m, 3 m) and (2 m, 0 m), with no
    rotation: the offsets are (inf, inf) and (inf, NaN). *)
Lemma unset_focal_length_gives_inf_or_nan_witness :
  let NT := float_numeric library_table in
  let camera_frame := CameraFrame.init None None None in
  let position :=
    PlanarData (Planar.make (u.mkQuantity (Array [1; 2]%float) u.m)
                            (u.mkQuantity (Array [3; 0]%float) u.m)) in
  CameraFrame.focal_length camera_frame = u.mkQuantity 0%float u.m /\
  camera_to_telescope (mkCoordinate camera_frame position) (TelescopeFrame.make None)
  = Ok (mkCoordinate (TelescopeFrame.make None)
          (Planar.make (u.mkQuantity (Array [infinity; infinity]) u.rad)
                       (u.mkQuantity (Array [infinity; nan]) u.rad))).
Proof.
  cbv zeta.
  destruct (unset_focal_length_gives_inf_or_nan library_table None None
              (PlanarData (Planar.make (u.mkQuantity (Array [1; 2]%float) u.m)
                                       (u.mkQuantity (Array [3; 0]%float) u.m)))
              (TelescopeFrame.make None) (Some 2%nat) eq_refl eq_refl)
    as (Hf & r & Hr & _).
  split; [exact Hf|]. rewrite Hr. revert Hr. vm_compute. intros [= <-]. reflexivity.
Defined.

(** ** Real trigonometry *)

Lemma PI_neq_0 : PI <> 0.
Proof. pose proof PI_RGT_0; lra. Qed.

Lemma sqrt_1_sq_pos t : 0 < sqrt (1 + t²).
Proof. apply sqrt_lt_R0. unfold Rsqr. nra. Qed.

Lemma hyp_pos x y : 0 < x -> sqrt (x * x + y * y) = x * sqrt (1 + (y / x)²).
Proof.
  intros Hx. pose proof (sqrt_1_sq_pos (y / x)) as Hp.
  apply sqrt_lem_1; [nra | nra |].
  replace (x * sqrt (1 + (y / x)²) * (x * sqrt (1 + (y / x)²)))
    with (x * x * (sqrt (1 + (y / x)²) * sqrt (1 + (y / x)²))) by ring.
  rewrite sqrt_sqrt by (unfold Rsqr; nra).
  unfold Rsqr. field. lra.
Qed.

Lemma hyp_neg x y : x < 0 -> sqrt (x * x + y * y) = - x * sqrt (1 + (y / x)²).
Proof.
  intros Hx. pose proof (sqrt_1_sq_pos (y / x)) as Hp.
  apply sqrt_lem_1; [nra | nra |].
  replace (- x * sqrt (1 + (y / x)²) * (- x * sqrt (1 + (y / x)²)))
    with (x * x * (sqrt (1 + (y / x)²) * sqrt (1 + (y / x)²))) by ring.
  rewrite sqrt_sqrt by (unfold Rsqr; nra).
  unfold Rsqr. field. lra.
Qed.

Lemma Ratan2_polar x y :
  sqrt (x * x + y * y) * cos (Ratan2 y x) = x /\
  sqrt (x * x + y * y) * sin (Ratan2 y x) = y.
Proof.
  unfold Ratan2.
  destruct (Rlt_dec 0 x) as [Hx|Hx].
  - rewrite cos_atan, sin_atan, hyp_pos by assumption.
    pose proof (sqrt_1_sq_pos (y / x)).
    split; field; lra.
  - destruct (Rlt_dec x 0) as [Hx'|Hx'].
    + pose proof (sqrt_1_sq_pos (y / x)).
      rewrite hyp_neg by assumption.
      destruct (Rle_dec 0 y).
      * rewrite neg_cos, neg_sin, cos_atan, sin_atan. split; field; lra.
      * rewrite cos_minus, sin_minus, cos_PI, sin_PI, cos_atan, sin_atan.
        split; field; lra.
    + assert (x = 0) by lra. subst x.
      replace (0 * 0 + y * y) with (y * y) by ring.
      destruct (Rlt_dec 0 y).
      * rewrite cos_PI2, sin_PI2, sqrt_square by lra. lra.
      * destruct (Rlt_dec y 0).
        -- rewrite cos_neg, sin_neg, cos_PI2, sin_PI2.
           replace (y * y) with ((-y) * (-y)) by ring.
           rewrite sqrt_square by lra. lra.
        -- assert (y = 0) by lra. subst y.
           rewrite Rmult_0_l, sqrt_0. lra.
Qed.

Lemma Ratan2_bound x y : - PI < Ratan2 y x <= PI.
Proof.
  unfold Ratan2. pose proof PI_RGT_0.
  destruct (Rlt_dec 0 x) as [Hx|Hx].
  - pose proof (atan_bound (y / x)). lra.
  - destruct (Rlt_dec x 0) as [Hx'|Hx'].
    + pose proof (atan_bound (y / x)).
      destruct (Rle_dec 0 y).
      * assert (atan (y / x) <= 0).
        { rewrite <- atan_0. destruct (Req_dec y 0) as [->|].
          - unfold Rdiv. rewrite Rmult_0_l. lra.
          - left. apply atan_increasing.
            apply Rmult_lt_reg_r with (- x); [lra|].
            unfold Rdiv. replace (y * / x * - x) with (- y) by (field; lra). lra. }
        lra.
      * assert (0 < atan (y / x)).
        { rewrite <- atan_0. apply atan_increasing.
          apply Rmult_lt_reg_r with (- x); [lra|].
          unfold Rdiv. replace (y * / x * - x) with (- y) by (field; lra). lra. }
        lra.
    + destruct (Rlt_dec 0 y); [lra|]. destruct (Rlt_dec y 0); lra.
Qed.

Lemma cos_eq_1_small x : - (2 * PI) < x < 2 * PI -> cos x = 1 -> x = 0.
Proof.
  intros Hx Hc. pose proof PI_RGT_0.
  assert (Hs : sin (x / 2) = 0).
  { replace x with (2 * (x / 2)) in Hc by field.
    rewrite cos_2a_sin in Hc. 
    assert (sin (x/2) * sin (x/2) = 0) by lra.
    destruct (Rmult_integral _ _ H0); assumption. }
  apply sin_eq_0_0 in Hs. destruct Hs as [k Hk].
  assert (-1 < IZR k < 1).
  { split; apply Rmult_lt_reg_r with PI; try lra. }
  assert (k = 0%Z).
  { destruct H0 as [H1 H2]. apply lt_IZR in H1, H2. lia. }
  subst k. lra.
Qed.

Lemma angle_unique a b :
  - PI < a <= PI -> - PI < b <= PI -> cos a = cos b -> sin a = sin b -> a = b.
Proof.
  intros Ha Hb Hc Hs.
  assert (cos (a - b) = 1).
  { rewrite cos_minus, Hc, Hs. pose proof (sin2_cos2 b). unfold Rsqr in *. lra. }
  apply cos_eq_1_small in H; lra.
Qed.

Lemma angle_unique_mod a b :
  cos a = cos b -> sin a = sin b -> exists k : Z, a = b + 2 * IZR k * PI.
Proof.
  intros Hc Hs.
  assert (H : cos (a - b) = 1).
  { rewrite cos_minus, Hc, Hs. pose proof (sin2_cos2 b). unfold Rsqr in *. lra. }
  assert (Hs2 : sin ((a - b) / 2) = 0).
  { replace (a - b) with (2 * ((a - b) / 2)) in H by field.
    rewrite cos_2a_sin in H.
    assert (H0 : sin ((a - b)/2) * sin ((a - b)/2) = 0) by lra.
    destruct (Rmult_integral _ _ H0); assumption. }
  apply sin_eq_0_0 in Hs2. destruct Hs2 as [k Hk].
  exists k. lra.
Qed.

Lemma Ratan2_of_polar rho theta :
  0 < rho -> - PI < theta <= PI ->
  Ratan2 (rho * sin theta) (rho * cos theta) = theta.
Proof.
  intros Hr Ht.
  destruct (Ratan2_polar (rho * cos theta) (rho * sin theta)) as [Hc Hs].
  assert (Hrho : sqrt (rho * cos theta * (rho * cos theta) + rho * sin theta * (rho * sin theta)) = rho).
  { replace (_ + _) with (rho * rho * ((sin theta)² + (cos theta)²)) by (unfold Rsqr; ring).
    rewrite sin2_cos2, Rmult_1_r. apply sqrt_square. lra. }
  rewrite Hrho in Hc, Hs.
  apply angle_unique; auto using Ratan2_bound.
  - apply Rmult_eq_reg_l with rho; lra.
  - apply Rmult_eq_reg_l with rho; lra.
Qed.

(** ** Units over the reals *)

Lemma convert_there_and_back (un : u.AngleUnit) (v : R) :
  u.convert un u.rad (u.convert u.rad un v) = v.
Proof.
  destruct un; simpl; [reflexivity|]. field. apply PI_neq_0.
Qed.

Lemma convert_via (u1 u2 : u.AngleUnit) (v : R) :
  u.convert u2 u.rad (u.convert u1 u2 v) = u.convert u1 u.rad v.
Proof.
  destruct u1, u2; simpl; try reflexivity. field. apply PI_neq_0.
Qed.

Lemma convert_sub (un : u.AngleUnit) (a b : R) :
  u.convert un u.rad (a - b) = u.convert un u.rad a - u.convert un u.rad b.
Proof. destruct un; simpl; ring. Qed.

Lemma radians_sub (a az : u.Quantity R u.AngleUnit) :
  u.convert (u.unit a) u.rad (u.value a - u.convert (u.unit az) (u.unit a) (u.value az))
  = radians a - radians az.
Proof.
  unfold radians, u.number_to_value. rewrite convert_sub, convert_via. reflexivity.
Qed.

Lemma altaz_to_offset_scalar (a b az alt : u.Quantity R u.AngleUnit) :
  altaz_to_offset (u.lift a) (u.lift b) az alt =
  let '(x, y) :=
    tangent_projection
      (rotate_altitude (radians alt)
         (local_vector (radians a - radians az) (radians b))) in
  (Scalar x, Scalar y).
Proof.
  rewrite <- radians_sub. reflexivity.
Qed.

Ltac np_unfold :=
  cbv beta iota zeta delta
    [np.map1 np.map2 np.mul_ np.add_ np.sub_ np.div_ np.neg_ np.eq_ np.sqrt
     np.cos np.sin np.tan np.arccos np.arcsin np.arctan np.arctan2
     np.where_ np.isscalar np.setitem
     u.lift u.to_value u.to u.times u.value u.unit u.cos u.sin u.sub_ u.add_
     u.scale length Nat.ltb Nat.leb].

Lemma offset_to_altaz_scalar (a b alt az : u.Quantity R u.AngleUnit) :
  offset_to_altaz (u.lift a) (u.lift b) alt az =
  let x := radians a in
  let y := radians b in
  let offset := sqrt (x * x + y * y) in
  if Reqb offset 0 then
    (u.to (scalar_angle (radians alt) u.rad) (u.unit az),
     u.to (scalar_angle (radians az) u.rad) (u.unit az))
  else
    let k := sin (atan offset) / offset in
    let '(xp0, yp0, zp0) :=
      unrotate_altitude (radians alt) (x * k, y * k, cos (atan offset)) in
    (u.to (scalar_angle (asin zp0) u.rad) (u.unit az),
     u.to (scalar_angle (Ratan2 yp0 (- xp0) + radians az) u.rad) (u.unit az)).
Proof.
  unfold offset_to_altaz, scalar_angle, unrotate_altitude. np_unfold.
  change (@eqb R R_numeric) with Reqb.
  change (@zero R R_numeric) with 0.
  match goal with |- context [Reqb ?o 0] =>
    change o with (sqrt (radians a * radians a + radians b * radians b));
    destruct (Reqb (sqrt (radians a * radians a + radians b * radians b)) 0)
  end; reflexivity.
Qed.

(** ** Rotations and the projection *)

Ltac vec_eq := apply f_equal2; [apply f_equal2 |].

Lemma sin_cos_sq a : sin a * sin a + cos a * cos a = 1.
Proof. pose proof (sin2_cos2 a) as H. unfold Rsqr in H. exact H. Qed.

Lemma local_vector_unit d alt : norm_sq (local_vector d alt) = 1.
Proof.
  unfold norm_sq, local_vector.
  pose proof (sin_cos_sq d). pose proof (sin_cos_sq alt). nra.
Qed.

Lemma rotate_altitude_norm alt v : norm_sq (rotate_altitude alt v) = norm_sq v.
Proof.
  destruct v as [[x y] z]. unfold norm_sq, rotate_altitude.
  pose proof (sin_cos_sq alt). nra.
Qed.

Lemma unrotate_altitude_norm alt v : norm_sq (unrotate_altitude alt v) = norm_sq v.
Proof.
  destruct v as [[x y] z]. unfold norm_sq, unrotate_altitude.
  pose proof (sin_cos_sq alt). nra.
Qed.

Lemma rotate_unrotate alt v : rotate_altitude alt (unrotate_altitude alt v) = v.
Proof.
  destruct v as [[x y] z]. unfold rotate_altitude, unrotate_altitude.
  pose proof (sin_cos_sq alt). vec_eq; nsatz.
Qed.

Lemma unrotate_rotate alt v : unrotate_altitude alt (rotate_altitude alt v) = v.
Proof.
  destruct v as [[x y] z]. unfold rotate_altitude, unrotate_altitude.
  pose proof (sin_cos_sq alt). vec_eq; nsatz.
Qed.

Lemma local_vector_shift d a alt :
  local_vector (d - a) alt = rotate_azimuth a (local_vector d alt).
Proof.
  unfold local_vector, rotate_azimuth. rewrite cos_minus, sin_minus.
  vec_eq; ring.
Qed.

Lemma offset_norm_pos x y : 0 < sqrt (1 + (x * x + y * y)).
Proof. apply sqrt_lt_R0. nra. Qed.

Lemma offset_vector_unit x y : norm_sq (offset_vector x y) = 1.
Proof.
  unfold norm_sq, offset_vector.
  pose proof (offset_norm_pos x y) as Hn.
  assert (Hs : sqrt (1 + (x * x + y * y)) * sqrt (1 + (x * x + y * y)) = 1 + (x * x + y * y))
    by (apply sqrt_sqrt; nra).
  set (n := sqrt (1 + (x * x + y * y))) in *.
  replace (x / n * (x / n) + y / n * (y / n) + 1 / n * (1 / n))
    with ((1 + (x * x + y * y)) / (n * n)) by (field; lra).
  rewrite Hs. field. nra.
Qed.

(** On a unit vector in the forward hemisphere the projection is the
    gnomonic one. *)
Lemma tangent_projection_unit x y z :
  norm_sq (x, y, z) = 1 -> 0 < z ->
  tangent_projection (x, y, z) = (x / z, y / z).
Proof.
  unfold norm_sq, tangent_projection. intros Hn Hz.
  assert (Hz1 : -1 <= z <= 1) by nra.
  rewrite tan_acos by assumption.
  destruct (Ratan2_polar x y) as [Hc Hs].
  replace (1 - z²) with (x * x + y * y) by (unfold Rsqr; lra).
  f_equal.
  - replace (sqrt (x * x + y * y) / z * cos (Ratan2 y x))
      with (sqrt (x * x + y * y) * cos (Ratan2 y x) / z) by (field; lra).
    rewrite Hc. reflexivity.
  - replace (sqrt (x * x + y * y) / z * sin (Ratan2 y x))
      with (sqrt (x * x + y * y) * sin (Ratan2 y x) / z) by (field; lra).
    rewrite Hs. reflexivity.
Qed.

Lemma tangent_projection_offset_vector x y :
  tangent_projection (offset_vector x y) = (x, y).
Proof.
  pose proof (offset_vector_unit x y) as Hu.
  pose proof (offset_norm_pos x y) as Hn.
  unfold offset_vector in *.
  rewrite tangent_projection_unit; auto.
  - f_equal; field; lra.
  - apply Rdiv_lt_0_compat; lra.
Qed.

(** A unit vector in the forward hemisphere is the vector of its own
    projection. *)
Lemma offset_vector_projection x y z :
  norm_sq (x, y, z) = 1 -> 0 < z ->
  offset_vector (x / z) (y / z) = (x, y, z).
Proof.
  unfold norm_sq, offset_vector. intros Hn Hz.
  assert (Hs : sqrt (1 + (x / z * (x / z) + y / z * (y / z))) = / z).
  { apply sqrt_lem_1.
    - pose proof (Rle_0_sqr (x / z)). pose proof (Rle_0_sqr (y / z)). unfold Rsqr in *. lra.
    - left. apply Rinv_0_lt_compat. assumption.
    - replace (1 + (x / z * (x / z) + y / z * (y / z)))
        with ((x * x + y * y + z * z) / (z * z)) by (field; lra).
      rewrite Hn. field. lra. }
  rewrite Hs. vec_eq; field; lra.
Qed.

(** ** The direction that [offset_to_altaz] returns *)

Lemma direction_of_vector x0 y0 z0 :
  norm_sq (x0, y0, z0) = 1 ->
  local_vector (Ratan2 y0 (- x0)) (asin z0) = (x0, y0, z0).
Proof.
  unfold norm_sq, local_vector. intros Hn.
  assert (Hz : -1 <= z0 <= 1) by nra.
  rewrite cos_asin, sin_asin by assumption.
  destruct (Ratan2_polar (- x0) y0) as [Hc Hs].
  replace (1 - z0²) with (- x0 * - x0 + y0 * y0) by (unfold Rsqr; lra).
  vec_eq; lra.
Qed.

Lemma sqrt_sum_sq_0 x y : sqrt (x * x + y * y) = 0 -> x = 0 /\ y = 0.
Proof.
  intros H. apply sqrt_eq_0 in H; [|nra]. split; nra.
Qed.

Lemma offset_vector_origin : offset_vector 0 0 = (0, 0, 1).
Proof.
  unfold offset_vector.
  replace (1 + (0 * 0 + 0 * 0)) with 1 by ring. rewrite sqrt_1.
  vec_eq; field.
Qed.

Lemma unprojection x y :
  let offset := sqrt (x * x + y * y) in
  offset <> 0 ->
  (x * (sin (atan offset) / offset), y * (sin (atan offset) / offset), cos (atan offset))
  = offset_vector x y.
Proof.
  intros offset Hne. unfold offset_vector.
  rewrite sin_atan, cos_atan.
  assert (Hsq : offset² = x * x + y * y).
  { unfold Rsqr, offset. apply sqrt_sqrt. nra. }
  rewrite Hsq.
  pose proof (offset_norm_pos x y).
  vec_eq; field; lra.
Qed.

(** The output of the scalar call, in radians, with the facts about it. *)
Lemma offset_to_altaz_direction (a b alt az : u.Quantity R u.AngleUnit) :
  exists obj_alt obj_az,
    offset_to_altaz (u.lift a) (u.lift b) alt az =
      (u.to (scalar_angle obj_alt u.rad) (u.unit az),
       u.to (scalar_angle obj_az u.rad) (u.unit az)) /\
    local_vector (obj_az - radians az) obj_alt =
      unrotate_altitude (radians alt) (offset_vector (radians a) (radians b)) /\
    (sqrt (radians a * radians a + radians b * radians b) = 0 ->
       obj_alt = radians alt /\ obj_az = radians az) /\
    (sqrt (radians a * radians a + radians b * radians b) <> 0 ->
       - (PI / 2) <= obj_alt <= PI / 2 /\ - PI < obj_az - radians az <= PI).
Proof.
  rewrite offset_to_altaz_scalar. cbv zeta.
  set (x := radians a). set (y := radians b).
  unfold Reqb. destruct (Req_dec_T (sqrt (x * x + y * y)) 0) as [H0|Hne].
  - exists (radians alt), (radians az). split; [reflexivity|]. split; [|split].
    + destruct (sqrt_sum_sq_0 _ _ H0) as [-> ->].
      rewrite offset_vector_origin. unfold local_vector, unrotate_altitude.
      replace (radians az - radians az) with 0 by ring. rewrite cos_0, sin_0.
      vec_eq; ring.
    + auto.
    + intros; contradiction.
  - rewrite unprojection by assumption.
    pose proof (offset_vector_unit x y) as Hu.
    rewrite <- (unrotate_altitude_norm (radians alt)) in Hu.
    destruct (unrotate_altitude (radians alt) (offset_vector x y)) as [[xp0 yp0] zp0].
    exists (asin zp0), (Ratan2 yp0 (- xp0) + radians az).
    split; [reflexivity|]. split; [|split].
    + replace (Ratan2 yp0 (- xp0) + radians az - radians az) with (Ratan2 yp0 (- xp0)) by ring.
      apply direction_of_vector; assumption.
    + intros; contradiction.
    + intros _. split.
      * apply asin_bound.
      * replace (Ratan2 yp0 (- xp0) + radians az - radians az) with (Ratan2 yp0 (- xp0)) by ring.
        apply Ratan2_bound.
Qed.

Lemma radians_to (r : R) (un : u.AngleUnit) :
  radians (u.mkQuantity (u.convert u.rad un r) un) = r.
Proof. apply convert_there_and_back. Qed.

Lemma to_scalar_angle (r : R) (un : u.AngleUnit) :
  u.to (scalar_angle r u.rad) un = u.lift (u.mkQuantity (u.convert u.rad un r) un).
Proof. reflexivity. Qed.

Lemma is_angle_to (r : R) (un : u.AngleUnit) : is_angle (u.to (scalar_angle r u.rad) un) r.
Proof.
  unfold is_angle. rewrite to_scalar_angle.
  unfold u.to_value, u.lift; simpl. f_equal. apply convert_there_and_back.
Qed.

Lemma is_angle_lift (q : u.Quantity R u.AngleUnit) : is_angle (u.lift q) (radians q).
Proof. reflexivity. Qed.

(** *** Offsets survive the way to the sky and back *)

Lemma offset_round_trip (a b alt az : u.Quantity R u.AngleUnit) :
  let '(obj_altitude, obj_azimuth) := offset_to_altaz (u.lift a) (u.lift b) alt az in
  altaz_to_offset obj_azimuth obj_altitude az alt = (Scalar (radians a), Scalar (radians b)).
Proof.
  destruct (offset_to_altaz_direction a b alt az) as (obj_alt & obj_az & -> & Hv & _).
  rewrite !to_scalar_angle, altaz_to_offset_scalar, !radians_to.
  rewrite Hv, rotate_unrotate, tangent_projection_offset_vector.
  reflexivity.
Qed.

(** *** Directions survive the way to the tangent plane and back *)

Lemma forward_rotated obj_az obj_alt az alt :
  forward obj_az obj_alt az alt <->
  0 < snd (rotate_altitude alt (local_vector (obj_az - az) obj_alt)).
Proof.
  unfold forward, rotate_altitude, local_vector; simpl.
  split; intros H; nra.
Qed.

Lemma direction_round_trip (a b az alt : u.Quantity R u.AngleUnit) :
  forward (radians a) (radians b) (radians az) (radians alt) ->
  exists x y obj_alt obj_az,
    altaz_to_offset (u.lift a) (u.lift b) az alt = (Scalar x, Scalar y) /\
    offset_to_altaz (scalar_angle x u.rad) (scalar_angle y u.rad) alt az =
      (u.to (scalar_angle obj_alt u.rad) (u.unit az),
       u.to (scalar_angle obj_az u.rad) (u.unit az)) /\
    local_vector (obj_az - radians az) obj_alt =
      local_vector (radians a - radians az) (radians b) /\
    (sqrt (x * x + y * y) = 0 -> obj_alt = radians alt /\ obj_az = radians az) /\
    (sqrt (x * x + y * y) <> 0 ->
       - (PI / 2) <= obj_alt <= PI / 2 /\ - PI < obj_az - radians az <= PI).
Proof.
  intros Hf. apply forward_rotated in Hf.
  rewrite altaz_to_offset_scalar.
  pose proof (local_vector_unit (radians a - radians az) (radians b)) as Hu.
  rewrite <- (rotate_altitude_norm (radians alt)) in Hu.
  pose proof (unrotate_rotate (radians alt)
                (local_vector (radians a - radians az) (radians b))) as Hback.
  destruct (rotate_altitude (radians alt) _) as [[x1 y1] z1]. simpl in Hf.
  rewrite <- Hback.
  rewrite tangent_projection_unit by assumption.
  exists (x1 / z1), (y1 / z1).
  destruct (offset_to_altaz_direction (u.mkQuantity (x1 / z1) u.rad) (u.mkQuantity (y1 / z1) u.rad) alt az)
    as (obj_alt & obj_az & He & Hv & H0 & Hne).
  exists obj_alt, obj_az.
  split; [reflexivity|]. split; [exact He|].
  change (radians (u.mkQuantity (x1 / z1) u.rad)) with (x1 / z1) in *.
  change (radians (u.mkQuantity (y1 / z1) u.rad)) with (y1 / z1) in *.
  rewrite offset_vector_projection in Hv by assumption.
  auto.
Qed.

(** ** Recovering angles from the unit vector *)

Lemma local_vector_altitude d1 alt1 d2 alt2 :
  - (PI / 2) <= alt1 <= PI / 2 -> - (PI / 2) <= alt2 <= PI / 2 ->
  local_vector d1 alt1 = local_vector d2 alt2 -> alt1 = alt2.
Proof.
  unfold local_vector. intros H1 H2 H. injection H as _ _ Hs.
  apply sin_inj; assumption.
Qed.

Lemma local_vector_azimuth d1 d2 alt :
  0 < cos alt ->
  local_vector d1 alt = local_vector d2 alt ->
  cos d1 = cos d2 /\ sin d1 = sin d2.
Proof.
  unfold local_vector. intros Hc H. injection H as Hx Hy.
  split; apply Rmult_eq_reg_r with (cos alt); lra.
Qed.

Lemma local_vector_azimuth_mod d1 d2 alt :
  0 < cos alt ->
  local_vector d1 alt = local_vector d2 alt ->
  exists k : Z, d1 = d2 + 2 * IZR k * PI.
Proof.
  intros Hc H. destruct (local_vector_azimuth _ _ _ Hc H).
  apply angle_unique_mod; assumption.
Qed.

Lemma local_vector_azimuth_eq d1 d2 alt :
  0 < cos alt -> - PI < d1 <= PI -> - PI < d2 <= PI ->
  local_vector d1 alt = local_vector d2 alt -> d1 = d2.
Proof.
  intros Hc H1 H2 H. destruct (local_vector_azimuth _ _ _ Hc H).
  apply angle_unique; assumption.
Qed.

Lemma same_direction_shift az d1 alt1 d2 alt2 :
  local_vector (d1 - az) alt1 = local_vector (d2 - az) alt2 ->
  same_direction d1 alt1 d2 alt2.
Proof.
  intros H. unfold same_direction.
  replace d1 with (d1 - az - (- az)) by ring.
  replace d2 with (d2 - az - (- az)) by ring.
  rewrite !(local_vector_shift _ (- az)). rewrite H. reflexivity.
Qed.

Lemma same_direction_unshift az d1 alt1 d2 alt2 :
  same_direction d1 alt1 d2 alt2 ->
  local_vector (d1 - az) alt1 = local_vector (d2 - az) alt2.
Proof.
  unfold same_direction. intros H. rewrite !local_vector_shift, H. reflexivity.
Qed.

(** ** Round trips between the frames *)

Lemma telescope_to_horizon_scalar (x y : u.Quantity R u.AngleUnit) (p : Pointing.t R) hf :
  telescope_to_horizon (planar_coord (TelescopeFrame.make (Some p)) x y) hf =
  let '(altitude, azimuth) :=
    offset_to_altaz (u.lift x) (u.lift y) (Pointing.alt p) (Pointing.az p) in
  Ok (mkCoordinate hf (UnitSpherical.make azimuth altitude)).
Proof. reflexivity. Qed.

Lemma nominal_to_altaz_scalar (x y : u.Quantity R u.AngleUnit) (p : Pointing.t R) hf :
  nominal_to_altaz (planar_coord (NominalFrame.make (Some p)) x y) hf =
  let '(altitude, azimuth) :=
    offset_to_altaz (u.lift x) (u.lift y) (Pointing.alt p) (Pointing.az p) in
  Ok (mkCoordinate hf (UnitSpherical.make azimuth altitude)).
Proof. reflexivity. Qed.

Lemma telescope_horizon_telescope (x y : u.Quantity R u.AngleUnit) (p : Pointing.t R) hf :
  let tf := TelescopeFrame.make (Some p) in
  (h <- telescope_to_horizon (planar_coord tf x y) hf ;; horizon_to_telescope h tf)
  = Ok (planar_coord tf (in_radians x) (in_radians y)).
Proof.
  cbv zeta. rewrite telescope_to_horizon_scalar.
  pose proof (offset_round_trip x y (Pointing.alt p) (Pointing.az p)) as H.
  destruct (offset_to_altaz _ _ _ _) as [altitude azimuth].
  unfold bind, horizon_to_telescope, getattr, az, alt.
  cbn [bind TelescopeFrame.telescope_pointing data UnitSpherical.lon UnitSpherical.lat].
  rewrite H. reflexivity.
Qed.

Lemma nominal_horizon_nominal (x y : u.Quantity R u.AngleUnit) (p : Pointing.t R) hf :
  let nf := NominalFrame.make (Some p) in
  (h <- nominal_to_altaz (planar_coord nf x y) hf ;; altaz_to_nominal h nf)
  = Ok (planar_coord nf (in_radians x) (in_radians y)).
Proof.
  cbv zeta. rewrite nominal_to_altaz_scalar.
  pose proof (offset_round_trip x y (Pointing.alt p) (Pointing.az p)) as H.
  destruct (offset_to_altaz _ _ _ _) as [altitude azimuth].
  unfold bind, altaz_to_nominal, getattr, az, alt.
  cbn [bind NominalFrame.reference_point data UnitSpherical.lon UnitSpherical.lat].
  rewrite H. reflexivity.
Qed.

Lemma horizon_to_telescope_scalar (a b : u.Quantity R u.AngleUnit) (p : Pointing.t R) hf :
  horizon_to_telescope (horizon_coord hf a b) (TelescopeFrame.make (Some p)) =
  let '(x_off, y_off) :=
    altaz_to_offset (u.lift a) (u.lift b) (Pointing.az p) (Pointing.alt p) in
  Ok (mkCoordinate (TelescopeFrame.make (Some p))
        (Planar.make (u.times x_off u.rad) (u.times y_off u.rad))).
Proof. reflexivity. Qed.

Lemma altaz_to_nominal_scalar (a b : u.Quantity R u.AngleUnit) (p : Pointing.t R) hf :
  altaz_to_nominal (horizon_coord hf a b) (NominalFrame.make (Some p)) =
  let '(x_off, y_off) :=
    altaz_to_offset (u.lift a) (u.lift b) (Pointing.az p) (Pointing.alt p) in
  Ok (mkCoordinate (NominalFrame.make (Some p))
        (Planar.make (u.times x_off u.rad) (u.times y_off u.rad))).
Proof. reflexivity. Qed.

(** What the way to the tangent plane and back gives, for the two frames
    at once: the kernels do the work, the frames only pack. *)
Lemma sky_round_trip (a b : u.Quantity R u.AngleUnit) (p : Pointing.t R) :
  forward (radians a) (radians b) (radians (Pointing.az p)) (radians (Pointing.alt p)) ->
  valid_altitude (radians b) -> valid_altitude (radians (Pointing.alt p)) ->
  exists x y azimuth altitude obj_az,
    altaz_to_offset (u.lift a) (u.lift b) (Pointing.az p) (Pointing.alt p) = (Scalar x, Scalar y) /\
    offset_to_altaz (scalar_angle x u.rad) (scalar_angle y u.rad) (Pointing.alt p) (Pointing.az p)
      = (altitude, azimuth) /\
    is_angle altitude (radians b) /\
    is_angle azimuth obj_az /\
    same_direction obj_az (radians b) (radians a) (radians b) /\
    (0 < cos (radians b) ->
       (exists k : Z, obj_az = radians a + 2 * IZR k * PI) /\
       (- PI < radians a - radians (Pointing.az p) <= PI -> obj_az = radians a)).
Proof.
  intros Hf Hb Hp.
  destruct (direction_round_trip a b (Pointing.az p) (Pointing.alt p) Hf)
    as (x & y & obj_alt & obj_az & HA & HO & Hv & H0 & Hne).
  assert (Hrange : valid_altitude obj_alt /\ - PI < obj_az - radians (Pointing.az p) <= PI).
  { destruct (Req_dec (sqrt (x * x + y * y)) 0) as [Hz|Hz].
    - destruct (H0 Hz) as [-> ->]. split; [assumption|].
      replace (radians (Pointing.az p) - radians (Pointing.az p)) with 0 by ring.
      pose proof PI_RGT_0. lra.
    - apply Hne; assumption. }
  destruct Hrange as [Halt Haz].
  assert (Ealt : obj_alt = radians b)
    by (eapply local_vector_altitude; eassumption).
  subst obj_alt.
  exists x, y, (u.to (scalar_angle obj_az u.rad) (u.unit (Pointing.az p))),
    (u.to (scalar_angle (radians b) u.rad) (u.unit (Pointing.az p))), obj_az.
  split; [assumption|]. split; [assumption|].
  split; [apply is_angle_to|]. split; [apply is_angle_to|].
  split; [eapply same_direction_shift; eassumption|].
  intros Hc. split.
  - destruct (local_vector_azimuth_mod _ _ _ Hc Hv) as [k Hk]. exists k. lra.
  - intros Hd.
    pose proof (local_vector_azimuth_eq _ _ _ Hc Haz Hd Hv). lra.
Qed.

Lemma horizon_telescope_horizon (a b : u.Quantity R u.AngleUnit) (p : Pointing.t R) hf :
  let tf := TelescopeFrame.make (Some p) in
  forward (radians a) (radians b) (radians (Pointing.az p)) (radians (Pointing.alt p)) ->
  valid_altitude (radians b) -> valid_altitude (radians (Pointing.alt p)) ->
  exists h obj_az,
    (t <- horizon_to_telescope (horizon_coord hf a b) tf ;; telescope_to_horizon t hf) = Ok h /\
    is_angle (alt h) (radians b) /\
    is_angle (az h) obj_az /\
    same_direction obj_az (radians b) (radians a) (radians b) /\
    (0 < cos (radians b) ->
       (exists k : Z, obj_az = radians a + 2 * IZR k * PI) /\
       (- PI < radians a - radians (Pointing.az p) <= PI -> obj_az = radians a)).
Proof.
  cbv zeta. intros Hf Hb Hp.
  destruct (sky_round_trip a b p Hf Hb Hp)
    as (x & y & azimuth & altitude & obj_az & HA & HO & Halt & Haz & Hrest).
  exists (mkCoordinate hf (UnitSpherical.make azimuth altitude)), obj_az.
  split; [|auto].
  rewrite horizon_to_telescope_scalar, HA.
  unfold bind, telescope_to_horizon, getattr.
  cbn [bind frame data TelescopeFrame.telescope_pointing Planar.x Planar.y].
  change (u.times (Scalar x) u.rad) with (scalar_angle x u.rad).
  change (u.times (Scalar y) u.rad) with (scalar_angle y u.rad).
  rewrite HO. reflexivity.
Qed.

Lemma horizon_nominal_horizon (a b : u.Quantity R u.AngleUnit) (p : Pointing.t R) hf :
  let nf := NominalFrame.make (Some p) in
  forward (radians a) (radians b) (radians (Pointing.az p)) (radians (Pointing.alt p)) ->
  valid_altitude (radians b) -> valid_altitude (radians (Pointing.alt p)) ->
  exists h obj_az,
    (n <- altaz_to_nominal (horizon_coord hf a b) nf ;; nominal_to_altaz n hf) = Ok h /\
    is_angle (alt h) (radians b) /\
    is_angle (az h) obj_az /\
    same_direction obj_az (radians b) (radians a) (radians b) /\
    (0 < cos (radians b) ->
       (exists k : Z, obj_az = radians a + 2 * IZR k * PI) /\
       (- PI < radians a - radians (Pointing.az p) <= PI -> obj_az = radians a)).
Proof.
  cbv zeta. intros Hf Hb Hp.
  destruct (sky_round_trip a b p Hf Hb Hp)
    as (x & y & azimuth & altitude & obj_az & HA & HO & Halt & Haz & Hrest).
  exists (mkCoordinate hf (UnitSpherical.make azimuth altitude)), obj_az.
  split; [|auto].
  rewrite altaz_to_nominal_scalar, HA.
  unfold bind, nominal_to_altaz, getattr.
  cbn [bind frame data NominalFrame.reference_point Planar.x Planar.y].
  change (u.times (Scalar x) u.rad) with (scalar_angle x u.rad).
  change (u.times (Scalar y) u.rad) with (scalar_angle y u.rad).
  rewrite HO. reflexivity.
Qed.

(** ** Through the other pointing *)

Lemma altaz_to_offset_of_direction (obj_az obj_alt : R) (un1 un2 : u.AngleUnit)
    (az alt : u.Quantity R u.AngleUnit) :
  altaz_to_offset (u.to (scalar_angle obj_az u.rad) un1) (u.to (scalar_angle obj_alt u.rad) un2)
    az alt =
  let '(x, y) :=
    tangent_projection
      (rotate_altitude (radians alt) (local_vector (obj_az - radians az) obj_alt)) in
  (Scalar x, Scalar y).
Proof.
  rewrite !to_scalar_angle, altaz_to_offset_scalar, !radians_to. reflexivity.
Qed.

Lemma offset_to_altaz_radians (a a' b b' alt az : u.Quantity R u.AngleUnit) :
  radians a = radians a' -> radians b = radians b' ->
  offset_to_altaz (u.lift a) (u.lift b) alt az =
  offset_to_altaz (u.lift a') (u.lift b') alt az.
Proof.
  intros Ha Hb. rewrite !offset_to_altaz_scalar, Ha, Hb. reflexivity.
Qed.

Lemma is_angle_unique q r1 r2 : is_angle q r1 -> is_angle q r2 -> r1 = r2.
Proof. unfold is_angle. intros H1 H2. rewrite H1 in H2. injection H2. auto. Qed.

(** An offset about the pointing [(az1, alt1)] is taken to the sky, and the
    direction [d1] found there to the tangent plane of a second pointing
    [(az2, alt2)] in whose forward hemisphere it lies.  From there, the way
    back to the sky gives a direction [d2] that is the same point of the
    sphere as [d1], and the way back to the first pointing gives the offset
    started from. *)
Lemma through_other_pointing (x y alt1 az1 alt2 az2 : u.Quantity R u.AngleUnit) :
  exists obj_alt1 obj_az1,
    offset_to_altaz (u.lift x) (u.lift y) alt1 az1 =
      (u.to (scalar_angle obj_alt1 u.rad) (u.unit az1),
       u.to (scalar_angle obj_az1 u.rad) (u.unit az1)) /\
    (valid_altitude (radians alt1) -> valid_altitude obj_alt1) /\
    (forward obj_az1 obj_alt1 (radians az2) (radians alt2) ->
     exists x2 y2 obj_alt2 obj_az2,
       altaz_to_offset
         (u.to (scalar_angle obj_az1 u.rad) (u.unit az1))
         (u.to (scalar_angle obj_alt1 u.rad) (u.unit az1)) az2 alt2 = (Scalar x2, Scalar y2) /\
       offset_to_altaz (scalar_angle x2 u.rad) (scalar_angle y2 u.rad) alt2 az2 =
         (u.to (scalar_angle obj_alt2 u.rad) (u.unit az2),
          u.to (scalar_angle obj_az2 u.rad) (u.unit az2)) /\
       same_direction obj_az2 obj_alt2 obj_az1 obj_alt1 /\
       (valid_altitude (radians alt2) -> valid_altitude obj_alt2) /\
       altaz_to_offset
         (u.to (scalar_angle obj_az2 u.rad) (u.unit az2))
         (u.to (scalar_angle obj_alt2 u.rad) (u.unit az2)) az1 alt1
       = (Scalar (radians x), Scalar (radians y))).
Proof.
  destruct (offset_to_altaz_direction x y alt1 az1)
    as (obj_alt1 & obj_az1 & HO1 & Hv1 & H10 & H1ne).
  exists obj_alt1, obj_az1. split; [exact HO1|]. split.
  { intros Hvalid.
    destruct (Req_dec (sqrt (radians x * radians x + radians y * radians y)) 0) as [Hz|Hz].
    - destruct (H10 Hz) as [-> _]. assumption.
    - apply H1ne; assumption. }
  intros Hf.
  (* the direction [d1], as two one-number angles in radians *)
  pose (a := u.mkQuantity obj_az1 u.rad). pose (b := u.mkQuantity obj_alt1 u.rad).
  destruct (direction_round_trip a b az2 alt2 Hf)
    as (x2 & y2 & obj_alt2 & obj_az2 & HA2 & HO2 & Hv2 & H20 & H2ne).
  change (radians a) with obj_az1 in *. change (radians b) with obj_alt1 in *.
  exists x2, y2, obj_alt2, obj_az2.
  split.
  { rewrite altaz_to_offset_of_direction.
    rewrite altaz_to_offset_scalar in HA2. exact HA2. }
  split; [exact HO2|].
  assert (Hsame : same_direction obj_az2 obj_alt2 obj_az1 obj_alt1)
    by (eapply same_direction_shift; eassumption).
  split; [exact Hsame|].
  split.
  { intros Hvalid.
    destruct (Req_dec (sqrt (x2 * x2 + y2 * y2)) 0) as [Hz|Hz].
    - destruct (H20 Hz) as [-> _]. assumption.
    - apply H2ne; assumption. }
  rewrite altaz_to_offset_of_direction.
  rewrite (same_direction_unshift (radians az1) _ _ _ _ Hsame).
  rewrite Hv1, rotate_unrotate, tangent_projection_offset_vector.
  reflexivity.
Qed.

Lemma telescope_nominal_telescope (x y : u.Quantity R u.AngleUnit)
    (pt pn : Pointing.t R) hf :
  let tf := TelescopeFrame.make (Some pt) in
  let nf := NominalFrame.make (Some pn) in
  forward_of (telescope_to_horizon (planar_coord tf x y) hf) pn ->
  (n <- telescope_to_nominal (planar_coord tf x y) nf ;; nominal_to_telescope n tf)
  = Ok (planar_coord tf (in_radians x) (in_radians y)).
Proof.
  cbv zeta. intros (h & z & a & Hh & Hz & Ha & Hf).
  rewrite telescope_to_horizon_scalar in Hh.
  destruct (through_other_pointing x y (Pointing.alt pt) (Pointing.az pt)
              (Pointing.alt pn) (Pointing.az pn))
    as (obj_alt1 & obj_az1 & HO1 & _ & Hrest).
  rewrite HO1 in Hh. injection Hh as <-.
  unfold az, alt in Hz, Ha. cbn [data UnitSpherical.lon UnitSpherical.lat] in Hz, Ha.
  pose proof (is_angle_unique _ _ _ Hz (is_angle_to _ _)) as ->.
  pose proof (is_angle_unique _ _ _ Ha (is_angle_to _ _)) as ->.
  destruct (Hrest Hf) as (x2 & y2 & obj_alt2 & obj_az2 & HA2 & HO2 & _ & _ & Hback).
  unfold telescope_to_nominal, nominal_to_telescope, getattr, planar_coord.
  cbn [bind frame data TelescopeFrame.telescope_pointing NominalFrame.reference_point
       Planar.x Planar.y].
  rewrite HO1, HA2.
  cbn [bind frame data TelescopeFrame.telescope_pointing NominalFrame.reference_point
       Planar.x Planar.y realize_frame].
  change (u.times (Scalar x2) u.rad) with (scalar_angle x2 u.rad).
  change (u.times (Scalar y2) u.rad) with (scalar_angle y2 u.rad).
  rewrite HO2, Hback. reflexivity.
Qed.

Lemma nominal_telescope_nominal (x y : u.Quantity R u.AngleUnit)
    (pt pn : Pointing.t R) hf :
  let tf := TelescopeFrame.make (Some pt) in
  let nf := NominalFrame.make (Some pn) in
  forward_of (nominal_to_altaz (planar_coord nf x y) hf) pt ->
  (t <- nominal_to_telescope (planar_coord nf x y) tf ;; telescope_to_nominal t nf)
  = Ok (planar_coord nf (in_radians x) (in_radians y)).
Proof.
  cbv zeta. intros (h & z & a & Hh & Hz & Ha & Hf).
  rewrite nominal_to_altaz_scalar in Hh.
  destruct (through_other_pointing x y (Pointing.alt pn) (Pointing.az pn)
              (Pointing.alt pt) (Pointing.az pt))
    as (obj_alt1 & obj_az1 & HO1 & _ & Hrest).
  rewrite HO1 in Hh. injection Hh as <-.
  unfold az, alt in Hz, Ha. cbn [data UnitSpherical.lon UnitSpherical.lat] in Hz, Ha.
  pose proof (is_angle_unique _ _ _ Hz (is_angle_to _ _)) as ->.
  pose proof (is_angle_unique _ _ _ Ha (is_angle_to _ _)) as ->.
  destruct (Hrest Hf) as (x2 & y2 & obj_alt2 & obj_az2 & HA2 & HO2 & _ & _ & Hback).
  unfold telescope_to_nominal, nominal_to_telescope, getattr, planar_coord.
  cbn [bind frame data TelescopeFrame.telescope_pointing NominalFrame.reference_point
       Planar.x Planar.y].
  rewrite HO1, HA2.
  cbn [bind frame data TelescopeFrame.telescope_pointing NominalFrame.reference_point
       Planar.x Planar.y realize_frame u.lift u.unit].
  change (u.times (Scalar x2) u.rad) with (scalar_angle x2 u.rad).
  change (u.times (Scalar y2) u.rad) with (scalar_angle y2 u.rad).
  rewrite !to_scalar_angle.
  rewrite (offset_to_altaz_radians _ (u.mkQuantity x2 u.rad) _ (u.mkQuantity y2 u.rad))
    by apply radians_to.
  change (u.lift (u.mkQuantity x2 u.rad)) with (scalar_angle x2 u.rad).
  change (u.lift (u.mkQuantity y2 u.rad)) with (scalar_angle y2 u.rad).
  rewrite HO2, Hback. reflexivity.
Qed.

(** ** Camera and Telescope *)

Lemma convert_scale (un : u.AngleUnit) (v k : R) :
  u.convert un u.rad (v * k) = u.convert un u.rad v * k.
Proof. destruct un; simpl; ring. Qed.

Lemma convert_add (un : u.AngleUnit) (a b : R) :
  u.convert un u.rad (a + b) = u.convert un u.rad a + u.convert un u.rad b.
Proof. destruct un; simpl; ring. Qed.

Lemma convert_metres (v : R) : u.convert u.m u.m v = v.
Proof. reflexivity. Qed.

Lemma Reqb_opp_0 r : Reqb (- r) 0 = Reqb r 0.
Proof.
  unfold Reqb. destruct (Req_dec_T (- r) 0), (Req_dec_T r 0); try reflexivity; lra.
Qed.

Lemma camera_coord_ext (cf : CameraFrame.t R) (x x' y y' : R) z :
  x = x' -> y = y' ->
  Ok (realize_frame cf
        (CartesianData
           (Cartesian.make (u.mkQuantity (Scalar x) u.m) (u.mkQuantity (Scalar y) u.m) z)))
  = Ok (mkCoordinate cf
          (CartesianData
             (Cartesian.make (u.mkQuantity (Scalar x') u.m) (u.mkQuantity (Scalar y') u.m) z))).
Proof. intros -> ->. reflexivity. Qed.

Lemma planar_coord_ext {F} (f : F) (x x' y y' : R) :
  x = x' -> y = y' ->
  Ok (realize_frame f
        (Planar.make (u.times (Scalar x) u.rad) (u.times (Scalar y) u.rad)))
  = Ok (planar_coord f (u.mkQuantity x' u.rad) (u.mkQuantity y' u.rad)).
Proof. intros -> ->. reflexivity. Qed.

Ltac camera_unfold :=
  unfold camera_to_telescope, telescope_to_camera, cartesian_x, cartesian_y,
    u.number_is_zero, u.number_neg, u.number_cos, u.number_sin, u.number_to_value,
    u.true_divide, u.to_value_as_is, u.value_times, planar_coord;
  cbn [bind frame data CameraFrame.rotation CameraFrame.focal_length Planar.x Planar.y
       u.value u.unit u.lift];
  change (@eqb R R_numeric) with Reqb; change (@zero R R_numeric) with 0.

(** A position in metres goes to the Telescope frame and comes back
    unchanged, with a third coordinate of 0 m. *)
Lemma camera_telescope_camera (x y f theta : R) (pointing : option (Pointing.t R))
    (tf : TelescopeFrame.t R) :
  let cf := CameraFrame.make (u.mkQuantity f u.m) (u.mkQuantity theta u.rad) pointing in
  let position := Planar.make (u.mkQuantity (Scalar x) u.m) (u.mkQuantity (Scalar y) u.m) in
  f <> 0 ->
  (t <- camera_to_telescope (mkCoordinate cf (PlanarData position)) tf ;;
   telescope_to_camera t cf)
  = Ok (mkCoordinate cf
          (CartesianData
             (Cartesian.make (u.mkQuantity (Scalar x) u.m) (u.mkQuantity (Scalar y) u.m)
                (u.mkQuantity (Scalar 0) u.m)))).
Proof.
  cbv zeta. intros Hf. camera_unfold.
  change (@neg R R_numeric theta) with (- theta).
  rewrite Reqb_opp_0.
  destruct (Reqb theta 0); np_unfold;
    cbn [bind realize_frame data Planar.x Planar.y u.convert u.angle_units u.length_units];
    apply camera_coord_ext;
    change (@ncos R R_numeric) with cos; change (@nsin R R_numeric) with sin;
    change (@mul R R_numeric) with Rmult; change (@div R R_numeric) with Rdiv;
    change (@sub R R_numeric) with Rminus; change (@add R R_numeric) with Rplus;
    rewrite ?cos_neg, ?sin_neg; try (field; assumption).
  - transitivity (x * (sin theta * sin theta + cos theta * cos theta));
      [field; assumption | rewrite sin_cos_sq; ring].
  - transitivity (y * (sin theta * sin theta + cos theta * cos theta));
      [field; assumption | rewrite sin_cos_sq; ring].
Qed.

(** An offset goes to the Camera frame and comes back as the same angle,
    told in radians. *)
Lemma telescope_camera_telescope (x y : u.Quantity R u.AngleUnit) (f theta : R)
    (pointing : option (Pointing.t R)) (tf : TelescopeFrame.t R) :
  let cf := CameraFrame.make (u.mkQuantity f u.m) (u.mkQuantity theta u.rad) pointing in
  f <> 0 ->
  (c <- telescope_to_camera (planar_coord tf x y) cf ;; camera_to_telescope c tf)
  = Ok (planar_coord tf (in_radians x) (in_radians y)).
Proof.
  cbv zeta. intros Hf. destruct x as [vx ux], y as [vy uy].
  unfold in_radians, radians, u.number_to_value. cbn [u.value u.unit].
  camera_unfold.
  change (@neg R R_numeric theta) with (- theta).
  rewrite Reqb_opp_0.
  destruct (Reqb theta 0) eqn:E; np_unfold;
    cbn [bind realize_frame frame data Planar.x Planar.y CameraFrame.rotation
         CameraFrame.focal_length Cartesian.x Cartesian.y u.value u.unit];
    change (@eqb R R_numeric) with Reqb; change (@zero R R_numeric) with 0;
    rewrite E;
    apply planar_coord_ext;
    change (@ncos R R_numeric) with cos; change (@nsin R R_numeric) with sin;
    change (@mul R R_numeric) with Rmult; change (@div R R_numeric) with Rdiv;
    change (@sub R R_numeric) with Rminus; change (@add R R_numeric) with Rplus;
    change (u.convert u.rad u.rad theta) with theta;
    change (u.convert u.rad u.rad (- theta)) with (- theta);
    repeat (rewrite convert_sub || rewrite convert_add || rewrite convert_scale
            || rewrite convert_via || rewrite convert_metres
            || rewrite cos_neg || rewrite sin_neg);
    set (rx := u.convert ux u.rad vx); set (ry := u.convert uy u.rad vy).
  - change (rx * f / f = rx). field. assumption.
  - change (ry * f / f = ry). field. assumption.
  - match goal with |- ?l = _ => change (l = rx) end.
    transitivity (rx * (sin theta * sin theta + cos theta * cos theta));
      [field; assumption | rewrite sin_cos_sq; ring].
  - match goal with |- ?l = _ => change (l = ry) end.
    transitivity (ry * (sin theta * sin theta + cos theta * cos theta));
      [field; assumption | rewrite sin_cos_sq; ring].
Qed.

(** ** Arrays, element by element *)

Section Pick.

Context {A B C : Type}.

Lemma pick_scalar (a : A) i : np.pick (Scalar a) i = Some (Scalar a).
Proof. reflexivity. Qed.

Lemma pick_map1 (f : A -> B) v i a :
  np.pick v i = Some (Scalar a) ->
  np.pick (np.map1 f v) i = Some (Scalar (f a)).
Proof.
  destruct v as [s|l]; simpl.
  - intros [= ->]. reflexivity.
  - rewrite nth_error_map. destruct (nth_error l i); simpl; intros [= ->]. reflexivity.
Qed.

Lemma nth_error_zip_with (f : A -> B -> C) l m i a b :
  nth_error l i = Some a -> nth_error m i = Some b ->
  nth_error (np.zip_with f l m) i = Some (f a b).
Proof.
  revert m i. induction l as [|a' l IH]; intros [|b' m] [|i]; simpl; try discriminate.
  - intros [= ->] [= ->]. reflexivity.
  - apply IH.
Qed.

Lemma pick_map2 (f : A -> B -> C) v w i a b :
  np.pick v i = Some (Scalar a) -> np.pick w i = Some (Scalar b) ->
  np.pick (np.map2 f v w) i = Some (Scalar (f a b)).
Proof.
  destruct v as [s|l], w as [t|m]; simpl.
  - intros [= ->] [= ->]. reflexivity.
  - intros [= ->]. rewrite nth_error_map.
    destruct (nth_error m i); simpl; intros [= ->]. reflexivity.
  - rewrite nth_error_map. destruct (nth_error l i); simpl; intros [= ->] [= ->]. reflexivity.
  - destruct (nth_error l i) eqn:El; simpl; [|discriminate].
    destruct (nth_error m i) eqn:Em; simpl; [|discriminate].
    intros [= ->] [= ->]. rewrite (nth_error_zip_with f _ _ _ _ _ El Em). reflexivity.
Qed.

End Pick.

Section Patch.

Context {A : Type}.

Lemma nth_error_set_nth (l : list A) i j v :
  nth_error (np.set_nth l j v) i =
  if Nat.eqb i j then option_map (fun _ => v) (nth_error l i) else nth_error l i.
Proof.
  revert i j. induction l as [|a l IH]; intros [|i] [|j]; simpl; try reflexivity.
  - destruct (Nat.eqb i j); reflexivity.
  - apply IH.
Qed.

(** Writing [v] at each position of [pos]: position [i] holds [v] when it
    is listed, and what it held otherwise. *)
Lemma nth_error_set_items (pos : list nat) (l : list A) i v :
  nth_error (fold_left (fun acc j => np.set_nth acc j v) pos l) i =
  if existsb (Nat.eqb i) pos then option_map (fun _ => v) (nth_error l i)
  else nth_error l i.
Proof.
  revert l. induction pos as [|j pos IH]; intros l; simpl; [reflexivity|].
  rewrite IH, nth_error_set_nth.
  destruct (Nat.eqb i j); simpl.
  - destruct (existsb _ pos); destruct (nth_error l i); reflexivity.
  - reflexivity.
Qed.

Lemma existsb_where_from (mask : list bool) i k :
  existsb (Nat.eqb i) (np.where_from k mask) =
  match Nat.leb k i with
  | true => match nth_error mask (i - k) with Some b => b | None => false end
  | false => false
  end.
Proof.
  revert i k. induction mask as [|b mask IH]; intros i k; simpl.
  - destruct (Nat.leb k i); [|reflexivity]. destruct (i - k)%nat; reflexivity.
  - assert (Hrec : existsb (Nat.eqb i) (np.where_from (S k) mask) =
                   match Nat.leb (S k) i with
                   | true => match nth_error mask (i - S k) with Some b => b | None => false end
                   | false => false
                   end) by apply IH.
    destruct (Nat.leb k i) eqn:Hk.
    + apply Nat.leb_le in Hk.
      destruct (Nat.eq_dec i k) as [->|Hne].
      * rewrite Nat.sub_diag. simpl.
        assert (Nat.leb (S k) k = false) as Hf by (apply Nat.leb_gt; lia).
        rewrite Hf in Hrec.
        destruct b; simpl; rewrite ?Nat.eqb_refl, ?Hrec; reflexivity.
      * assert (Nat.leb (S k) i = true) as Ht by (apply Nat.leb_le; lia).
        rewrite Ht in Hrec.
        replace (i - k)%nat with (S (i - S k)) by lia. simpl.
        assert (Nat.eqb i k = false) as Hf by (apply Nat.eqb_neq; assumption).
        destruct b; simpl; rewrite ?Hf, Hrec; reflexivity.
    + apply Nat.leb_gt in Hk.
      assert (Nat.leb (S k) i = false) as Hf by (apply Nat.leb_gt; lia).
      rewrite Hf in Hrec.
      assert (Nat.eqb i k = false) as Hf' by (apply Nat.eqb_neq; lia).
      destruct b; simpl; rewrite ?Hf', Hrec; reflexivity.
Qed.

Lemma existsb_where (mask : list bool) i :
  existsb (Nat.eqb i) (np.where_from 0 mask) =
  match nth_error mask i with Some b => b | None => false end.
Proof. rewrite existsb_where_from. simpl. rewrite Nat.sub_0_r. reflexivity. Qed.

Lemma where_nil (mask : list bool) i b :
  np.where_from 0 mask = [] -> nth_error mask i = Some b -> b = false.
Proof.
  intros Hnil Hi. pose proof (existsb_where mask i) as H.
  rewrite Hnil, Hi in H. simpl in H. auto.
Qed.

End Patch.

Section ArrayCalls.

Context {T : Type} {NT : Numeric T}.

Lemma isscalar_map1 {A B} (f : A -> B) v : np.isscalar (np.map1 f v) = np.isscalar v.
Proof. destruct v; reflexivity. Qed.

Lemma isscalar_map2 {A B C} (f : A -> B -> C) v w :
  np.isscalar (np.map2 f v w) = np.isscalar v && np.isscalar w.
Proof. destruct v, w; reflexivity. Qed.

(** The overwrite of the code: where [v] is zero, [r] receives [t]; the
    shape is tested on [r0].  Element by element, it is a choice on the
    element of [v]. *)
Lemma pick_overwrite (v r0 r : NDArray T) i a b t :
  np.pick v i = Some (Scalar a) -> np.pick r i = Some (Scalar b) ->
  np.isscalar r0 = np.isscalar v -> np.isscalar r = np.isscalar v ->
  let pos := np.where_ (np.eq_ v (Scalar zero)) in
  np.pick
    (if (0 <? length pos)%nat then
       if np.isscalar r0 then Scalar t else np.setitem r pos t
     else r) i
  = Some (Scalar (if eqb a zero then t else b)).
Proof.
  intros Hv Hr H0 H1. cbv zeta.
  destruct v as [s|l]; simpl in H0, H1, Hv.
  - injection Hv as ->.
    destruct r as [s'|l']; [|discriminate]. simpl in Hr. injection Hr as ->.
    rewrite H0. simpl. destruct (eqb a zero); reflexivity.
  - destruct r as [s'|l']; [discriminate|]. rewrite H0.
    simpl in Hr |- *.
    destruct (nth_error l i) as [a'|] eqn:El; [|discriminate]. simpl in Hv. injection Hv as ->.
    destruct (nth_error l' i) as [b'|] eqn:El'; [|discriminate]. simpl in Hr. injection Hr as ->.
    assert (Hmask : nth_error (map (fun x => eqb x zero) l) i = Some (eqb a zero))
      by (rewrite nth_error_map, El; reflexivity).
    destruct (np.where_from 0 (map (fun x => eqb x zero) l)) as [|j pos] eqn:Epos.
    + simpl. rewrite El'. simpl.
      rewrite (where_nil _ _ _ Epos Hmask). reflexivity.
    + assert (Hpos : (0 <? length (np.where_from 0 (map (fun x => eqb x zero) l)))%nat = true)
        by (rewrite Epos; reflexivity).
      rewrite <- Epos, Hpos. unfold np.pick.
      rewrite nth_error_set_items, existsb_where, Hmask, El'.
      destruct (eqb a zero); reflexivity.
Qed.

Lemma pick_patch (v : NDArray T) i a t :
  np.pick v i = Some (Scalar a) ->
  let pos := np.where_ (np.eq_ v (Scalar zero)) in
  np.pick
    (if (0 <? length pos)%nat then
       if np.isscalar v then Scalar t else np.setitem v pos t
     else v) i
  = Some (Scalar (if eqb a zero then t else a)).
Proof. intros H. apply pick_overwrite; auto. Qed.

Lemma isscalar_patch (v : NDArray T) t :
  let pos := np.where_ (np.eq_ v (Scalar zero)) in
  np.isscalar
    (if (0 <? length pos)%nat then
       if np.isscalar v then Scalar t else np.setitem v pos t
     else v)
  = np.isscalar v.
Proof.
  cbv zeta. destruct v as [s|l]; simpl.
  - destruct (eqb s zero); reflexivity.
  - destruct (np.where_from 0 _); reflexivity.
Qed.

End ArrayCalls.

Ltac np_ops :=
  unfold np.mul_, np.add_, np.sub_, np.div_, np.neg_, np.eq_, np.sqrt, np.cos, np.sin,
    np.tan, np.arccos, np.arcsin, np.arctan, np.arctan2 in *.

Ltac pick_solve :=
  repeat first [ eassumption | apply pick_scalar | eapply pick_map1 | eapply pick_map2 ].

Section KernelsOnArrays.

Context {T : Type} {NT : Numeric T}.

Lemma pick_quantity_inv {U} (q a : u.Quantity (NDArray T) U) i :
  pick_quantity q i = Some a ->
  exists v, np.pick (u.value q) i = Some (Scalar v) /\ a = u.mkQuantity (Scalar v) (u.unit q).
Proof.
  unfold pick_quantity. destruct q as [[s|l] un]; simpl.
  - intros [= <-]. eauto.
  - destruct (nth_error l i) as [v|]; simpl; [|discriminate]. intros [= <-]. eauto.
Qed.

Lemma pick_quantity_intro {U} (q : u.Quantity (NDArray T) U) i v :
  np.pick (u.value q) i = Some (Scalar v) ->
  pick_quantity q i = Some (u.mkQuantity (Scalar v) (u.unit q)).
Proof. unfold pick_quantity. intros ->. reflexivity. Qed.

Lemma altaz_to_offset_pick (obj_azimuth obj_altitude a b : u.Quantity (NDArray T) u.AngleUnit)
    (azimuth altitude : u.Quantity T u.AngleUnit) (i : nat) :
  pick_quantity obj_azimuth i = Some a ->
  pick_quantity obj_altitude i = Some b ->
  np.pick (fst (altaz_to_offset obj_azimuth obj_altitude azimuth altitude)) i
    = Some (fst (altaz_to_offset a b azimuth altitude)) /\
  np.pick (snd (altaz_to_offset obj_azimuth obj_altitude azimuth altitude)) i
    = Some (snd (altaz_to_offset a b azimuth altitude)).
Proof.
  intros Ha Hb.
  apply pick_quantity_inv in Ha, Hb.
  destruct Ha as (va & Ha & ->), Hb as (vb & Hb & ->).
  unfold altaz_to_offset, u.sub_, u.cos, u.sin, u.to_value, u.lift.
  cbn [fst snd u.value u.unit]. np_ops.
  cbn [np.map1 np.map2].
  split; pick_solve.
Qed.

(** The two results of [offset_to_altaz], each on its own. *)
Lemma offset_to_altaz_components (x_off y_off : u.Quantity (NDArray T) u.AngleUnit)
    (altitude azimuth : u.Quantity T u.AngleUnit) :
  offset_to_altaz x_off y_off altitude azimuth =
  let unit := u.unit azimuth in
  let x_off := u.to_value x_off u.rad in
  let y_off := u.to_value y_off u.rad in
  let azimuth := u.number_to_value azimuth u.rad in
  let altitude := u.number_to_value altitude u.rad in
  let offset0 := np.sqrt (x_off * x_off + y_off * y_off)%np in
  let pos := np.where_ (offset0 == Scalar zero)%np in
  let offset :=
    if (0 <? length pos)%nat then
      if np.isscalar offset0 then Scalar tiny else np.setitem offset0 pos tiny
    else offset0 in
  let xp1 := (x_off * (np.sin (np.arctan offset) / offset))%np in
  let yp1 := (y_off * (np.sin (np.arctan offset) / offset))%np in
  let zp1 := np.cos (np.arctan offset) in
  let xp0 := (Scalar (nsin altitude) * xp1 - Scalar (ncos altitude) * zp1)%np in
  let zp0 := (Scalar (ncos altitude) * xp1 + Scalar (nsin altitude) * zp1)%np in
  let obj_altitude := np.arcsin zp0 in
  let obj_azimuth := (np.arctan2 yp1 (- xp0) + Scalar azimuth)%np in
  let overwrite r t :=
    if (0 <? length pos)%nat then
      if np.isscalar obj_altitude then Scalar t else np.setitem r pos t
    else r in
  (u.to (u.times (overwrite obj_altitude altitude) u.rad) unit,
   u.to (u.times (overwrite obj_azimuth azimuth) u.rad) unit).
Proof.
  unfold offset_to_altaz. cbv zeta.
  destruct (0 <? length _)%nat; [|reflexivity].
  destruct (np.isscalar (np.arcsin _)); reflexivity.
Qed.

(** The call on one element, written out. *)
Lemma offset_to_altaz_one (x y : T) (ux uy : u.AngleUnit)
    (altitude azimuth : u.Quantity T u.AngleUnit) :
  offset_to_altaz (u.mkQuantity (Scalar x) ux) (u.mkQuantity (Scalar y) uy) altitude azimuth =
  let unit := u.unit azimuth in
  let x_off := u.convert ux u.rad x in
  let y_off := u.convert uy u.rad y in
  let azimuth := u.number_to_value azimuth u.rad in
  let altitude := u.number_to_value altitude u.rad in
  let offset0 := nsqrt (x_off * x_off + y_off * y_off)%num in
  let offset := if eqb offset0 zero then tiny else offset0 in
  let xp1 := (x_off * (nsin (narctan offset) / offset))%num in
  let yp1 := (y_off * (nsin (narctan offset) / offset))%num in
  let zp1 := ncos (narctan offset) in
  let xp0 := (nsin altitude * xp1 - ncos altitude * zp1)%num in
  let zp0 := (ncos altitude * xp1 + nsin altitude * zp1)%num in
  let obj_altitude := narcsin zp0 in
  let obj_azimuth := (narctan2 yp1 (- xp0) + azimuth)%num in
  (u.mkQuantity
     (Scalar (u.convert u.rad unit (if eqb offset0 zero then altitude else obj_altitude))) unit,
   u.mkQuantity
     (Scalar (u.convert u.rad unit (if eqb offset0 zero then azimuth else obj_azimuth))) unit).
Proof.
  unfold offset_to_altaz, u.to, u.to_value, u.times. cbv zeta.
  cbn [u.value u.unit]. np_ops. cbn [np.map1 np.map2 np.where_].
  destruct (eqb _ zero); reflexivity.
Qed.

Lemma offset_to_altaz_pick (x_off y_off a b : u.Quantity (NDArray T) u.AngleUnit)
    (altitude azimuth : u.Quantity T u.AngleUnit) (i : nat) :
  pick_quantity x_off i = Some a ->
  pick_quantity y_off i = Some b ->
  pick_quantity (fst (offset_to_altaz x_off y_off altitude azimuth)) i
    = Some (fst (offset_to_altaz a b altitude azimuth)) /\
  pick_quantity (snd (offset_to_altaz x_off y_off altitude azimuth)) i
    = Some (snd (offset_to_altaz a b altitude azimuth)).
Proof.
  intros Ha Hb.
  apply pick_quantity_inv in Ha, Hb.
  destruct Ha as (va & Ha & ->), Hb as (vb & Hb & ->).
  destruct x_off as [X ux], y_off as [Y uy]. cbn [u.value u.unit] in *.
  rewrite offset_to_altaz_one, offset_to_altaz_components.
  unfold u.to, u.to_value, u.times. cbv zeta. cbn [u.value u.unit fst snd].
  (* the offset, in the array call and in the call on element [i] *)
  set (xr := u.convert ux u.rad va). set (yr := u.convert uy u.rad vb).
  set (Xr := np.map1 (u.convert ux u.rad) X).
  set (Yr := np.map1 (u.convert uy u.rad) Y).
  assert (HX : np.pick Xr i = Some (Scalar xr)) by (apply pick_map1; assumption).
  assert (HY : np.pick Yr i = Some (Scalar yr)) by (apply pick_map1; assumption).
  set (offset := np.sqrt (np.add_ (np.mul_ Xr Xr) (np.mul_ Yr Yr))).
  set (o := nsqrt (add (mul xr xr) (mul yr yr))).
  assert (Ho : np.pick offset i = Some (Scalar o))
    by (subst offset o; np_ops; pick_solve).
  assert (Hshape : np.isscalar offset = np.isscalar Xr && np.isscalar Yr).
  { subst offset. np_ops. rewrite isscalar_map1, !isscalar_map2.
    destruct (np.isscalar Xr), (np.isscalar Yr); reflexivity. }
  set (pos := np.where_ (np.eq_ offset (Scalar zero))).
  set (patched :=
         if (0 <? length pos)%nat then
           if np.isscalar offset then Scalar tiny else np.setitem offset pos tiny
         else offset).
  assert (Hp : np.pick patched i = Some (Scalar (if eqb o zero then tiny else o)))
    by (apply pick_patch; assumption).
  assert (Hpshape : np.isscalar patched = np.isscalar offset) by apply isscalar_patch.
  split; apply pick_quantity_intro; cbn [u.value]; apply pick_map1;
    (apply pick_overwrite;
     [ assumption
     | np_ops; pick_solve
     | np_ops; repeat (rewrite isscalar_map1 || rewrite isscalar_map2);
       rewrite ?Hpshape, ?Hshape;
       cbn [np.isscalar]; destruct (np.isscalar Xr), (np.isscalar Yr); reflexivity
     | np_ops; repeat (rewrite isscalar_map1 || rewrite isscalar_map2);
       rewrite ?Hpshape, ?Hshape;
       cbn [np.isscalar]; destruct (np.isscalar Xr), (np.isscalar Yr); reflexivity ]).
Qed.

End KernelsOnArrays.

Section TransformsOnArrays.

Context {T : Type} {NT : Numeric T}.

Lemma pick_planar_inv {U} (p q : Planar.t T U) i :
  pick_planar p i = Some q ->
  pick_quantity (Planar.x p) i = Some (Planar.x q) /\
  pick_quantity (Planar.y p) i = Some (Planar.y q).
Proof.
  unfold pick_planar.
  destruct (pick_quantity (Planar.x p) i), (pick_quantity (Planar.y p) i); try discriminate.
  intros [= <-]. auto.
Qed.

Lemma pick_spherical_inv (p q : UnitSpherical.t T) i :
  pick_spherical p i = Some q ->
  pick_quantity (UnitSpherical.lon p) i = Some (UnitSpherical.lon q) /\
  pick_quantity (UnitSpherical.lat p) i = Some (UnitSpherical.lat q).
Proof.
  unfold pick_spherical.
  destruct (pick_quantity (UnitSpherical.lon p) i), (pick_quantity (UnitSpherical.lat p) i);
    try discriminate.
  intros [= <-]. auto.
Qed.

Lemma pick_coordinate_inv {F D} (pick_data : D -> nat -> option D) (c c' : Coordinate F D) i :
  pick_coordinate pick_data c i = Some c' ->
  frame c' = frame c /\ pick_data (data c) i = Some (data c').
Proof.
  unfold pick_coordinate. destruct (pick_data (data c) i); simpl; [|discriminate].
  intros [= <-]. auto.
Qed.

Lemma pick_times_rad (v w : NDArray T) i :
  np.pick v i = Some w ->
  pick_quantity (u.times v u.rad) i = Some (u.times w u.rad).
Proof. unfold pick_quantity. simpl. intros ->. reflexivity. Qed.

Lemma horizon_to_telescope_pick (c c' : Coordinate HorizonFrame.t (UnitSpherical.t T)) f i :
  pick_coordinate pick_spherical c i = Some c' ->
  agree_at i (Some (fmap ATelescope (horizon_to_telescope c f)))
             (Some (fmap ATelescope (horizon_to_telescope c' f))).
Proof.
  intros H. apply pick_coordinate_inv in H. destruct H as [_ H].
  apply pick_spherical_inv in H. destruct H as [Hlon Hlat].
  unfold horizon_to_telescope, az, alt.
  destruct (TelescopeFrame.telescope_pointing f) as [p|]; [|reflexivity].
  cbn [getattr bind].
  destruct (altaz_to_offset_pick _ _ _ _ (Pointing.az p) (Pointing.alt p) i Hlon Hlat) as [Hx Hy].
  destruct (altaz_to_offset (UnitSpherical.lon (data c)) _ _ _) as [X Y].
  destruct (altaz_to_offset (UnitSpherical.lon (data c')) _ _ _) as [x y].
  cbn [fst snd] in Hx, Hy.
  unfold agree_at, fmap, pick_coord, pick_coordinate, pick_planar. cbn [bind realize_frame frame data Planar.x Planar.y].
  rewrite (pick_times_rad _ _ _ Hx), (pick_times_rad _ _ _ Hy). reflexivity.
Qed.

Lemma altaz_to_nominal_pick (c c' : Coordinate HorizonFrame.t (UnitSpherical.t T)) f i :
  pick_coordinate pick_spherical c i = Some c' ->
  agree_at i (Some (fmap ANominal (altaz_to_nominal c f)))
             (Some (fmap ANominal (altaz_to_nominal c' f))).
Proof.
  intros H. apply pick_coordinate_inv in H. destruct H as [_ H].
  apply pick_spherical_inv in H. destruct H as [Hlon Hlat].
  unfold altaz_to_nominal, az, alt.
  destruct (NominalFrame.reference_point f) as [p|]; [|reflexivity].
  cbn [getattr bind].
  destruct (altaz_to_offset_pick _ _ _ _ (Pointing.az p) (Pointing.alt p) i Hlon Hlat) as [Hx Hy].
  destruct (altaz_to_offset (UnitSpherical.lon (data c)) _ _ _) as [X Y].
  destruct (altaz_to_offset (UnitSpherical.lon (data c')) _ _ _) as [x y].
  cbn [fst snd] in Hx, Hy.
  unfold agree_at, fmap, pick_coord, pick_coordinate, pick_planar.
  cbn [bind realize_frame frame data Planar.x Planar.y].
  rewrite (pick_times_rad _ _ _ Hx), (pick_times_rad _ _ _ Hy). reflexivity.
Qed.

Lemma telescope_to_horizon_pick
    (c c' : Coordinate (TelescopeFrame.t T) (Planar.t T u.AngleUnit)) f i :
  pick_coordinate pick_planar c i = Some c' ->
  agree_at i (Some (fmap AHorizon (telescope_to_horizon c f)))
             (Some (fmap AHorizon (telescope_to_horizon c' f))).
Proof.
  intros H. apply pick_coordinate_inv in H. destruct H as [Hf H].
  apply pick_planar_inv in H. destruct H as [Hx Hy].
  unfold telescope_to_horizon. rewrite Hf.
  destruct (TelescopeFrame.telescope_pointing (frame c)) as [p|]; [|reflexivity].
  cbn [getattr bind].
  destruct (offset_to_altaz_pick _ _ _ _ (Pointing.alt p) (Pointing.az p) i Hx Hy) as [Ha Hz].
  destruct (offset_to_altaz (Planar.x (data c)) _ _ _) as [A Z].
  destruct (offset_to_altaz (Planar.x (data c')) _ _ _) as [a z].
  cbn [fst snd] in Ha, Hz.
  unfold agree_at, fmap, pick_coord, pick_coordinate, pick_spherical.
  cbn [bind realize_frame frame data UnitSpherical.lon UnitSpherical.lat].
  rewrite Ha, Hz. reflexivity.
Qed.

Lemma nominal_to_altaz_pick
    (c c' : Coordinate (NominalFrame.t T) (Planar.t T u.AngleUnit)) f i :
  pick_coordinate pick_planar c i = Some c' ->
  agree_at i (Some (fmap AHorizon (nominal_to_altaz c f)))
             (Some (fmap AHorizon (nominal_to_altaz c' f))).
Proof.
  intros H. apply pick_coordinate_inv in H. destruct H as [Hf H].
  apply pick_planar_inv in H. destruct H as [Hx Hy].
  unfold nominal_to_altaz. rewrite Hf.
  destruct (NominalFrame.reference_point (frame c)) as [p|]; [|reflexivity].
  cbn [getattr bind].
  destruct (offset_to_altaz_pick _ _ _ _ (Pointing.alt p) (Pointing.az p) i Hx Hy) as [Ha Hz].
  destruct (offset_to_altaz (Planar.x (data c)) _ _ _) as [A Z].
  destruct (offset_to_altaz (Planar.x (data c')) _ _ _) as [a z].
  cbn [fst snd] in Ha, Hz.
  unfold agree_at, fmap, pick_coord, pick_coordinate, pick_spherical.
  cbn [bind realize_frame frame data UnitSpherical.lon UnitSpherical.lat].
  rewrite Ha, Hz. reflexivity.
Qed.

Lemma telescope_to_nominal_pick
    (c c' : Coordinate (TelescopeFrame.t T) (Planar.t T u.AngleUnit)) f i :
  pick_coordinate pick_planar c i = Some c' ->
  agree_at i (Some (fmap ANominal (telescope_to_nominal c f)))
             (Some (fmap ANominal (telescope_to_nominal c' f))).
Proof.
  intros H. apply pick_coordinate_inv in H. destruct H as [Hf H].
  apply pick_planar_inv in H. destruct H as [Hx Hy].
  unfold telescope_to_nominal. rewrite Hf.
  destruct (TelescopeFrame.telescope_pointing (frame c)) as [p|]; [|reflexivity].
  destruct (NominalFrame.reference_point f) as [q|]; [|reflexivity].
  cbn [getattr bind].
  destruct (offset_to_altaz_pick _ _ _ _ (Pointing.alt p) (Pointing.az p) i Hx Hy) as [Ha Hz].
  destruct (offset_to_altaz (Planar.x (data c)) _ _ _) as [A Z].
  destruct (offset_to_altaz (Planar.x (data c')) _ _ _) as [a z].
  cbn [fst snd] in Ha, Hz.
  destruct (altaz_to_offset_pick _ _ _ _ (Pointing.az q) (Pointing.alt q) i Hz Ha) as [Hx2 Hy2].
  destruct (altaz_to_offset Z A _ _) as [X2 Y2].
  destruct (altaz_to_offset z a _ _) as [x2 y2].
  cbn [fst snd] in Hx2, Hy2.
  unfold agree_at, fmap, pick_coord, pick_coordinate, pick_planar.
  cbn [bind realize_frame frame data Planar.x Planar.y].
  rewrite (pick_times_rad _ _ _ Hx2), (pick_times_rad _ _ _ Hy2). reflexivity.
Qed.

Lemma pick_to {U} `{u.Units T U} (q q' : u.Quantity (NDArray T) U) (target : U) i :
  pick_quantity q i = Some q' ->
  pick_quantity (u.to q target) i = Some (u.to q' target).
Proof.
  intros Hq. apply pick_quantity_inv in Hq. destruct Hq as (v & Hv & ->).
  unfold u.to, u.to_value, pick_quantity. cbn [u.value u.unit].
  rewrite (pick_map1 _ _ _ _ Hv). reflexivity.
Qed.

Lemma pick_quantity_unit {U} (q q' : u.Quantity (NDArray T) U) i :
  pick_quantity q i = Some q' -> u.unit q' = u.unit q.
Proof.
  intros Hq. apply pick_quantity_inv in Hq. destruct Hq as (v & Hv & ->). reflexivity.
Qed.

Lemma nominal_to_telescope_pick
    (c c' : Coordinate (NominalFrame.t T) (Planar.t T u.AngleUnit)) f i :
  pick_coordinate pick_planar c i = Some c' ->
  agree_at i (Some (fmap ATelescope (nominal_to_telescope c f)))
             (Some (fmap ATelescope (nominal_to_telescope c' f))).
Proof.
  intros H. apply pick_coordinate_inv in H. destruct H as [Hf H].
  apply pick_planar_inv in H. destruct H as [Hx Hy].
  unfold nominal_to_telescope. rewrite Hf.
  destruct (TelescopeFrame.telescope_pointing f) as [p|]; [|reflexivity].
  destruct (NominalFrame.reference_point (frame c)) as [q|]; [|reflexivity].
  cbn [getattr bind].
  destruct (offset_to_altaz_pick _ _ _ _ (Pointing.alt q) (Pointing.az q) i Hx Hy) as [Ha Hz].
  destruct (offset_to_altaz (Planar.x (data c)) _ _ _) as [A Z].
  destruct (offset_to_altaz (Planar.x (data c')) _ _ _) as [a z].
  cbn [fst snd] in Ha, Hz.
  destruct (altaz_to_offset_pick _ _ _ _ (Pointing.az p) (Pointing.alt p) i Hz Ha) as [Hx2 Hy2].
  destruct (altaz_to_offset Z A _ _) as [X2 Y2].
  destruct (altaz_to_offset z a _ _) as [x2 y2].
  cbn [fst snd] in Hx2, Hy2.
  unfold agree_at, fmap, pick_coord, pick_coordinate, pick_planar.
  cbn [bind realize_frame frame data Planar.x Planar.y].
  rewrite (pick_quantity_unit _ _ _ Hx).
  rewrite (pick_to _ _ _ _ (pick_times_rad _ _ _ Hx2)),
          (pick_to _ _ _ _ (pick_times_rad _ _ _ Hy2)).
  reflexivity.
Qed.

Lemma pick_quantity_as {U} (q q' : u.Quantity (NDArray T) U) i w :
  q' = u.mkQuantity w (u.unit q) ->
  np.pick (u.value q) i = Some w ->
  pick_quantity q i = Some q'.
Proof. unfold pick_quantity. intros -> ->. reflexivity. Qed.

Ltac pick_quantity_solve :=
  eapply pick_quantity_as; [reflexivity|];
  cbn [u.value u.unit u.scale u.sub_ u.add_ u.value_times u.to_value]; np_ops;
  cbn [np.map1 np.map2]; pick_solve.

Lemma pick_scale {U} (q q' : u.Quantity (NDArray T) U) (k : T) i :
  pick_quantity q i = Some q' ->
  pick_quantity (u.scale q (Scalar k)) i = Some (u.scale q' (Scalar k)).
Proof.
  intros Hq. apply pick_quantity_inv in Hq. destruct Hq as (v & Hv & ->).
  pick_quantity_solve.
Qed.

Lemma pick_to_value {U} `{u.Units T U} (q q' : u.Quantity (NDArray T) U) (target : U) i :
  pick_quantity q i = Some q' ->
  np.pick (u.to_value q target) i = Some (u.to_value q' target).
Proof.
  intros Hq. apply pick_quantity_inv in Hq. destruct Hq as (v & Hv & ->).
  unfold u.to_value. cbn [u.value u.unit]. pick_solve.
Qed.

Lemma pick_sub {U} `{u.Units T U} (a a' b b' : u.Quantity (NDArray T) U) i :
  pick_quantity a i = Some a' -> pick_quantity b i = Some b' ->
  pick_quantity (u.sub_ a b) i = Some (u.sub_ a' b').
Proof.
  intros Ha Hb.
  apply pick_quantity_inv in Ha, Hb.
  destruct Ha as (v & Hv & ->), Hb as (w & Hw & ->).
  unfold u.sub_, u.to_value. pick_quantity_solve.
Qed.

Lemma pick_add {U} `{u.Units T U} (a a' b b' : u.Quantity (NDArray T) U) i :
  pick_quantity a i = Some a' -> pick_quantity b i = Some b' ->
  pick_quantity (u.add_ a b) i = Some (u.add_ a' b').
Proof.
  intros Ha Hb.
  apply pick_quantity_inv in Ha, Hb.
  destruct Ha as (v & Hv & ->), Hb as (w & Hw & ->).
  unfold u.add_, u.to_value. pick_quantity_solve.
Qed.

Lemma pick_divide {U V} (a a' : u.Quantity (NDArray T) U) (f : u.Quantity T V) i :
  pick_quantity a i = Some a' ->
  pick_quantity (u.times (u.to_value_as_is (u.true_divide a f)) u.rad) i
  = Some (u.times (u.to_value_as_is (u.true_divide a' f)) u.rad).
Proof.
  intros Ha. apply pick_quantity_inv in Ha. destruct Ha as (v & Hv & ->).
  apply pick_times_rad. unfold u.to_value_as_is, u.true_divide. cbn [u.value].
  np_ops. pick_solve.
Qed.

Lemma pick_value_times {U} (v v' : NDArray T) (q : u.Quantity T U) a i :
  np.pick v i = Some v' -> v' = Scalar a ->
  pick_quantity (u.value_times v q) i = Some (u.value_times v' q).
Proof.
  intros Hv ->. unfold u.value_times. pick_quantity_solve.
Qed.

Lemma pick_cartesian_xy (c c' : Coordinate (CameraFrame.t T) (CameraData T)) i :
  pick_coordinate pick_camera_data c i = Some c' ->
  frame c' = frame c /\
  pick_quantity (cartesian_x c) i = Some (cartesian_x c') /\
  pick_quantity (cartesian_y c) i = Some (cartesian_y c').
Proof.
  intros H. apply pick_coordinate_inv in H. destruct H as [Hf H].
  split; [assumption|]. unfold cartesian_x, cartesian_y.
  destruct (data c) as [p|k]; simpl in H.
  - destruct (pick_planar p i) as [p'|] eqn:E; [|discriminate]. simpl in H.
    injection H as <-. apply pick_planar_inv in E. exact E.
  - unfold pick_cartesian in H.
    destruct (pick_quantity (Cartesian.x k) i) as [x|],
             (pick_quantity (Cartesian.y k) i) as [y|],
             (pick_quantity (Cartesian.z k) i) as [z|]; try discriminate.
    simpl in H. injection H as <-. auto.
Qed.

Lemma camera_to_telescope_pick (c c' : Coordinate (CameraFrame.t T) (CameraData T)) f i :
  pick_coordinate pick_camera_data c i = Some c' ->
  agree_at i (Some (fmap ATelescope (camera_to_telescope c f)))
             (Some (fmap ATelescope (camera_to_telescope c' f))).
Proof.
  intros H. apply pick_cartesian_xy in H. destruct H as (Hf & Hx & Hy).
  unfold camera_to_telescope. rewrite Hf.
  unfold agree_at, fmap, pick_coord, pick_coordinate, pick_planar.
  destruct (u.number_is_zero _);
    cbn [bind realize_frame frame data Planar.x Planar.y].
  - rewrite (pick_divide _ _ _ _ Hx), (pick_divide _ _ _ _ Hy). reflexivity.
  - rewrite (pick_divide _ _ _ _ (pick_sub _ _ _ _ _ (pick_scale _ _ _ _ Hx) (pick_scale _ _ _ _ Hy))),
            (pick_divide _ _ _ _ (pick_add _ _ _ _ _ (pick_scale _ _ _ _ Hx) (pick_scale _ _ _ _ Hy))).
    reflexivity.
Qed.

Lemma to_value_of_pick {U} `{u.Units T U} (q q' : u.Quantity (NDArray T) U) (target : U) i :
  pick_quantity q i = Some q' -> exists a, u.to_value q' target = Scalar a.
Proof.
  intros Hq. apply pick_quantity_inv in Hq. destruct Hq as (v & Hv & ->).
  eexists. reflexivity.
Qed.

Lemma pick_in_range (v : NDArray T) i a n :
  np.pick v i = Some (Scalar a) -> shape v = Some n -> (i < n)%nat.
Proof.
  destruct v as [s|l]; simpl; [discriminate|].
  intros Hp [= <-]. apply nth_error_Some.
  destruct (nth_error l i); discriminate.
Qed.

Lemma pick_broadcast_to (v : NDArray T) i a n :
  np.pick v i = Some (Scalar a) ->
  match n with Some m => (i < m)%nat | None => True end ->
  np.pick (np.broadcast_to v n) i = Some (Scalar a).
Proof.
  destruct v as [s|l], n as [m|]; simpl; auto.
  intros [= ->] Hi. rewrite nth_error_repeat by assumption. reflexivity.
Qed.

(** Element [i] of a Cartesian representation is the representation of the
    elements [i] of its components. *)
Lemma pick_cartesian_init (x y z x' y' z' : u.Quantity (NDArray T) u.LengthUnit) i :
  pick_quantity x i = Some x' ->
  pick_quantity y i = Some y' ->
  pick_quantity z i = Some z' ->
  pick_cartesian (Cartesian.init x y z) i = Some (Cartesian.init x' y' z').
Proof.
  intros Hx Hy Hz.
  apply pick_quantity_inv in Hx, Hy, Hz.
  destruct Hx as (a & Ha & ->), Hy as (b & Hb & ->), Hz as (c & Hc & ->).
  assert (Hn : match Cartesian.common_shape x y z with
               | Some m => (i < m)%nat
               | None => True
               end).
  { unfold Cartesian.common_shape.
    destruct (shape (u.value x)) eqn:Ex, (shape (u.value y)) eqn:Ey;
      try exact (pick_in_range _ _ _ _ Ha Ex);
      try exact (pick_in_range _ _ _ _ Hb Ey).
    destruct (shape (u.value z)) eqn:Ez; [exact (pick_in_range _ _ _ _ Hc Ez)|exact I]. }
  unfold pick_cartesian, Cartesian.init, Cartesian.broadcast, pick_quantity.
  cbn [Cartesian.x Cartesian.y Cartesian.z u.value u.unit].
  rewrite (pick_broadcast_to _ _ _ _ Ha Hn), (pick_broadcast_to _ _ _ _ Hb Hn),
          (pick_broadcast_to _ _ _ _ Hc Hn).
  reflexivity.
Qed.

Lemma telescope_to_camera_pick
    (c c' : Coordinate (TelescopeFrame.t T) (Planar.t T u.AngleUnit)) f i :
  pick_coordinate pick_planar c i = Some c' ->
  agree_at i (Some (fmap ACamera (telescope_to_camera c f)))
             (Some (fmap ACamera (telescope_to_camera c' f))).
Proof.
  intros H. apply pick_coordinate_inv in H. destruct H as [Hf H].
  apply pick_planar_inv in H. destruct H as [Hx Hy].
  assert (Hz : pick_quantity (u.times (U:=u.LengthUnit) (Scalar (zero (T:=T))) u.m) i
               = Some (u.times (Scalar zero) u.m)) by reflexivity.
  unfold telescope_to_camera.
  unfold agree_at, fmap, pick_coord, pick_coordinate, pick_camera_data.
  destruct (eqb _ zero);
    cbn [bind realize_frame frame data].
  - destruct (to_value_of_pick _ _ u.rad _ Hx) as [a Ea].
    destruct (to_value_of_pick _ _ u.rad _ Hy) as [b Eb].
    rewrite (pick_cartesian_init _ _ _ _ _ _ i
               (pick_value_times _ _ (CameraFrame.focal_length f) _ _
                  (pick_to_value _ _ u.rad _ Hx) Ea)
               (pick_value_times _ _ (CameraFrame.focal_length f) _ _
                  (pick_to_value _ _ u.rad _ Hy) Eb) Hz).
    reflexivity.
  - pose proof (pick_sub _ _ _ _ _ (pick_scale _ _ (u.number_cos (u.number_neg (CameraFrame.rotation f))) _ Hx)
                  (pick_scale _ _ (u.number_sin (u.number_neg (CameraFrame.rotation f))) _ Hy)) as Hx'.
    pose proof (pick_add _ _ _ _ _ (pick_scale _ _ (u.number_sin (u.number_neg (CameraFrame.rotation f))) _ Hx)
                  (pick_scale _ _ (u.number_cos (u.number_neg (CameraFrame.rotation f))) _ Hy)) as Hy'.
    destruct (to_value_of_pick _ _ u.rad _ Hx') as [a Ea].
    destruct (to_value_of_pick _ _ u.rad _ Hy') as [b Eb].
    rewrite (pick_cartesian_init _ _ _ _ _ _ i
               (pick_value_times _ _ (CameraFrame.focal_length f) _ _
                  (pick_to_value _ _ u.rad _ Hx') Ea)
               (pick_value_times _ _ (CameraFrame.focal_length f) _ _
                  (pick_to_value _ _ u.rad _ Hy') Eb) Hz).
    reflexivity.
Qed.

End TransformsOnArrays.

(** ** Binary64 at the pointing *)

Lemma mul_nan_l (x : float) : PrimFloat.mul nan x = nan.
Proof.
  apply FloatAxioms.Prim2SF_inj. rewrite FloatAxioms.mul_spec. reflexivity.
Qed.

Lemma add_nan_l (x : float) : PrimFloat.add nan x = nan.
Proof.
  apply FloatAxioms.Prim2SF_inj. rewrite FloatAxioms.add_spec. reflexivity.
Qed.

Lemma sub_nan_l (x : float) : PrimFloat.sub nan x = nan.
Proof.
  apply FloatAxioms.Prim2SF_inj. rewrite FloatAxioms.sub_spec. reflexivity.
Qed.

Lemma c_library_table : c_library library_table.
Proof. repeat split. Qed.

Ltac with_c_library lm :=
  destruct lm as [fcos fsin ftan facos fasin fatan fatan2]; unfold c_library;
  cbn [libm_cos libm_sin libm_tan libm_acos libm_asin libm_atan2];
  intros (Hc0 & Hc & Hs & Hacos & Htan & Hasin & Hatan2).

(** Evaluate, and let NaN run through the arithmetic and the library. *)
Ltac nan_steps :=
  repeat (progress
    (vm_compute; rewrite ?mul_nan_l, ?sub_nan_l, ?add_nan_l;
     repeat match goal with
            | H : ?f nan = nan |- context [?f ?a] =>
                change (f a) with (f nan); rewrite H
            | H : ?f nan nan = nan |- context [?f ?a ?b] =>
                change (f a b) with (f nan nan); rewrite H
            end)).

(** The direction at altitude 8 degrees projected about itself: the
    cosine of the angle to the reference, [c * c + s * s], rounds to
    [1 + 2^-52], of which the arc cosine is NaN. *)
Lemma altaz_to_offset_at_the_pointing (lm : Libm) :
  c_library lm ->
  let NT := float_numeric lm in
  altaz_to_offset (u.mkQuantity (Scalar 0%float) u.deg) (u.mkQuantity (Scalar 8%float) u.deg)
    (u.mkQuantity 0%float u.deg) (u.mkQuantity 8%float u.deg)
  = (Scalar nan, Scalar nan).
Proof.
  with_c_library lm.
  vm_compute. rewrite Hc0, Hc, Hs. vm_compute. rewrite Hacos, Htan.
  rewrite !mul_nan_l. reflexivity.
Qed.

(** With the pointing at altitude 8 degrees, the offset (0, 0) goes to the
    Horizon frame as the pointing, and comes back as NaN. *)
Lemma telescope_horizon_telescope_at_the_pointing (lm : Libm) :
  c_library lm ->
  let NT := float_numeric lm in
  let pt := Pointing.make (u.mkQuantity 0%float u.deg) (u.mkQuantity 8%float u.deg) in
  let tf := TelescopeFrame.make (Some pt) in
  let offset v := u.mkQuantity (Scalar v) u.rad in
  (h <- telescope_to_horizon (mkCoordinate tf (Planar.make (offset 0%float) (offset 0%float)))
          HorizonFrame.make ;;
   horizon_to_telescope h tf)
  = Ok (mkCoordinate tf (Planar.make (offset nan) (offset nan))).
Proof.
  with_c_library lm.
  vm_compute. rewrite Hc0, Hc, Hs. vm_compute. rewrite Hacos, Htan.
  rewrite !mul_nan_l. reflexivity.
Qed.

(** The two ways from the Telescope frame to the Horizon frame, for the
    offset (0, 0) with both pointings at altitude 8 degrees. *)
Lemma two_paths_at_the_pointing (lm : Libm) :
  c_library lm ->
  let NT := float_numeric lm in
  let p := Pointing.make (u.mkQuantity 0%float u.deg) (u.mkQuantity 8%float u.deg) in
  let tf := TelescopeFrame.make (Some p) in
  let nf := NominalFrame.make (Some p) in
  let angle v := u.mkQuantity (Scalar v) u.deg in
  let offset v := u.mkQuantity (Scalar v) u.rad in
  let c := mkCoordinate tf (Planar.make (offset 0%float) (offset 0%float)) in
  telescope_to_horizon c HorizonFrame.make
  = Ok (mkCoordinate HorizonFrame.make (UnitSpherical.make (angle 0%float) (angle 8%float))) /\
  telescope_to_nominal c nf
  = Ok (mkCoordinate nf (Planar.make (offset nan) (offset nan))) /\
  (n <- telescope_to_nominal c nf ;; nominal_to_altaz n HorizonFrame.make)
  = Ok (mkCoordinate HorizonFrame.make (UnitSpherical.make (angle nan) (angle nan))).
Proof.
  with_c_library lm. split; [vm_compute; reflexivity|].
  split.
  - vm_compute. rewrite Hc0, Hc, Hs. vm_compute. rewrite Hacos, Htan.
    rewrite !mul_nan_l. reflexivity.
  - vm_compute. rewrite Hc0, Hc, Hs. vm_compute. rewrite Hacos, Htan.
    nan_steps. reflexivity.
Qed.

(** In any arithmetic, Telescope to Nominal is Telescope to Horizon
    followed by Horizon to Nominal: the same two kernels, and the same
    exception when a pointing is unset. *)
Lemma telescope_to_nominal_by_the_horizon {T : Type} {NT : Numeric T}
    (c : Coordinate (TelescopeFrame.t T) (Planar.t T u.AngleUnit))
    (nf : NominalFrame.t T) (hf : HorizonFrame.t) :
  telescope_to_nominal c nf = (h <- telescope_to_horizon c hf ;; altaz_to_nominal h nf).
Proof.
  unfold telescope_to_nominal, telescope_to_horizon, altaz_to_nominal, az, alt.
  destruct (TelescopeFrame.telescope_pointing (frame c)) as [pt|]; [|reflexivity].
  cbn [getattr bind].
  destruct (offset_to_altaz _ _ _ _) as [A Z].
  cbn [bind realize_frame data UnitSpherical.lon UnitSpherical.lat].
  destruct (NominalFrame.reference_point nf) as [pn|]; reflexivity.
Qed.

(** * The claims *)

(** ** The kernel and its specification *)

(** C2.  On one direction, [altaz_to_offset] computes what the
    specification of [offsetFromDirection] says: the target's unit vector,
    rotated about the vertical by the reference azimuth and about the
    altitude axis by the reference altitude, projected with magnitude
    [tan(arccos(z))] at the angle [atan2(y, x)].  The angles may come in
    radians or in degrees; the specification is met on their radians. *)
Theorem altaz_to_offset_meets_specification (a b az alt : u.Quantity R u.AngleUnit) :
  altaz_to_offset (u.lift a) (u.lift b) az alt =
  let '(x, y) :=
    offsetFromDirection (radians a) (radians b) (radians az) (radians alt) in
  (Scalar x, Scalar y).
Proof.
  rewrite altaz_to_offset_scalar. unfold offsetFromDirection.
  rewrite <- local_vector_shift. reflexivity.
Qed.

(** ** Units *)

Lemma radians_in_radians (q : u.Quantity R u.AngleUnit) : radians (in_radians q) = radians q.
Proof. reflexivity. Qed.

Lemma offset_to_altaz_unit {T} {NT : Numeric T}
    (x_off y_off : u.Quantity (NDArray T) u.AngleUnit)
    (altitude azimuth : u.Quantity T u.AngleUnit) :
  u.unit (fst (offset_to_altaz x_off y_off altitude azimuth)) = u.unit azimuth /\
  u.unit (snd (offset_to_altaz x_off y_off altitude azimuth)) = u.unit azimuth.
Proof. rewrite offset_to_altaz_components. split; reflexivity. Qed.

(** C7 (as the code has it).  Trigonometry is applied to radians: the
    kernels give the same result when every angle is first told in radians.
    The unit of the result is not the unit of the inputs.  The offsets of
    Horizon to Telescope, Horizon to Nominal, Telescope to Nominal and Camera
    to Telescope are in radians whatever the inputs; Nominal to Telescope
    returns them in the unit of the input [x]; the directions of Telescope
    to Horizon and Nominal to Horizon are in the unit of the pointing's
    azimuth. *)
Theorem trigonometry_in_radians_results_tagged :
  (forall a b az alt : u.Quantity R u.AngleUnit,
     altaz_to_offset (u.lift a) (u.lift b) az alt =
     altaz_to_offset (u.lift (in_radians a)) (u.lift (in_radians b))
       (in_radians az) (in_radians alt)) /\
  (forall x y alt az : u.Quantity R u.AngleUnit,
     offset_to_altaz (u.lift x) (u.lift y) alt az =
     let '(altitude, azimuth) :=
       offset_to_altaz (u.lift (in_radians x)) (u.lift (in_radians y))
         (in_radians alt) (in_radians az) in
     (u.to altitude (u.unit az), u.to azimuth (u.unit az))) /\
  (forall c f r, horizon_to_telescope (T:=R) c f = Ok r ->
     u.unit (Planar.x (data r)) = u.rad /\ u.unit (Planar.y (data r)) = u.rad) /\
  (forall c f r, altaz_to_nominal (T:=R) c f = Ok r ->
     u.unit (Planar.x (data r)) = u.rad /\ u.unit (Planar.y (data r)) = u.rad) /\
  (forall c f r, telescope_to_nominal (T:=R) c f = Ok r ->
     u.unit (Planar.x (data r)) = u.rad /\ u.unit (Planar.y (data r)) = u.rad) /\
  (forall c f r, camera_to_telescope (T:=R) c f = Ok r ->
     u.unit (Planar.x (data r)) = u.rad /\ u.unit (Planar.y (data r)) = u.rad) /\
  (forall c f r, nominal_to_telescope (T:=R) c f = Ok r ->
     u.unit (Planar.x (data r)) = u.unit (Planar.x (data c)) /\
     u.unit (Planar.y (data r)) = u.unit (Planar.x (data c))) /\
  (forall c f r p, telescope_to_horizon (T:=R) c f = Ok r ->
     TelescopeFrame.telescope_pointing (frame c) = Some p ->
     u.unit (az r) = u.unit (Pointing.az p) /\ u.unit (alt r) = u.unit (Pointing.az p)) /\
  (forall c f r p, nominal_to_altaz (T:=R) c f = Ok r ->
     NominalFrame.reference_point (frame c) = Some p ->
     u.unit (az r) = u.unit (Pointing.az p) /\ u.unit (alt r) = u.unit (Pointing.az p)).
Proof.
  split; [|split; [|split; [|split; [|split; [|split; [|split; [|split]]]]]]].
  - intros. rewrite !altaz_to_offset_scalar. reflexivity.
  - intros. rewrite !offset_to_altaz_scalar. cbv zeta.
    rewrite !radians_in_radians.
    destruct (Reqb _ 0); [reflexivity|].
    destruct (unrotate_altitude _ _) as [[xp0 yp0] zp0]. reflexivity.
  - intros c f r. unfold horizon_to_telescope.
    destruct (TelescopeFrame.telescope_pointing f); [|discriminate].
    cbn [getattr bind]. destruct (altaz_to_offset _ _ _ _).
    intros [= <-]. split; reflexivity.
  - intros c f r. unfold altaz_to_nominal.
    destruct (NominalFrame.reference_point f); [|discriminate].
    cbn [getattr bind]. destruct (altaz_to_offset _ _ _ _).
    intros [= <-]. split; reflexivity.
  - intros c f r. unfold telescope_to_nominal.
    destruct (TelescopeFrame.telescope_pointing (frame c)); [|discriminate].
    destruct (NominalFrame.reference_point f); [|discriminate].
    cbn [getattr bind]. destruct (offset_to_altaz _ _ _ _).
    destruct (altaz_to_offset _ _ _ _).
    intros [= <-]. split; reflexivity.
  - intros c f r. unfold camera_to_telescope.
    destruct (u.number_is_zero _); intros [= <-]; split; reflexivity.
  - intros c f r. unfold nominal_to_telescope.
    destruct (TelescopeFrame.telescope_pointing f); [|discriminate].
    destruct (NominalFrame.reference_point (frame c)); [|discriminate].
    cbn [getattr bind]. destruct (offset_to_altaz _ _ _ _).
    destruct (altaz_to_offset _ _ _ _).
    intros [= <-]. split; reflexivity.
  - intros c f r p. unfold telescope_to_horizon. intros H Hp. rewrite Hp in H.
    cbn [getattr bind] in H.
    pose proof (offset_to_altaz_unit (Planar.x (data c)) (Planar.y (data c))
                  (Pointing.alt p) (Pointing.az p)) as [Hu1 Hu2].
    destruct (offset_to_altaz _ _ _ _) as [A Z].
    injection H as <-. unfold az, alt. cbn [data UnitSpherical.lon UnitSpherical.lat].
    auto.
  - intros c f r p. unfold nominal_to_altaz. intros H Hp. rewrite Hp in H.
    cbn [getattr bind] in H.
    pose proof (offset_to_altaz_unit (Planar.x (data c)) (Planar.y (data c))
                  (Pointing.alt p) (Pointing.az p)) as [Hu1 Hu2].
    destruct (offset_to_altaz _ _ _ _) as [A Z].
    injection H as <-. unfold az, alt. cbn [data UnitSpherical.lon UnitSpherical.lat].
    auto.
Qed.

(** C7 (as stated) fails: a direction and a pointing all in degrees give
    offsets in radians. *)
Lemma degrees_in_radians_out :
  let c := horizon_coord HorizonFrame.make
             (u.mkQuantity 10 u.deg) (u.mkQuantity 70 u.deg) in
  let f := TelescopeFrame.make
             (Some (Pointing.make (u.mkQuantity 0 u.deg) (u.mkQuantity 70 u.deg))) in
  exists r, horizon_to_telescope c f = Ok r /\
            u.unit (Planar.x (data r)) = u.rad /\
            u.unit (Planar.y (data r)) = u.rad /\
            u.rad <> u.deg.
Proof.
  cbv zeta. rewrite horizon_to_telescope_scalar.
  destruct (altaz_to_offset _ _ _ _) as [x y].
  eexists. split; [reflexivity|]. repeat split. discriminate.
Qed.

(** The hypotheses of C7's theorem can be met: the same direction, and
    the unit that the theorem gives for its offsets. *)
Lemma trigonometry_in_radians_results_tagged_witness :
  let c := horizon_coord HorizonFrame.make
             (u.mkQuantity 10 u.deg) (u.mkQuantity 70 u.deg) in
  let f := TelescopeFrame.make
             (Some (Pointing.make (u.mkQuantity 0 u.deg) (u.mkQuantity 70 u.deg))) in
  exists r, horizon_to_telescope c f = Ok r /\
            u.unit (Planar.x (data r)) = u.rad /\
            u.unit (Planar.y (data r)) = u.rad.
Proof.
  cbv zeta.
  match goal with |- exists r, ?t = _ /\ _ => destruct t as [r|e] eqn:E end.
  - exists r. split; [reflexivity|].
    exact (proj1 (proj2 (proj2 trigonometry_in_radians_results_tagged)) _ _ _ E).
  - exfalso. rewrite horizon_to_telescope_scalar in E.
    destruct (altaz_to_offset _ _ _ _); discriminate.
Defined.

(** ** The zero offset *)

Lemma convert_back_and_there (un : u.AngleUnit) (v : R) :
  u.convert u.rad un (u.convert un u.rad v) = v.
Proof.
  destruct un; simpl; [reflexivity|]. field. apply PI_neq_0.
Qed.

Lemma radians_zero (un : u.AngleUnit) : radians (u.mkQuantity 0 un) = 0.
Proof. destruct un; unfold radians, u.number_to_value; simpl; ring. Qed.

Lemma to_radians_same_unit (v : R) (un : u.AngleUnit) :
  u.to (scalar_angle (radians (u.mkQuantity v un)) u.rad) un = u.lift (u.mkQuantity v un).
Proof.
  rewrite to_scalar_angle. unfold radians, u.number_to_value. cbn [u.value u.unit].
  rewrite convert_back_and_there. reflexivity.
Qed.

Lemma offset_to_altaz_at_zero (x y alt az : u.Quantity R u.AngleUnit) :
  radians x = 0 -> radians y = 0 ->
  offset_to_altaz (u.lift x) (u.lift y) alt az =
  (u.to (scalar_angle (radians alt) u.rad) (u.unit az),
   u.to (scalar_angle (radians az) u.rad) (u.unit az)).
Proof.
  intros Hx Hy. rewrite offset_to_altaz_scalar. cbv zeta. rewrite Hx, Hy.
  replace (0 * 0 + 0 * 0) with 0 by ring. rewrite sqrt_0.
  unfold Reqb. destruct (Req_dec_T 0 0) as [_|n]; [reflexivity|contradiction n; reflexivity].
Qed.

(** In any arithmetic: an offset whose magnitude compares equal to zero
    gives the reference, converted to radians and back. *)
Lemma offset_to_altaz_zero_magnitude {T} {NT : Numeric T} (x y : T) (ux uy : u.AngleUnit)
    (altitude azimuth : u.Quantity T u.AngleUnit) :
  let x_off := u.convert ux u.rad x in
  let y_off := u.convert uy u.rad y in
  eqb (nsqrt (x_off * x_off + y_off * y_off)%num) zero = true ->
  offset_to_altaz (u.mkQuantity (Scalar x) ux) (u.mkQuantity (Scalar y) uy) altitude azimuth =
  (u.mkQuantity
     (Scalar (u.convert u.rad (u.unit azimuth) (u.number_to_value altitude u.rad)))
     (u.unit azimuth),
   u.mkQuantity
     (Scalar (u.convert u.rad (u.unit azimuth) (u.number_to_value azimuth u.rad)))
     (u.unit azimuth)).
Proof.
  cbv zeta. intros H. rewrite offset_to_altaz_one. cbv zeta. rewrite H. reflexivity.
Qed.

Lemma float_zero_magnitude (lm : Libm) (ux uy : u.AngleUnit) :
  let NT := float_numeric lm in
  let x_off := u.convert ux u.rad 0%float in
  let y_off := u.convert uy u.rad 0%float in
  eqb (nsqrt (x_off * x_off + y_off * y_off)%num) zero = true.
Proof. destruct ux, uy; vm_compute; reflexivity. Qed.

Lemma float_zero_offset (lm : Libm) (ux uy : u.AngleUnit)
    (altitude azimuth : u.Quantity float u.AngleUnit) :
  let NT := float_numeric lm in
  offset_to_altaz
    (u.mkQuantity (Scalar 0%float) ux) (u.mkQuantity (Scalar 0%float) uy) altitude azimuth =
  (u.mkQuantity
     (Scalar (u.convert u.rad (u.unit azimuth) (u.number_to_value altitude u.rad)))
     (u.unit azimuth),
   u.mkQuantity
     (Scalar (u.convert u.rad (u.unit azimuth) (u.number_to_value azimuth u.rad)))
     (u.unit azimuth)).
Proof.
  intros NT. apply offset_to_altaz_zero_magnitude. apply float_zero_magnitude.
Qed.

(** C3 (as the code has it).  Called with the offset pair (0, 0), in
    radians or degrees, [offset_to_altaz] returns the reference direction
    [(alt, az)], in the scalar call and at every position of an array call
    that holds the pair (0, 0), whatever the other positions hold: the
    reference passes through radians and back to the unit of the azimuth.
    For a reference in radians that is the reference exactly, also in
    binary64 arithmetic; in exact arithmetic it is the reference exactly in
    either unit.  An offset of nonzero magnitude is not touched by the
    substitution: its result is the general formula on its own magnitude. *)
Theorem zero_offset_returns_reference (ux uy : u.AngleUnit) :
  (* binary64 arithmetic, the reference in radians *)
  (forall (lm : Libm) (valt vaz : float),
     let NT := float_numeric lm in
     offset_to_altaz (u.mkQuantity (Scalar 0%float) ux) (u.mkQuantity (Scalar 0%float) uy)
       (u.mkQuantity valt u.rad) (u.mkQuantity vaz u.rad)
     = (u.mkQuantity (Scalar valt) u.rad, u.mkQuantity (Scalar vaz) u.rad)) /\
  (forall (lm : Libm) (X Y : NDArray float) (i : nat) (valt vaz : float),
     let NT := float_numeric lm in
     np.pick X i = Some (Scalar 0%float) -> np.pick Y i = Some (Scalar 0%float) ->
     let '(obj_altitude, obj_azimuth) :=
       offset_to_altaz (u.mkQuantity X ux) (u.mkQuantity Y uy)
         (u.mkQuantity valt u.rad) (u.mkQuantity vaz u.rad) in
     pick_quantity obj_altitude i = Some (u.mkQuantity (Scalar valt) u.rad) /\
     pick_quantity obj_azimuth i = Some (u.mkQuantity (Scalar vaz) u.rad)) /\
  (* exact arithmetic, the reference in either unit *)
  (forall (valt vaz : R) (un : u.AngleUnit),
     offset_to_altaz (scalar_angle 0 ux) (scalar_angle 0 uy)
       (u.mkQuantity valt un) (u.mkQuantity vaz un)
     = (scalar_angle valt un, scalar_angle vaz un)) /\
  (forall alt az : u.Quantity R u.AngleUnit,
     let '(obj_altitude, obj_azimuth) :=
       offset_to_altaz (scalar_angle 0 ux) (scalar_angle 0 uy) alt az in
     is_angle obj_altitude (radians alt) /\ is_angle obj_azimuth (radians az) /\
     u.unit obj_altitude = u.unit az /\ u.unit obj_azimuth = u.unit az) /\
  (forall (X Y : NDArray R) (i : nat) (valt vaz : R) (un : u.AngleUnit),
     np.pick X i = Some (Scalar 0) -> np.pick Y i = Some (Scalar 0) ->
     let '(obj_altitude, obj_azimuth) :=
       offset_to_altaz (u.mkQuantity X ux) (u.mkQuantity Y uy)
         (u.mkQuantity valt un) (u.mkQuantity vaz un) in
     pick_quantity obj_altitude i = Some (scalar_angle valt un) /\
     pick_quantity obj_azimuth i = Some (scalar_angle vaz un)) /\
  (forall x y alt az : u.Quantity R u.AngleUnit,
     let offset := sqrt (radians x * radians x + radians y * radians y) in
     offset <> 0 ->
     offset_to_altaz (u.lift x) (u.lift y) alt az =
     let k := sin (atan offset) / offset in
     let '(xp0, yp0, zp0) :=
       unrotate_altitude (radians alt)
         (radians x * k, radians y * k, cos (atan offset)) in
     (u.to (scalar_angle (asin zp0) u.rad) (u.unit az),
      u.to (scalar_angle (Ratan2 yp0 (- xp0) + radians az) u.rad) (u.unit az))).
Proof.
  assert (Hzero : forall alt az : u.Quantity R u.AngleUnit,
            offset_to_altaz (scalar_angle 0 ux) (scalar_angle 0 uy) alt az =
            (u.to (scalar_angle (radians alt) u.rad) (u.unit az),
             u.to (scalar_angle (radians az) u.rad) (u.unit az))).
  { intros alt az.
    apply (offset_to_altaz_at_zero (u.mkQuantity 0 ux) (u.mkQuantity 0 uy));
      apply radians_zero. }
  split; [|split; [|split; [|split; [|split]]]].
  - intros lm valt vaz NT.
    exact (float_zero_offset lm ux uy (u.mkQuantity valt u.rad) (u.mkQuantity vaz u.rad)).
  - intros lm X Y i valt vaz NT HX HY.
    pose proof (offset_to_altaz_pick (u.mkQuantity X ux) (u.mkQuantity Y uy)
                  (u.mkQuantity (Scalar 0%float) ux) (u.mkQuantity (Scalar 0%float) uy)
                  (u.mkQuantity valt u.rad) (u.mkQuantity vaz u.rad) i) as Hpick.
    unfold pick_quantity in Hpick at 1 2. cbn [u.value u.unit] in Hpick.
    rewrite HX, HY in Hpick. specialize (Hpick eq_refl eq_refl).
    pose proof (float_zero_offset lm ux uy (u.mkQuantity valt u.rad) (u.mkQuantity vaz u.rad))
      as Hz.
    cbv zeta in Hz. fold NT in Hz. rewrite Hz in Hpick.
    destruct (offset_to_altaz _ _ _ _) as [A Z]. exact Hpick.
  - intros valt vaz un. rewrite Hzero. cbn [u.unit].
    rewrite !to_radians_same_unit. reflexivity.
  - intros alt az. rewrite Hzero.
    split; [apply is_angle_to|]. split; [apply is_angle_to|]. split; reflexivity.
  - intros X Y i valt vaz un HX HY.
    pose proof (offset_to_altaz_pick (u.mkQuantity X ux) (u.mkQuantity Y uy)
                  (scalar_angle 0 ux) (scalar_angle 0 uy)
                  (u.mkQuantity valt un) (u.mkQuantity vaz un) i) as Hpick.
    unfold pick_quantity in Hpick at 1 2. cbn [u.value u.unit] in Hpick.
    rewrite HX, HY in Hpick. specialize (Hpick eq_refl eq_refl).
    rewrite Hzero in Hpick. cbn [u.unit fst snd] in Hpick.
    rewrite !to_radians_same_unit in Hpick.
    destruct (offset_to_altaz _ _ _ _) as [A Z]. exact Hpick.
  - intros x y alt az offset Hne. rewrite offset_to_altaz_scalar. cbv zeta.
    fold offset. unfold Reqb.
    destruct (Req_dec_T offset 0) as [E|_]; [contradiction|]. reflexivity.
Qed.

(** C3 (as stated) fails in binary64 arithmetic for a reference in degrees:
    the azimuth 123.456 deg goes to radians and back, and returns as
    123.45600000000002 deg, whatever the mathematical library. *)
Lemma zero_offset_in_degrees_is_rounded :
  let azimuth := 0x1.edd2f1a9fbe77p+6%float in       (* 123.456 *)
  let returned := 0x1.edd2f1a9fbe78p+6%float in      (* 123.45600000000002 *)
  (forall lm : Libm,
     let NT := float_numeric lm in
     snd (offset_to_altaz
            (u.mkQuantity (Scalar 0%float) u.deg) (u.mkQuantity (Scalar 0%float) u.deg)
            (u.mkQuantity 10%float u.deg) (u.mkQuantity azimuth u.deg))
     = u.mkQuantity (Scalar returned) u.deg) /\
  PrimFloat.eqb returned azimuth = false.
Proof.
  cbv zeta. split; [|vm_compute; reflexivity].
  intros lm. pose proof (float_zero_offset lm u.deg u.deg
                           (u.mkQuantity 10%float u.deg)
                           (u.mkQuantity 0x1.edd2f1a9fbe77p+6%float u.deg)) as H.
  cbv zeta in H. rewrite H. vm_compute. reflexivity.
Qed.

(** The hypotheses of C3's theorem can be met: in an array call on the
    offsets (0, 0) and (0.1, 0), position 0 returns the reference. *)
Lemma zero_offset_returns_reference_witness :
  let '(obj_altitude, obj_azimuth) :=
    offset_to_altaz
      (u.mkQuantity (Array [0; 1 / 10]) u.rad) (u.mkQuantity (Array [0; 0]) u.rad)
      (u.mkQuantity (6 / 5) u.rad) (u.mkQuantity 0 u.rad) in
  pick_quantity obj_altitude 0 = Some (scalar_angle (6 / 5) u.rad) /\
  pick_quantity obj_azimuth 0 = Some (scalar_angle 0 u.rad).
Proof.
  exact (proj1 (proj2 (proj2 (proj2 (proj2 (zero_offset_returns_reference u.rad u.rad)))))
           (Array [0; 1 / 10]) (Array [0; 0]) 0%nat (6 / 5) 0 u.rad eq_refl eq_refl).
Defined.

(** ** The azimuth that [offset_to_altaz] returns *)

Lemma Ratan2_right y x : 0 < x -> Ratan2 y x = atan (y / x).
Proof. intros Hx. unfold Ratan2. destruct (Rlt_dec 0 x); [reflexivity|contradiction]. Qed.

(** An offset along [y] about a reference on the horizon: the azimuth moves
    by [atan y]. *)
Lemma azimuth_of_side_offset (y vaz : R) :
  y <> 0 ->
  offset_to_altaz (scalar_angle 0 u.rad) (scalar_angle y u.rad)
    (u.mkQuantity 0 u.rad) (u.mkQuantity vaz u.rad)
  = (scalar_angle (asin 0) u.rad, scalar_angle (atan y + vaz) u.rad).
Proof.
  intros Hy.
  change (scalar_angle 0 u.rad) with (u.lift (u.mkQuantity 0 u.rad)).
  change (scalar_angle y u.rad) with (u.lift (u.mkQuantity y u.rad)).
  rewrite offset_to_altaz_scalar. cbv zeta.
  change (radians (u.mkQuantity 0 u.rad)) with 0.
  change (radians (u.mkQuantity y u.rad)) with y.
  change (radians (u.mkQuantity vaz u.rad)) with vaz.
  assert (Hne : sqrt (0 * 0 + y * y) <> 0).
  { intros H. apply sqrt_sum_sq_0 in H. tauto. }
  unfold Reqb. destruct (Req_dec_T (sqrt (0 * 0 + y * y)) 0) as [E|_]; [contradiction|].
  pose proof (unprojection 0 y Hne) as Hu. cbv zeta in Hu. rewrite Hu.
  unfold offset_vector, unrotate_altitude. rewrite sin_0, cos_0.
  pose proof (offset_norm_pos 0 y) as Hn.
  set (n := sqrt (1 + (0 * 0 + y * y))) in *.
  replace (0 * (0 / n) - 1 * (1 / n)) with (- (1 / n)) by (field; lra).
  replace (1 * (0 / n) + 0 * (1 / n)) with 0 by (field; lra).
  rewrite Ropp_involutive, Ratan2_right by (apply Rdiv_lt_0_compat; lra).
  replace (y / n / (1 / n)) with y by (field; lra).
  reflexivity.
Qed.

(** C9.  The azimuth that [offset_to_altaz] returns for an offset of
    nonzero magnitude is [arctan2(yp0, -xp0)] plus the reference azimuth, as
    it stands.  It can be negative, and it can reach a full turn: a
    hundredth of a radian to one side of the azimuth 0 gives a negative
    azimuth, and to the other side of an azimuth just below a full turn
    gives exactly a full turn. *)
Theorem azimuth_is_not_wrapped :
  (forall x y alt az : u.Quantity R u.AngleUnit,
     sqrt (radians x * radians x + radians y * radians y) <> 0 ->
     let '(xp0, yp0, _) :=
       unrotate_altitude (radians alt) (offset_vector (radians x) (radians y)) in
     snd (offset_to_altaz (u.lift x) (u.lift y) alt az) =
     u.to (scalar_angle (Ratan2 yp0 (- xp0) + radians az) u.rad) (u.unit az)) /\
  (exists r,
     snd (offset_to_altaz (scalar_angle 0 u.rad) (scalar_angle (- (1 / 100)) u.rad)
            (u.mkQuantity 0 u.rad) (u.mkQuantity 0 u.rad))
     = scalar_angle r u.rad /\ r < 0) /\
  (exists vaz r,
     0 <= vaz < 2 * PI /\
     snd (offset_to_altaz (scalar_angle 0 u.rad) (scalar_angle (1 / 100) u.rad)
            (u.mkQuantity 0 u.rad) (u.mkQuantity vaz u.rad))
     = scalar_angle r u.rad /\ 2 * PI <= r).
Proof.
  split; [|split].
  - intros x y alt az Hne.
    rewrite offset_to_altaz_scalar. cbv zeta. unfold Reqb.
    destruct (Req_dec_T _ 0) as [E|_]; [contradiction|].
    pose proof (unprojection (radians x) (radians y) Hne) as Hu. cbv zeta in Hu.
    rewrite Hu.
    destruct (unrotate_altitude _ _) as [[xp0 yp0] zp0]. reflexivity.
  - exists (atan (- (1 / 100)) + 0). split.
    + rewrite azimuth_of_side_offset by lra. reflexivity.
    + assert (atan (- (1 / 100)) < atan 0) by (apply atan_increasing; lra).
      rewrite atan_0 in H. lra.
  - exists (2 * PI - atan (1 / 100)), (2 * PI). split; [|split].
    + pose proof (atan_bound (1 / 100)) as Hb.
      assert (atan 0 < atan (1 / 100)) as H0 by (apply atan_increasing; lra).
      rewrite atan_0 in H0. pose proof PI_RGT_0. lra.
    + rewrite azimuth_of_side_offset by lra. cbn [snd].
      replace (atan (1 / 100) + (2 * PI - atan (1 / 100))) with (2 * PI) by ring.
      reflexivity.
    + lra.
Qed.

(** The hypothesis of C9's theorem can be met: an offset of a hundredth of a
    radian has a magnitude other than zero. *)
Lemma azimuth_is_not_wrapped_witness :
  let x := u.mkQuantity 0 u.rad in
  let y := u.mkQuantity (1 / 100) u.rad in
  let alt := u.mkQuantity 0 u.rad in
  let az := u.mkQuantity 0 u.rad in
  sqrt (radians x * radians x + radians y * radians y) <> 0 /\
  let '(xp0, yp0, _) :=
    unrotate_altitude (radians alt) (offset_vector (radians x) (radians y)) in
  snd (offset_to_altaz (u.lift x) (u.lift y) alt az) =
  u.to (scalar_angle (Ratan2 yp0 (- xp0) + radians az) u.rad) (u.unit az).
Proof.
  cbv zeta.
  assert (Hne : sqrt (radians (u.mkQuantity 0 u.rad) * radians (u.mkQuantity 0 u.rad) +
                      radians (u.mkQuantity (1 / 100) u.rad) *
                      radians (u.mkQuantity (1 / 100) u.rad)) <> 0).
  { intros H. apply sqrt_sum_sq_0 in H. destruct H as [_ H].
    change (1 / 100 = 0) in H. lra. }
  split; [exact Hne|].
  exact (proj1 azimuth_is_not_wrapped _ _ _ _ Hne).
Defined.

(** ** Camera positions that are not in metres *)

Lemma Reqb_refl r : Reqb r r = true.
Proof. unfold Reqb. destruct (Req_dec_T r r) as [_|n]; [reflexivity|contradiction n; reflexivity]. Qed.

(** C4, at the input where the code departs from it.  A camera position of
    (100 cm, 0 cm), with a focal length of 1 m and no rotation, goes to the
    Telescope frame as 100 rad (the quotient 100 cm / 1 m keeps the value
    100 and [to_value()] names no unit), and comes back as (100 m, 0 m, 0 m). *)
Theorem centimetres_come_back_as_metres (tf : TelescopeFrame.t R) :
  let cf := CameraFrame.init (Some (u.mkQuantity 1 u.m)) (Some (u.mkQuantity 0 u.rad)) None in
  let position :=
    Planar.make (u.mkQuantity (Scalar 100) u.cm) (u.mkQuantity (Scalar 0) u.cm) in
  camera_to_telescope (mkCoordinate cf (PlanarData position)) tf
  = Ok (mkCoordinate tf
          (Planar.make (u.mkQuantity (Scalar (100 / 1)) u.rad)
                       (u.mkQuantity (Scalar (0 / 1)) u.rad))) /\
  (t <- camera_to_telescope (mkCoordinate cf (PlanarData position)) tf ;;
   telescope_to_camera t cf)
  = Ok (mkCoordinate cf
          (CartesianData
             (Cartesian.make (u.mkQuantity (Scalar 100) u.m) (u.mkQuantity (Scalar 0) u.m)
                (u.mkQuantity (Scalar 0) u.m)))).
Proof.
  cbv zeta. unfold CameraFrame.init.
  change (u.number_to_value (u.mkQuantity 1 u.m) u.m) with 1.
  change (u.number_to_value (u.mkQuantity 0 u.rad) u.rad) with 0.
  camera_unfold.
  rewrite Reqb_refl.
  np_unfold. split; [reflexivity|].
  cbn [bind realize_frame frame data Planar.x Planar.y CameraFrame.rotation
       CameraFrame.focal_length u.value u.unit].
  change (@eqb R R_numeric) with Reqb. change (@zero R R_numeric) with 0.
  change (@neg R R_numeric 0) with (- 0). rewrite Reqb_opp_0, Reqb_refl.
  apply camera_coord_ext.
  - change (100 / 1 * 1 = 100). field.
  - change (0 / 1 * 1 = 0). field.
Qed.

(** ** The composed path *)

(** In exact arithmetic the two ways agree.  Telescope to Nominal is
    Telescope to Horizon followed by Horizon to Nominal; and when the
    direction that an offset stands for lies in the forward hemisphere of the
    array pointing, Telescope to Nominal followed by Nominal to Horizon
    returns the same direction as Telescope to Horizon: the same point of
    the sphere, the same altitude when the two pointings have valid
    altitudes, and then, away from the poles, the same azimuth up to whole
    turns. *)
Lemma composed_path_gives_same_direction
    (x y : u.Quantity R u.AngleUnit) (pt pn : Pointing.t R) (hf : HorizonFrame.t) :
  let tf := TelescopeFrame.make (Some pt) in
  let nf := NominalFrame.make (Some pn) in
  let c := planar_coord tf x y in
  telescope_to_nominal c nf = (h <- telescope_to_horizon c hf ;; altaz_to_nominal h nf) /\
  (forward_of (telescope_to_horizon c hf) pn ->
   exists direct composed z1 a1 z2 a2,
     telescope_to_horizon c hf = Ok direct /\
     (n <- telescope_to_nominal c nf ;; nominal_to_altaz n hf) = Ok composed /\
     is_angle (az direct) z1 /\ is_angle (alt direct) a1 /\
     is_angle (az composed) z2 /\ is_angle (alt composed) a2 /\
     same_direction z2 a2 z1 a1 /\
     (valid_altitude (radians (Pointing.alt pt)) ->
      valid_altitude (radians (Pointing.alt pn)) ->
      a2 = a1 /\ (0 < cos a1 -> exists k : Z, z2 = z1 + 2 * IZR k * PI))).
Proof.
  cbv zeta. split.
  { unfold telescope_to_nominal, telescope_to_horizon, altaz_to_nominal, az, alt, planar_coord.
    cbn [getattr bind frame data TelescopeFrame.telescope_pointing
         NominalFrame.reference_point Planar.x Planar.y].
    destruct (offset_to_altaz _ _ _ _) as [A Z].
    cbn [bind realize_frame data UnitSpherical.lon UnitSpherical.lat
         NominalFrame.reference_point getattr].
    reflexivity. }
  intros (h & z & a & Hh & Hz & Ha & Hf).
  rewrite telescope_to_horizon_scalar in Hh |- *.
  destruct (through_other_pointing x y (Pointing.alt pt) (Pointing.az pt)
              (Pointing.alt pn) (Pointing.az pn))
    as (obj_alt1 & obj_az1 & HO1 & Hvalid1 & Hrest).
  rewrite HO1 in Hh |- *. injection Hh as <-.
  unfold az, alt in Hz, Ha. cbn [data UnitSpherical.lon UnitSpherical.lat] in Hz, Ha.
  pose proof (is_angle_unique _ _ _ Hz (is_angle_to _ _)) as ->.
  pose proof (is_angle_unique _ _ _ Ha (is_angle_to _ _)) as ->.
  destruct (Hrest Hf) as (x2 & y2 & obj_alt2 & obj_az2 & HA2 & HO2 & Hsame & Hvalid2 & _).
  eexists _, _, obj_az1, obj_alt1, obj_az2, obj_alt2.
  split; [reflexivity|]. split.
  { unfold telescope_to_nominal, nominal_to_altaz, getattr, planar_coord.
    cbn [bind frame data TelescopeFrame.telescope_pointing NominalFrame.reference_point
         Planar.x Planar.y].
    rewrite HO1, HA2.
    cbn [bind frame data TelescopeFrame.telescope_pointing NominalFrame.reference_point
         Planar.x Planar.y realize_frame].
    change (u.times (Scalar x2) u.rad) with (scalar_angle x2 u.rad).
    change (u.times (Scalar y2) u.rad) with (scalar_angle y2 u.rad).
    rewrite HO2. reflexivity. }
  unfold az, alt. cbn [data UnitSpherical.lon UnitSpherical.lat].
  split; [apply is_angle_to|]. split; [apply is_angle_to|].
  split; [apply is_angle_to|]. split; [apply is_angle_to|].
  split; [exact Hsame|].
  intros Hpt Hpn.
  assert (Ealt : obj_alt2 = obj_alt1).
  { eapply local_vector_altitude; [apply Hvalid2, Hpn | apply Hvalid1, Hpt | exact Hsame]. }
  split; [exact Ealt|]. subst obj_alt2.
  intros Hc. eapply local_vector_azimuth_mod; [exact Hc | exact Hsame].
Qed.

(** C5, at the input where the code departs from it.  The composed way
    uses the same two kernels as the single edges, in any arithmetic.  In
    binary64, with a mathematical library that rounds the cosine and the
    sine of 8 degrees correctly, take the telescope and the array both
    pointing at azimuth 0 deg and altitude 8 deg, and the offset (0, 0) of
    the Telescope frame.  Telescope to Horizon returns the pointing,
    (0 deg, 8 deg).  Telescope to Nominal projects that direction about
    itself and returns the offsets (NaN, NaN), and Nominal to Horizon then
    returns the direction (NaN, NaN): no tolerance is met. *)
Theorem composed_path_departs_at_the_pointing (lm : Libm) :
  c_library lm ->
  let NT := float_numeric lm in
  let p := Pointing.make (u.mkQuantity 0%float u.deg) (u.mkQuantity 8%float u.deg) in
  let tf := TelescopeFrame.make (Some p) in
  let nf := NominalFrame.make (Some p) in
  let hf := HorizonFrame.make in
  let angle v := u.mkQuantity (Scalar v) u.deg in
  let offset v := u.mkQuantity (Scalar v) u.rad in
  let c := mkCoordinate tf (Planar.make (offset 0%float) (offset 0%float)) in
  (forall c' nf',
     telescope_to_nominal c' nf' = (h <- telescope_to_horizon c' hf ;; altaz_to_nominal h nf')) /\
  telescope_to_horizon c hf
  = Ok (mkCoordinate hf (UnitSpherical.make (angle 0%float) (angle 8%float))) /\
  telescope_to_nominal c nf
  = Ok (mkCoordinate nf (Planar.make (offset nan) (offset nan))) /\
  (n <- telescope_to_nominal c nf ;; nominal_to_altaz n hf)
  = Ok (mkCoordinate hf (UnitSpherical.make (angle nan) (angle nan))).
Proof.
  intros Hlm. cbv zeta.
  split; [intros c' nf'; apply telescope_to_nominal_by_the_horizon|].
  exact (two_paths_at_the_pointing lm Hlm).
Qed.

(** The theorem at [library_table]. *)
Lemma composed_path_departs_at_the_pointing_witness :
  let NT := float_numeric library_table in
  let p := Pointing.make (u.mkQuantity 0%float u.deg) (u.mkQuantity 8%float u.deg) in
  let tf := TelescopeFrame.make (Some p) in
  let nf := NominalFrame.make (Some p) in
  let hf := HorizonFrame.make in
  let angle v := u.mkQuantity (Scalar v) u.deg in
  let offset v := u.mkQuantity (Scalar v) u.rad in
  let c := mkCoordinate tf (Planar.make (offset 0%float) (offset 0%float)) in
  c_library library_table /\
  telescope_to_horizon c hf
  = Ok (mkCoordinate hf (UnitSpherical.make (angle 0%float) (angle 8%float))) /\
  (n <- telescope_to_nominal c nf ;; nominal_to_altaz n hf)
  = Ok (mkCoordinate hf (UnitSpherical.make (angle nan) (angle nan))).
Proof.
  cbv zeta.
  assert (Hlm : c_library library_table) by (repeat split).
  split; [exact Hlm|].
  destruct (composed_path_departs_at_the_pointing library_table Hlm) as (_ & H1 & _ & H2).
  split; [exact H1 | exact H2].
Defined.

(** ** Offsets along the altitude *)

Lemma offset_vector_along_x x : offset_vector x 0 = (sin (atan x), 0, cos (atan x)).
Proof.
  unfold offset_vector. cbv zeta. rewrite sin_atan, cos_atan.
  replace (1 + (x * x + 0 * 0)) with (1 + x²) by (unfold Rsqr; ring).
  pose proof (sqrt_1_sq_pos x). vec_eq; try reflexivity. field. lra.
Qed.

Lemma Ratan2_0_pos c : 0 < c -> Ratan2 0 c = 0.
Proof.
  intros Hc. rewrite Ratan2_right by assumption.
  replace (0 / c) with 0 by (field; lra). apply atan_0.
Qed.

(** About the reference [(alt, az)], the offset [(x, 0)] is the direction
    at the altitude [alt + atan x] and at the azimuth of the reference. *)
Lemma offset_along_x (x alt az : u.Quantity R u.AngleUnit) (uy : u.AngleUnit) :
  - (PI / 2) < radians alt + atan (radians x) < PI / 2 ->
  offset_to_altaz (u.lift x) (scalar_angle 0 uy) alt az =
  (u.to (scalar_angle (radians alt + atan (radians x)) u.rad) (u.unit az),
   u.to (scalar_angle (radians az) u.rad) (u.unit az)).
Proof.
  intros Hb.
  change (scalar_angle 0 uy) with (u.lift (u.mkQuantity 0 uy)).
  rewrite offset_to_altaz_scalar. cbv zeta. rewrite radians_zero.
  set (vx := radians x) in *. set (valt := radians alt) in *.
  unfold Reqb. destruct (Req_dec_T (sqrt (vx * vx + 0 * 0)) 0) as [E|N].
  - apply sqrt_sum_sq_0 in E. destruct E as [E _]. rewrite E, atan_0, Rplus_0_r.
    reflexivity.
  - pose proof (unprojection vx 0 N) as Hu. cbv zeta in Hu. rewrite Hu.
    rewrite offset_vector_along_x. unfold unrotate_altitude.
    replace (cos valt * sin (atan vx) + sin valt * cos (atan vx))
      with (sin (valt + atan vx)) by (rewrite sin_plus; ring).
    replace (- (sin valt * sin (atan vx) - cos valt * cos (atan vx)))
      with (cos (valt + atan vx)) by (rewrite cos_plus; ring).
    rewrite asin_sin by lra.
    rewrite Ratan2_0_pos by (apply cos_gt_0; lra).
    rewrite Rplus_0_l. reflexivity.
Qed.

Lemma atan_tenth : 0 < atan (1 / 10) < PI / 4.
Proof.
  split.
  - rewrite <- atan_0. apply atan_increasing. lra.
  - rewrite <- atan_1. apply atan_increasing. lra.
Qed.

(** ** Round trips *)

(** C1 (as the code has it).  In exact arithmetic, on one direction or one
    offset.  An offset taken to the Horizon frame and back (from Telescope or
    from Nominal) returns as the same angles, told in radians, whatever the
    offset and the pointing.  A direction taken to the Telescope or Nominal
    frame and back, when it lies in the forward hemisphere of the pointing
    and the altitudes are valid, returns with its altitude and as the same
    point of the sphere; away from the poles its azimuth returns up to whole
    turns, and exactly when it is within half a turn of the pointing's.  An
    offset taken from Telescope to Nominal and back, or from Nominal to
    Telescope and back, returns when the direction it stands for lies in the
    forward hemisphere of the other pointing.  A camera position in metres
    taken to the Telescope frame and back returns with a third coordinate of
    0 m, and an offset taken to the Camera frame and back returns, for any
    rotation and any focal length other than 0. *)
Theorem frame_round_trips
    (x y a b : u.Quantity R u.AngleUnit) (pt pn : Pointing.t R) (hf : HorizonFrame.t)
    (px py f theta : R) (cam_pointing : option (Pointing.t R)) :
  let tf := TelescopeFrame.make (Some pt) in
  let nf := NominalFrame.make (Some pn) in
  let cf := CameraFrame.make (u.mkQuantity f u.m) (u.mkQuantity theta u.rad) cam_pointing in
  let position :=
    Planar.make (u.mkQuantity (Scalar px) u.m) (u.mkQuantity (Scalar py) u.m) in
  (* Telescope, Horizon, Telescope *)
  (h <- telescope_to_horizon (planar_coord tf x y) hf ;; horizon_to_telescope h tf)
    = Ok (planar_coord tf (in_radians x) (in_radians y)) /\
  (* Nominal, Horizon, Nominal *)
  (h <- nominal_to_altaz (planar_coord nf x y) hf ;; altaz_to_nominal h nf)
    = Ok (planar_coord nf (in_radians x) (in_radians y)) /\
  (* Horizon, Telescope, Horizon *)
  (forward (radians a) (radians b) (radians (Pointing.az pt)) (radians (Pointing.alt pt)) ->
   valid_altitude (radians b) -> valid_altitude (radians (Pointing.alt pt)) ->
   exists h obj_az,
     (t <- horizon_to_telescope (horizon_coord hf a b) tf ;; telescope_to_horizon t hf) = Ok h /\
     is_angle (alt h) (radians b) /\
     is_angle (az h) obj_az /\
     same_direction obj_az (radians b) (radians a) (radians b) /\
     (0 < cos (radians b) ->
        (exists k : Z, obj_az = radians a + 2 * IZR k * PI) /\
        (- PI < radians a - radians (Pointing.az pt) <= PI -> obj_az = radians a))) /\
  (* Horizon, Nominal, Horizon *)
  (forward (radians a) (radians b) (radians (Pointing.az pn)) (radians (Pointing.alt pn)) ->
   valid_altitude (radians b) -> valid_altitude (radians (Pointing.alt pn)) ->
   exists h obj_az,
     (n <- altaz_to_nominal (horizon_coord hf a b) nf ;; nominal_to_altaz n hf) = Ok h /\
     is_angle (alt h) (radians b) /\
     is_angle (az h) obj_az /\
     same_direction obj_az (radians b) (radians a) (radians b) /\
     (0 < cos (radians b) ->
        (exists k : Z, obj_az = radians a + 2 * IZR k * PI) /\
        (- PI < radians a - radians (Pointing.az pn) <= PI -> obj_az = radians a))) /\
  (* Telescope, Nominal, Telescope *)
  (forward_of (telescope_to_horizon (planar_coord tf x y) hf) pn ->
   (n <- telescope_to_nominal (planar_coord tf x y) nf ;; nominal_to_telescope n tf)
     = Ok (planar_coord tf (in_radians x) (in_radians y))) /\
  (* Nominal, Telescope, Nominal *)
  (forward_of (nominal_to_altaz (planar_coord nf x y) hf) pt ->
   (t <- nominal_to_telescope (planar_coord nf x y) tf ;; telescope_to_nominal t nf)
     = Ok (planar_coord nf (in_radians x) (in_radians y))) /\
  (* Camera, Telescope, Camera *)
  (f <> 0 ->
   (t <- camera_to_telescope (mkCoordinate cf (PlanarData position)) tf ;;
    telescope_to_camera t cf)
     = Ok (mkCoordinate cf
             (CartesianData
                (Cartesian.make (u.mkQuantity (Scalar px) u.m) (u.mkQuantity (Scalar py) u.m)
                   (u.mkQuantity (Scalar 0) u.m))))) /\
  (* Telescope, Camera, Telescope *)
  (f <> 0 ->
   (c <- telescope_to_camera (planar_coord tf x y) cf ;; camera_to_telescope c tf)
     = Ok (planar_coord tf (in_radians x) (in_radians y))).
Proof.
  cbv zeta.
  split; [apply telescope_horizon_telescope|].
  split; [apply nominal_horizon_nominal|].
  split; [apply horizon_telescope_horizon|].
  split; [apply horizon_nominal_horizon|].
  split; [apply telescope_nominal_telescope|].
  split; [apply nominal_telescope_nominal|].
  split; [apply camera_telescope_camera|].
  apply telescope_camera_telescope.
Qed.

(** C1 (as stated) fails, in two ways.  In binary64, with a mathematical
    library that rounds the cosine and the sine of 8 degrees correctly and a
    telescope that points at azimuth 0 deg and altitude 8 deg: the offset
    (0, 0) goes to the Horizon frame as the pointing, and the way back
    projects the pointing about itself and returns the offsets (NaN, NaN).
    And in exact arithmetic, at the zenith: the direction at azimuth 1 rad
    and altitude pi/2, seen from a telescope that points to the zenith with
    azimuth 0, has the offset (0, 0); the way back returns the pointing, and
    so the azimuth 0, one radian away from the azimuth that was given. *)
Lemma round_trip_misses_the_input :
  (forall lm : Libm,
     c_library lm ->
     let NT := float_numeric lm in
     let pt := Pointing.make (u.mkQuantity 0%float u.deg) (u.mkQuantity 8%float u.deg) in
     let tf := TelescopeFrame.make (Some pt) in
     let offset v := u.mkQuantity (Scalar v) u.rad in
     (h <- telescope_to_horizon
             (mkCoordinate tf (Planar.make (offset 0%float) (offset 0%float)))
             HorizonFrame.make ;;
      horizon_to_telescope h tf)
     = Ok (mkCoordinate tf (Planar.make (offset nan) (offset nan)))) /\
  c_library library_table /\
  (let a := u.mkQuantity 1 u.rad in
   let b := u.mkQuantity (PI / 2) u.rad in
   let pt := Pointing.make (u.mkQuantity 0 u.rad) (u.mkQuantity (PI / 2) u.rad) in
   let tf := TelescopeFrame.make (Some pt) in
   forward (radians a) (radians b) (radians (Pointing.az pt)) (radians (Pointing.alt pt)) /\
   exists h,
     (t <- horizon_to_telescope (horizon_coord HorizonFrame.make a b) tf ;;
      telescope_to_horizon t HorizonFrame.make) = Ok h /\
     is_angle (alt h) (PI / 2) /\
     is_angle (az h) 0 /\
     1e-9 < Rabs (0 - radians a)).
Proof.
  split; [exact telescope_horizon_telescope_at_the_pointing|].
  split; [exact c_library_table|].

  cbv zeta.
  change (radians (u.mkQuantity 1 u.rad)) with 1.
  change (radians (u.mkQuantity (PI / 2) u.rad)) with (PI / 2).
  cbn [Pointing.az Pointing.alt].
  change (radians (u.mkQuantity 0 u.rad)) with 0.
  change (radians (u.mkQuantity (PI / 2) u.rad)) with (PI / 2).
  split.
  { unfold forward. rewrite sin_PI2, cos_PI2. lra. }
  rewrite horizon_to_telescope_scalar, altaz_to_offset_scalar.
  cbn [Pointing.az Pointing.alt].
  change (radians (u.mkQuantity 1 u.rad)) with 1.
  change (radians (u.mkQuantity (PI / 2) u.rad)) with (PI / 2).
  change (radians (u.mkQuantity 0 u.rad)) with 0.
  assert (Hv : rotate_altitude (PI / 2) (local_vector (1 - 0) (PI / 2)) = (0, 0, 1)).
  { unfold rotate_altitude, local_vector. rewrite sin_PI2, cos_PI2. vec_eq; ring. }
  rewrite Hv, tangent_projection_unit by (unfold norm_sq; lra).
  unfold telescope_to_horizon, getattr.
  cbn [bind frame data TelescopeFrame.telescope_pointing Planar.x Planar.y
       Pointing.az Pointing.alt].
  change (u.times (Scalar (0 / 1)) u.rad) with (u.lift (u.mkQuantity (0 / 1) u.rad)).
  rewrite offset_to_altaz_at_zero
    by (change (0 / 1 = 0); field).
  eexists. split; [reflexivity|].
  unfold az, alt. cbn [data UnitSpherical.lon UnitSpherical.lat].
  split; [apply is_angle_to|]. split; [apply is_angle_to|].
  unfold Rabs. destruct (Rcase_abs (0 - 1)); lra.
Qed.

(** C1's theorem at directions and offsets a tenth of a radian off the
    pointings, with the two pointings half a radian apart and the camera
    rotated by half a radian: the hypotheses of every round trip are met,
    and every round trip returns what it was given. *)
Lemma frame_round_trips_witness :
  let x := u.mkQuantity (1 / 10) u.rad in
  let y := u.mkQuantity 0 u.rad in
  let a := u.mkQuantity (1 / 10) u.rad in
  let b := u.mkQuantity (1 / 5) u.rad in
  let pt := Pointing.make (u.mkQuantity 0 u.rad) (u.mkQuantity 0 u.rad) in
  let pn := Pointing.make (u.mkQuantity 0 u.rad) (u.mkQuantity (1 / 2) u.rad) in
  let hf := HorizonFrame.make in
  let tf := TelescopeFrame.make (Some pt) in
  let nf := NominalFrame.make (Some pn) in
  let cf := CameraFrame.make (u.mkQuantity 28 u.m) (u.mkQuantity (1 / 2) u.rad) None in
  let position :=
    Planar.make (u.mkQuantity (Scalar 1) u.m) (u.mkQuantity (Scalar 2) u.m) in
  (* the hypotheses *)
  (forward (radians a) (radians b) (radians (Pointing.az pt)) (radians (Pointing.alt pt)) /\
   forward (radians a) (radians b) (radians (Pointing.az pn)) (radians (Pointing.alt pn)) /\
   forward_of (telescope_to_horizon (planar_coord tf x y) hf) pn /\
   forward_of (nominal_to_altaz (planar_coord nf x y) hf) pt) /\
  (* Telescope, Horizon, Telescope and Nominal, Horizon, Nominal *)
  (h <- telescope_to_horizon (planar_coord tf x y) hf ;; horizon_to_telescope h tf)
    = Ok (planar_coord tf (in_radians x) (in_radians y)) /\
  (h <- nominal_to_altaz (planar_coord nf x y) hf ;; altaz_to_nominal h nf)
    = Ok (planar_coord nf (in_radians x) (in_radians y)) /\
  (* Horizon, Telescope, Horizon and Horizon, Nominal, Horizon *)
  (exists h,
     (t <- horizon_to_telescope (horizon_coord hf a b) tf ;; telescope_to_horizon t hf) = Ok h /\
     is_angle (alt h) (radians b) /\ is_angle (az h) (radians a)) /\
  (exists h,
     (n <- altaz_to_nominal (horizon_coord hf a b) nf ;; nominal_to_altaz n hf) = Ok h /\
     is_angle (alt h) (radians b) /\ is_angle (az h) (radians a)) /\
  (* Telescope, Nominal, Telescope and Nominal, Telescope, Nominal *)
  (n <- telescope_to_nominal (planar_coord tf x y) nf ;; nominal_to_telescope n tf)
    = Ok (planar_coord tf (in_radians x) (in_radians y)) /\
  (t <- nominal_to_telescope (planar_coord nf x y) tf ;; telescope_to_nominal t nf)
    = Ok (planar_coord nf (in_radians x) (in_radians y)) /\
  (* Camera, Telescope, Camera and Telescope, Camera, Telescope *)
  (t <- camera_to_telescope (mkCoordinate cf (PlanarData position)) tf ;;
   telescope_to_camera t cf)
    = Ok (mkCoordinate cf
            (CartesianData
               (Cartesian.make (u.mkQuantity (Scalar 1) u.m) (u.mkQuantity (Scalar 2) u.m)
                  (u.mkQuantity (Scalar 0) u.m)))) /\
  (c <- telescope_to_camera (planar_coord tf x y) cf ;; camera_to_telescope c tf)
    = Ok (planar_coord tf (in_radians x) (in_radians y)).
Proof.
  cbv zeta.
  pose proof PI2_1 as Hpi. pose proof PI_4 as Hpi4. pose proof atan_tenth as Hatan.
  set (x := u.mkQuantity (1 / 10) u.rad). set (y := u.mkQuantity 0 u.rad).
  set (b := u.mkQuantity (1 / 5) u.rad).
  set (pt := Pointing.make y y).
  set (pn := Pointing.make y (u.mkQuantity (1 / 2) u.rad)).
  assert (Ex : radians x = 1 / 10) by reflexivity.
  assert (Ey : radians y = 0) by reflexivity.
  assert (Eb : radians b = 1 / 5) by reflexivity.
  assert (En : radians (u.mkQuantity (1 / 2) u.rad) = 1 / 2) by reflexivity.
  assert (Hcos : forall r, - 1 < r < 1 -> 0 < cos r).
  { intros r Hr. apply cos_gt_0; lra. }
  assert (Hsin : forall r, 0 < r < 1 -> 0 < sin r).
  { intros r Hr. apply sin_gt_0; lra. }
  assert (F1 : forward (radians x) (radians b) (radians (Pointing.az pt))
                 (radians (Pointing.alt pt))).
  { unfold forward. cbn [Pointing.az Pointing.alt pt]. rewrite Ex, Ey, Eb, sin_0, cos_0.
    pose proof (Hcos (1 / 5)). pose proof (Hcos (1 / 10 - 0)). nra. }
  assert (F2 : forward (radians x) (radians b) (radians (Pointing.az pn))
                 (radians (Pointing.alt pn))).
  { unfold forward. cbn [Pointing.az Pointing.alt pn]. rewrite Ex, Ey, Eb, En.
    pose proof (Hcos (1 / 5)). pose proof (Hcos (1 / 10 - 0)). pose proof (Hcos (1 / 2)).
    pose proof (Hsin (1 / 5)). pose proof (Hsin (1 / 2)).
    assert (0 < sin (1 / 2) * sin (1 / 5)) by (apply Rmult_lt_0_compat; lra).
    assert (0 < cos (1 / 2) * cos (1 / 5) * cos (1 / 10 - 0))
      by (repeat apply Rmult_lt_0_compat; lra).
    lra. }
  assert (F3 : forward_of (telescope_to_horizon
                             (planar_coord (TelescopeFrame.make (Some pt)) x y)
                             HorizonFrame.make) pn).
  { unfold forward_of. rewrite telescope_to_horizon_scalar.
    cbn [Pointing.az Pointing.alt pt].
    change (u.lift y) with (scalar_angle 0 u.rad).
    rewrite offset_along_x by (rewrite Ex, Ey; lra).
    eexists _, (radians y), (radians y + atan (radians x)).
    split; [reflexivity|].
    split; [apply is_angle_to|]. split; [apply is_angle_to|].
    unfold forward. cbn [Pointing.az Pointing.alt pn]. rewrite Ex, Ey, En.
    replace (0 - 0) with 0 by ring. rewrite cos_0.
    pose proof (Hcos (1 / 2)). pose proof (Hsin (1 / 2)).
    pose proof (Hcos (0 + atan (1 / 10))). pose proof (Hsin (0 + atan (1 / 10))).
    assert (0 < sin (1 / 2) * sin (0 + atan (1 / 10)))
      by (apply Rmult_lt_0_compat; lra).
    assert (0 < cos (1 / 2) * cos (0 + atan (1 / 10)) * 1)
      by (repeat apply Rmult_lt_0_compat; lra).
    lra. }
  assert (F4 : forward_of (nominal_to_altaz
                             (planar_coord (NominalFrame.make (Some pn)) x y)
                             HorizonFrame.make) pt).
  { unfold forward_of. rewrite nominal_to_altaz_scalar.
    cbn [Pointing.az Pointing.alt pn].
    change (u.lift y) with (scalar_angle 0 u.rad).
    rewrite offset_along_x by (rewrite Ex, En; lra).
    eexists _, (radians y), (radians (u.mkQuantity (1 / 2) u.rad) + atan (radians x)).
    split; [reflexivity|].
    split; [apply is_angle_to|]. split; [apply is_angle_to|].
    unfold forward. cbn [Pointing.az Pointing.alt pt]. rewrite Ex, Ey, En.
    replace (0 - 0) with 0 by ring. rewrite sin_0, cos_0.
    assert (0 < cos (1 / 2 + atan (1 / 10))) by (apply cos_gt_0; lra).
    lra. }
  assert (Vb : valid_altitude (radians b)) by (unfold valid_altitude; rewrite Eb; lra).
  assert (Vt : valid_altitude (radians (Pointing.alt pt)))
    by (unfold valid_altitude; cbn [Pointing.alt pt]; rewrite Ey; lra).
  assert (Vn : valid_altitude (radians (Pointing.alt pn)))
    by (unfold valid_altitude; cbn [Pointing.alt pn]; rewrite En; lra).
  assert (Hcb : 0 < cos (radians b)) by (rewrite Eb; apply Hcos; lra).
  destruct (frame_round_trips x y x b pt pn HorizonFrame.make 1 2 28 (1 / 2) None)
    as (H1 & H2 & H3 & H4 & H5 & H6 & H7 & H8).
  split; [auto|].
  split; [exact H1|]. split; [exact H2|].
  split.
  { destruct (H3 F1 Vb Vt) as (h & obj_az & Hh & Halt & Haz & _ & Hrec).
    exists h. split; [exact Hh|]. split; [exact Halt|].
    destruct (Hrec Hcb) as [_ Hexact]. rewrite <- Hexact; [exact Haz|].
    cbn [Pointing.az pt]. rewrite Ex, Ey. lra. }
  split.
  { destruct (H4 F2 Vb Vn) as (h & obj_az & Hh & Halt & Haz & _ & Hrec).
    exists h. split; [exact Hh|]. split; [exact Halt|].
    destruct (Hrec Hcb) as [_ Hexact]. rewrite <- Hexact; [exact Haz|].
    cbn [Pointing.az pn]. rewrite Ex, Ey. lra. }
  split; [exact (H5 F3)|]. split; [exact (H6 F4)|].
  split; [apply H7; lra | apply H8; lra].
Defined.

(** ** Arrays *)

(** C8.  In any arithmetic.  Applied to array inputs, each kernel and each
    registered transform returns, at every position [i], what the call on
    element [i] of the inputs returns (a scalar input is broadcast); and it
    raises exactly when that call raises.  The offsets of zero magnitude need
    no separate case: they are patched position by position. *)
Theorem array_call_is_elementwise {T : Type} {NT : Numeric T} (i : nat) :
  (forall (obj_azimuth obj_altitude a b : u.Quantity (NDArray T) u.AngleUnit)
          (azimuth altitude : u.Quantity T u.AngleUnit),
     pick_quantity obj_azimuth i = Some a ->
     pick_quantity obj_altitude i = Some b ->
     let '(X, Y) := altaz_to_offset obj_azimuth obj_altitude azimuth altitude in
     let '(x, y) := altaz_to_offset a b azimuth altitude in
     np.pick X i = Some x /\ np.pick Y i = Some y) /\
  (forall (x_off y_off a b : u.Quantity (NDArray T) u.AngleUnit)
          (altitude azimuth : u.Quantity T u.AngleUnit),
     pick_quantity x_off i = Some a ->
     pick_quantity y_off i = Some b ->
     let '(obj_altitudes, obj_azimuths) := offset_to_altaz x_off y_off altitude azimuth in
     let '(obj_altitude, obj_azimuth) := offset_to_altaz a b altitude azimuth in
     pick_quantity obj_altitudes i = Some obj_altitude /\
     pick_quantity obj_azimuths i = Some obj_azimuth) /\
  (forall (c c_i : AnyCoord) (f : AnyFrame),
     pick_coord c i = Some c_i ->
     agree_at i (frame_transform_graph c f) (frame_transform_graph c_i f)).
Proof.
  split; [|split].
  - intros obj_azimuth obj_altitude a b azimuth altitude Ha Hb.
    pose proof (altaz_to_offset_pick _ _ _ _ azimuth altitude i Ha Hb) as H.
    destruct (altaz_to_offset obj_azimuth _ _ _), (altaz_to_offset a _ _ _). exact H.
  - intros x_off y_off a b altitude azimuth Ha Hb.
    pose proof (offset_to_altaz_pick _ _ _ _ altitude azimuth i Ha Hb) as H.
    destruct (offset_to_altaz x_off _ _ _), (offset_to_altaz a _ _ _). exact H.
  - intros c c_i f H.
    destruct c as [c|c|c|c]; simpl in H;
      match type of H with
      | option_map _ ?p = _ => destruct p as [c'|] eqn:E; [|discriminate]
      end;
      simpl in H; injection H as <-;
      destruct f as [f|f|f|f]; simpl frame_transform_graph; try exact I.
    + apply horizon_to_telescope_pick; assumption.
    + apply altaz_to_nominal_pick; assumption.
    + apply telescope_to_horizon_pick; assumption.
    + apply telescope_to_nominal_pick; assumption.
    + apply telescope_to_camera_pick; assumption.
    + apply nominal_to_altaz_pick; assumption.
    + apply nominal_to_telescope_pick; assumption.
    + apply camera_to_telescope_pick; assumption.
Qed.

(** The hypotheses of C8's theorem can be met: an array of two offsets, the
    first of magnitude zero and the second not, at position 0. *)
Lemma array_call_is_elementwise_witness :
  let xs := u.mkQuantity (Array [0; 1 / 10]) u.rad in
  let ys := u.mkQuantity (Array [0; 0]) u.rad in
  let altitude := u.mkQuantity (6 / 5) u.rad in
  let azimuth := u.mkQuantity 0 u.rad in
  let '(obj_altitudes, obj_azimuths) := offset_to_altaz xs ys altitude azimuth in
  let '(obj_altitude, obj_azimuth) :=
    offset_to_altaz (scalar_angle 0 u.rad) (scalar_angle 0 u.rad) altitude azimuth in
  pick_quantity obj_altitudes 0 = Some obj_altitude /\
  pick_quantity obj_azimuths 0 = Some obj_azimuth.
Proof.
  exact (proj1 (proj2 (array_call_is_elementwise 0%nat))
           (u.mkQuantity (Array [0; 1 / 10]) u.rad) (u.mkQuantity (Array [0; 0]) u.rad)
           (scalar_angle 0 u.rad) (scalar_angle 0 u.rad)
           (u.mkQuantity (6 / 5) u.rad) (u.mkQuantity 0 u.rad) eq_refl eq_refl).
Defined.

(** * Further properties of the kernels and the transforms *)

(** ** Symmetries of [altaz_to_offset] *)

Lemma cos_turns (x : R) (k : Z) : cos (x + 2 * IZR k * PI) = cos x.
Proof.
  destruct (Z_le_gt_dec 0 k) as [Hk|Hk].
  - rewrite <- (Z2Nat.id k Hk), <- INR_IZR_INZ. apply cos_period.
  - rewrite <- (cos_period (x + 2 * IZR k * PI) (Z.to_nat (- k))).
    rewrite INR_IZR_INZ, Z2Nat.id by lia. rewrite opp_IZR. f_equal. ring.
Qed.

Lemma sin_turns (x : R) (k : Z) : sin (x + 2 * IZR k * PI) = sin x.
Proof.
  destruct (Z_le_gt_dec 0 k) as [Hk|Hk].
  - rewrite <- (Z2Nat.id k Hk), <- INR_IZR_INZ. apply sin_period.
  - rewrite <- (sin_period (x + 2 * IZR k * PI) (Z.to_nat (- k))).
    rewrite INR_IZR_INZ, Z2Nat.id by lia. rewrite opp_IZR. f_equal. ring.
Qed.

Lemma local_vector_turns (d alt : R) (k : Z) :
  local_vector (d + 2 * IZR k * PI) alt = local_vector d alt.
Proof. unfold local_vector. rewrite cos_turns, sin_turns. reflexivity. Qed.

Lemma local_vector_mirror (d alt : R) :
  local_vector (- d) alt = (let '(x, y, z) := local_vector d alt in (x, - y, z)).
Proof.
  unfold local_vector. rewrite cos_neg, sin_neg. vec_eq; ring.
Qed.

Lemma local_vector_antipode (d alt : R) :
  local_vector (d + PI) (- alt) =
  (let '(x, y, z) := local_vector d alt in (- x, - y, - z)).
Proof.
  unfold local_vector. rewrite neg_cos, neg_sin, cos_neg, sin_neg. vec_eq; ring.
Qed.

Lemma rotate_altitude_mirror alt x y z :
  rotate_altitude alt (x, - y, z) =
  (let '(x1, y1, z1) := rotate_altitude alt (x, y, z) in (x1, - y1, z1)).
Proof. reflexivity. Qed.

Lemma rotate_altitude_opp alt x y z :
  rotate_altitude alt (- x, - y, - z) =
  (let '(x1, y1, z1) := rotate_altitude alt (x, y, z) in (- x1, - y1, - z1)).
Proof. unfold rotate_altitude. vec_eq; ring. Qed.

Lemma sqrt_sum_sq_pos x y : sqrt (x * x + y * y) <> 0 -> 0 < sqrt (x * x + y * y).
Proof. intros H. pose proof (sqrt_pos (x * x + y * y)). lra. Qed.

(** The angle of the mirrored point and of the opposite point. *)
Lemma Ratan2_mirror x y :
  cos (Ratan2 (- y) x) = cos (Ratan2 y x) /\ sin (Ratan2 (- y) x) = - sin (Ratan2 y x).
Proof.
  destruct (Req_dec_T (sqrt (x * x + y * y)) 0) as [E|N].
  - apply sqrt_sum_sq_0 in E. destruct E as [-> ->].
    rewrite Ropp_0. unfold Ratan2.
    destruct (Rlt_dec 0 0); [lra|]. rewrite sin_0. split; [reflexivity|ring].
  - apply sqrt_sum_sq_pos in N.
    destruct (Ratan2_polar x y) as [Hc Hs].
    destruct (Ratan2_polar x (- y)) as [Hc' Hs'].
    replace (x * x + - y * - y) with (x * x + y * y) in * by ring.
    set (rho := sqrt (x * x + y * y)) in *.
    split; apply (Rmult_eq_reg_l rho); lra.
Qed.

Lemma Ratan2_opp x y :
  sqrt (x * x + y * y) <> 0 ->
  cos (Ratan2 (- y) (- x)) = - cos (Ratan2 y x) /\
  sin (Ratan2 (- y) (- x)) = - sin (Ratan2 y x).
Proof.
  intros N. apply sqrt_sum_sq_pos in N.
  destruct (Ratan2_polar x y) as [Hc Hs].
  destruct (Ratan2_polar (- x) (- y)) as [Hc' Hs'].
  replace (- x * - x + - y * - y) with (x * x + y * y) in * by ring.
  set (rho := sqrt (x * x + y * y)) in *.
  split; apply (Rmult_eq_reg_l rho); lra.
Qed.

Lemma tan_acos_opp z : tan (acos (- z)) = - tan (acos z).
Proof.
  rewrite acos_opp. unfold tan.
  rewrite sin_PI_x. unfold Rminus. rewrite Rplus_comm, neg_cos, cos_neg.
  apply Rdiv_opp_r.
Qed.

Lemma tangent_projection_mirror x y z :
  tangent_projection (x, - y, z) =
  (let '(a, b) := tangent_projection (x, y, z) in (a, - b)).
Proof.
  unfold tangent_projection. destruct (Ratan2_mirror x y) as [-> ->].
  f_equal. ring.
Qed.

Lemma tangent_projection_opp x y z :
  norm_sq (x, y, z) = 1 ->
  tangent_projection (- x, - y, - z) = tangent_projection (x, y, z).
Proof.
  unfold norm_sq. intros Hn.
  destruct (Req_dec_T (sqrt (x * x + y * y)) 0) as [E|N].
  - apply sqrt_sum_sq_0 in E. destruct E as [-> ->].
    assert (z = 1 \/ z = Ropp 1) as [-> | ->].
    { assert ((z - 1) * (z + 1) = 0) as H by lra.
      apply Rmult_integral in H. destruct H; [left|right]; lra. }
    + unfold tangent_projection. rewrite acos_opp, acos_1, Rminus_0_r, tan_PI, tan_0.
      f_equal; ring.
    + unfold tangent_projection.
      rewrite Ropp_involutive, acos_opp, acos_1, Rminus_0_r, tan_PI, tan_0.
      f_equal; ring.
  - unfold tangent_projection. rewrite tan_acos_opp.
    destruct (Ratan2_opp x y N) as [-> ->]. f_equal; ring.
Qed.

(** X2.  [altaz_to_offset] does not tell a direction from its antipode: the
    target at azimuth [a + pi] and altitude [- b] gets the offsets of the
    target at [(a, b)].  A target behind the reference raises nothing and is
    returned as if it were in front. *)
Theorem antipode_has_the_same_offset (a b a' b' az alt : u.Quantity R u.AngleUnit) :
  radians a' = radians a + PI ->
  radians b' = - radians b ->
  altaz_to_offset (u.lift a') (u.lift b') az alt =
  altaz_to_offset (u.lift a) (u.lift b) az alt.
Proof.
  intros Ha Hb. rewrite !altaz_to_offset_scalar, Ha, Hb.
  replace (radians a + PI - radians az) with (radians a - radians az + PI) by ring.
  rewrite local_vector_antipode.
  pose proof (local_vector_unit (radians a - radians az) (radians b)) as Hn.
  destruct (local_vector (radians a - radians az) (radians b)) as [[x y] z].
  rewrite rotate_altitude_opp.
  pose proof (rotate_altitude_norm (radians alt) (x, y, z)) as Hr. rewrite Hn in Hr.
  destruct (rotate_altitude (radians alt) (x, y, z)) as [[x1 y1] z1].
  rewrite tangent_projection_opp by exact Hr. reflexivity.
Qed.

Lemma antipode_has_the_same_offset_witness :
  altaz_to_offset (u.lift (u.mkQuantity 190 u.deg)) (u.lift (u.mkQuantity (- 20) u.deg))
    (u.mkQuantity 0 u.deg) (u.mkQuantity 70 u.deg) =
  altaz_to_offset (u.lift (u.mkQuantity 10 u.deg)) (u.lift (u.mkQuantity 20 u.deg))
    (u.mkQuantity 0 u.deg) (u.mkQuantity 70 u.deg).
Proof.
  apply antipode_has_the_same_offset;
    unfold radians, u.number_to_value; simpl; lra.
Defined.

(** X3.  [altaz_to_offset] reads the two azimuths only through their
    difference, and that only up to whole turns: targets and references
    whose azimuth differences agree up to a multiple of [2 pi], at the same
    altitudes, get the same offsets, in whatever units they are given. *)
Theorem offset_depends_on_azimuth_difference
    (a b az alt a' b' az' alt' : u.Quantity R u.AngleUnit) (k : Z) :
  radians a' - radians az' = radians a - radians az + 2 * IZR k * PI ->
  radians b' = radians b ->
  radians alt' = radians alt ->
  altaz_to_offset (u.lift a') (u.lift b') az' alt' =
  altaz_to_offset (u.lift a) (u.lift b) az alt.
Proof.
  intros Hd Hb Halt. rewrite !altaz_to_offset_scalar, Hd, Hb, Halt.
  rewrite local_vector_turns. reflexivity.
Qed.

Lemma offset_depends_on_azimuth_difference_witness :
  altaz_to_offset (u.lift (u.mkQuantity 400 u.deg)) (u.lift (u.mkQuantity 60 u.deg))
    (u.mkQuantity 30 u.deg) (u.mkQuantity 70 u.deg) =
  altaz_to_offset (u.lift (u.mkQuantity (PI / 18) u.rad)) (u.lift (u.mkQuantity (PI / 3) u.rad))
    (u.mkQuantity 0 u.rad) (u.mkQuantity 70 u.deg).
Proof.
  apply (offset_depends_on_azimuth_difference _ _ _ _ _ _ _ _ 1%Z);
    unfold radians, u.number_to_value; simpl; lra.
Defined.

(** X4.  [altaz_to_offset] is symmetric about the meridian of the
    reference: the target on the other side of the reference azimuth, at the
    same altitude, has the same [x] offset and the opposite [y] offset. *)
Theorem mirrored_target_has_mirrored_offset (a a' b az alt : u.Quantity R u.AngleUnit) :
  radians a' - radians az = - (radians a - radians az) ->
  exists x y,
    altaz_to_offset (u.lift a) (u.lift b) az alt = (Scalar x, Scalar y) /\
    altaz_to_offset (u.lift a') (u.lift b) az alt = (Scalar x, Scalar (- y)).
Proof.
  intros Hd. rewrite !altaz_to_offset_scalar, Hd, local_vector_mirror.
  destruct (local_vector (radians a - radians az) (radians b)) as [[x0 y0] z0].
  rewrite rotate_altitude_mirror.
  destruct (rotate_altitude (radians alt) (x0, y0, z0)) as [[x1 y1] z1].
  rewrite tangent_projection_mirror.
  destruct (tangent_projection (x1, y1, z1)) as [x y].
  exists x, y. split; reflexivity.
Qed.

Lemma mirrored_target_has_mirrored_offset_witness :
  exists x y,
    altaz_to_offset (u.lift (u.mkQuantity 40 u.deg)) (u.lift (u.mkQuantity 60 u.deg))
      (u.mkQuantity 30 u.deg) (u.mkQuantity 70 u.deg) = (Scalar x, Scalar y) /\
    altaz_to_offset (u.lift (u.mkQuantity 20 u.deg)) (u.lift (u.mkQuantity 60 u.deg))
      (u.mkQuantity 30 u.deg) (u.mkQuantity 70 u.deg) = (Scalar x, Scalar (- y)).
Proof.
  apply mirrored_target_has_mirrored_offset.
  unfold radians, u.number_to_value; simpl; lra.
Defined.

(** ** What [offset_to_altaz] returns *)

(** X5.  About a reference with an altitude in [[-pi/2, pi/2]],
    [offset_to_altaz] returns, for every offset, an altitude in
    [[-pi/2, pi/2]] and an azimuth within half a turn of the reference
    azimuth (in [(az - pi, az + pi]]), told in the unit of the reference
    azimuth. *)
Theorem offset_to_altaz_result_in_range (x y alt az : u.Quantity R u.AngleUnit) :
  valid_altitude (radians alt) ->
  exists obj_alt obj_az,
    offset_to_altaz (u.lift x) (u.lift y) alt az =
      (u.to (scalar_angle obj_alt u.rad) (u.unit az),
       u.to (scalar_angle obj_az u.rad) (u.unit az)) /\
    valid_altitude obj_alt /\
    - PI < obj_az - radians az <= PI.
Proof.
  intros Halt.
  destruct (offset_to_altaz_direction x y alt az)
    as (obj_alt & obj_az & Heq & _ & Hzero & Hnonzero).
  exists obj_alt, obj_az. split; [exact Heq|].
  destruct (Req_dec_T (sqrt (radians x * radians x + radians y * radians y)) 0) as [E|N].
  - destruct (Hzero E) as [-> ->]. split; [exact Halt|].
    pose proof PI_RGT_0. lra.
  - destruct (Hnonzero N) as [Ha Hz]. split; [exact Ha | exact Hz].
Qed.

Lemma offset_to_altaz_result_in_range_witness :
  exists obj_alt obj_az,
    offset_to_altaz (u.lift (u.mkQuantity 1 u.deg)) (u.lift (u.mkQuantity 2 u.deg))
      (u.mkQuantity 0 u.deg) (u.mkQuantity 350 u.deg) =
      (u.to (scalar_angle obj_alt u.rad) u.deg, u.to (scalar_angle obj_az u.rad) u.deg) /\
    valid_altitude obj_alt /\
    - PI < obj_az - radians (u.mkQuantity 350 u.deg) <= PI.
Proof.
  apply (offset_to_altaz_result_in_range (u.mkQuantity 1 u.deg) (u.mkQuantity 2 u.deg)
           (u.mkQuantity 0 u.deg) (u.mkQuantity 350 u.deg)).
  unfold valid_altitude, radians, u.number_to_value. simpl.
  pose proof PI_RGT_0. lra.
Defined.

(** X6.  The [x] offset runs along the altitude: about the reference
    [(alt, az)], the offset [(x, 0)] is returned as the altitude
    [alt + atan x] at the azimuth of the reference, as long as that altitude
    stays short of the poles. *)
Theorem x_offset_moves_altitude (x alt az : u.Quantity R u.AngleUnit) (uy : u.AngleUnit) :
  - (PI / 2) < radians alt + atan (radians x) < PI / 2 ->
  offset_to_altaz (u.lift x) (scalar_angle 0 uy) alt az =
  (u.to (scalar_angle (radians alt + atan (radians x)) u.rad) (u.unit az),
   u.to (scalar_angle (radians az) u.rad) (u.unit az)).
Proof. exact (offset_along_x x alt az uy). Qed.

Lemma x_offset_moves_altitude_witness :
  offset_to_altaz (u.lift (u.mkQuantity 1 u.rad)) (scalar_angle 0 u.rad)
    (u.mkQuantity 0 u.rad) (u.mkQuantity 2 u.rad) =
  (u.to (scalar_angle (radians (u.mkQuantity 0 u.rad) + atan (radians (u.mkQuantity 1 u.rad)))
           u.rad) u.rad,
   u.to (scalar_angle (radians (u.mkQuantity 2 u.rad)) u.rad) u.rad).
Proof.
  apply (x_offset_moves_altitude (u.mkQuantity 1 u.rad) (u.mkQuantity 0 u.rad)
           (u.mkQuantity 2 u.rad) u.rad).
  unfold radians, u.number_to_value. simpl.
  pose proof (atan_bound 1). lra.
Defined.

(** X7.  The [y] offset runs along the azimuth: about a reference
    [(alt, az)] short of the poles, the offset [(0, y)] is returned at the
    azimuth [az + atan (y / cos alt)] and at the altitude
    [asin (sin alt / sqrt (1 + y^2))]. *)
Theorem y_offset_moves_azimuth (y alt az : u.Quantity R u.AngleUnit) (ux : u.AngleUnit) :
  - (PI / 2) < radians alt < PI / 2 ->
  offset_to_altaz (scalar_angle 0 ux) (u.lift y) alt az =
  (u.to (scalar_angle (asin (sin (radians alt) / sqrt (1 + (radians y)²))) u.rad) (u.unit az),
   u.to (scalar_angle (atan (radians y / cos (radians alt)) + radians az) u.rad) (u.unit az)).
Proof.
  intros Hb.
  change (scalar_angle 0 ux) with (u.lift (u.mkQuantity 0 ux)).
  rewrite offset_to_altaz_scalar. cbv zeta. rewrite radians_zero.
  set (vy := radians y) in *. set (valt := radians alt) in *.
  assert (Hc : 0 < cos valt) by (apply cos_gt_0; lra).
  unfold Reqb. destruct (Req_dec_T (sqrt (0 * 0 + vy * vy)) 0) as [E|N].
  - apply sqrt_sum_sq_0 in E. destruct E as [_ E]. rewrite E.
    replace (1 + 0²) with 1 by (unfold Rsqr; ring). rewrite sqrt_1.
    replace (sin valt / 1) with (sin valt) by field.
    rewrite asin_sin by lra.
    replace (0 / cos valt) with 0 by (field; lra).
    rewrite atan_0, Rplus_0_l. reflexivity.
  - pose proof (unprojection 0 vy N) as Hu. cbv zeta in Hu. rewrite Hu.
    unfold offset_vector, unrotate_altitude.
    replace (1 + (0 * 0 + vy * vy)) with (1 + vy²) by (unfold Rsqr; ring).
    pose proof (sqrt_1_sq_pos vy) as Hn. set (n := sqrt (1 + vy²)) in *.
    replace (cos valt * (0 / n) + sin valt * (1 / n)) with (sin valt / n) by (field; lra).
    replace (- (sin valt * (0 / n) - cos valt * (1 / n))) with (cos valt / n) by (field; lra).
    rewrite Ratan2_right by (apply Rdiv_lt_0_compat; lra).
    replace (vy / n / (cos valt / n)) with (vy / cos valt) by (field; lra).
    reflexivity.
Qed.

Lemma y_offset_moves_azimuth_witness :
  offset_to_altaz (scalar_angle 0 u.rad) (u.lift (u.mkQuantity 1 u.rad))
    (u.mkQuantity 1 u.rad) (u.mkQuantity 2 u.rad) =
  (u.to (scalar_angle (asin (sin (radians (u.mkQuantity 1 u.rad)) /
                             sqrt (1 + (radians (u.mkQuantity 1 u.rad))²))) u.rad) u.rad,
   u.to (scalar_angle (atan (radians (u.mkQuantity 1 u.rad) /
                             cos (radians (u.mkQuantity 1 u.rad))) +
                       radians (u.mkQuantity 2 u.rad)) u.rad) u.rad).
Proof.
  apply (y_offset_moves_azimuth (u.mkQuantity 1 u.rad) (u.mkQuantity 1 u.rad)
           (u.mkQuantity 2 u.rad) u.rad).
  unfold radians, u.number_to_value. simpl.
  pose proof PI2_3_2. pose proof PI_RGT_0. lra.
Defined.

(** ** The offsets of forward targets *)

(** X9.  In exact arithmetic, the length of the offset is the tangent of
    the angular distance: for a target in the forward hemisphere, other than
    the reference itself, the offsets [(x, y)] of [altaz_to_offset] have
    [sqrt (x^2 + y^2) = tan d], where [d] is the angle between target and
    reference, given by its cosine
    [sin alt sin b + cos alt cos b cos (a - az)]. *)
Theorem offset_length_is_tangent_of_distance (a b az alt : u.Quantity R u.AngleUnit) :
  forward (radians a) (radians b) (radians az) (radians alt) ->
  sin (radians alt) * sin (radians b) +
  cos (radians alt) * cos (radians b) * cos (radians a - radians az) < 1 ->
  exists x y,
    altaz_to_offset (u.lift a) (u.lift b) az alt = (Scalar x, Scalar y) /\
    sqrt (x * x + y * y) =
    tan (acos (sin (radians alt) * sin (radians b) +
               cos (radians alt) * cos (radians b) * cos (radians a - radians az))).
Proof.
  intros Hf _. unfold forward in Hf.
  rewrite altaz_to_offset_scalar.
  pose proof (local_vector_unit (radians a - radians az) (radians b)) as Hu.
  rewrite <- (rotate_altitude_norm (radians alt)) in Hu.
  set (c := sin (radians alt) * sin (radians b) +
            cos (radians alt) * cos (radians b) * cos (radians a - radians az)) in *.
  assert (Hz : rotate_altitude (radians alt)
                 (local_vector (radians a - radians az) (radians b)) =
               (fst (fst (rotate_altitude (radians alt)
                  (local_vector (radians a - radians az) (radians b)))),
                snd (fst (rotate_altitude (radians alt)
                  (local_vector (radians a - radians az) (radians b)))), c)).
  { unfold rotate_altitude, local_vector, c. cbn [fst snd]. vec_eq; try reflexivity. ring. }
  rewrite Hz in Hu |- *.
  set (x1 := fst (fst _)) in *. set (y1 := snd (fst _)) in *.
  unfold norm_sq in Hu. unfold tangent_projection.
  exists (tan (acos c) * cos (Ratan2 y1 x1)), (tan (acos c) * sin (Ratan2 y1 x1)).
  split; [reflexivity|].
  assert (Hc1 : c <= 1) by nra.
  assert (Ht : 0 <= tan (acos c)).
  { rewrite tan_acos by lra. apply Rmult_le_pos; [apply sqrt_pos|].
    left. apply Rinv_0_lt_compat. exact Hf. }
  set (t := tan (acos c)) in *.
  replace (t * cos (Ratan2 y1 x1) * (t * cos (Ratan2 y1 x1)) +
           t * sin (Ratan2 y1 x1) * (t * sin (Ratan2 y1 x1)))
    with (t * t * (sin (Ratan2 y1 x1) * sin (Ratan2 y1 x1) +
                   cos (Ratan2 y1 x1) * cos (Ratan2 y1 x1))) by ring.
  rewrite sin_cos_sq, Rmult_1_r. apply sqrt_square. exact Ht.
Qed.

(** The theorem for the target at azimuth 1/10 rad and altitude 1/5 rad,
    about the reference at azimuth 0 and altitude 0. *)
Lemma offset_length_is_tangent_of_distance_witness :
  let a := u.mkQuantity (1 / 10) u.rad in
  let b := u.mkQuantity (1 / 5) u.rad in
  let az := u.mkQuantity 0 u.rad in
  let alt := u.mkQuantity 0 u.rad in
  (0 < sin 0 * sin (1 / 5) + cos 0 * cos (1 / 5) * cos (1 / 10 - 0) < 1) /\
  exists x y,
    altaz_to_offset (u.lift a) (u.lift b) az alt = (Scalar x, Scalar y) /\
    sqrt (x * x + y * y) =
    tan (acos (sin 0 * sin (1 / 5) + cos 0 * cos (1 / 5) * cos (1 / 10 - 0))).
Proof.
  cbv zeta.
  assert (H : 0 < sin 0 * sin (1 / 5) + cos 0 * cos (1 / 5) * cos (1 / 10 - 0) < 1).
  { pose proof PI2_1. rewrite sin_0, cos_0.
    assert (0 < cos (1 / 5)) by (apply cos_gt_0; lra).
    assert (0 < cos (1 / 10 - 0)) by (apply cos_gt_0; lra).
    assert (cos (1 / 5) < cos 0) by (apply cos_decreasing_1; lra).
    pose proof (COS_bound (1 / 10 - 0)). rewrite cos_0 in *. nra. }
  split; [exact H|].
  exact (offset_length_is_tangent_of_distance
           (u.mkQuantity (1 / 10) u.rad) (u.mkQuantity (1 / 5) u.rad)
           (u.mkQuantity 0 u.rad) (u.mkQuantity 0 u.rad) (proj1 H) (proj2 H)).
Defined.

(** ** When the transforms raise, and the frame of what they return *)

Section Outcomes.

Context {T : Type} {NT : Numeric T}.

(** X11.  A transform raises exactly when a pointing it reads is unset, and
    then it raises [AttributeError]; with the pointings set it returns, for
    every coordinate.  [horizon_to_telescope] and [telescope_to_horizon] read
    the telescope pointing, [altaz_to_nominal] and [nominal_to_altaz] the
    reference point, [telescope_to_nominal] and [nominal_to_telescope]
    both; [camera_to_telescope] and [telescope_to_camera] read neither and
    always return. *)
Theorem transform_raises_iff_pointing_unset :
  (forall c f, match horizon_to_telescope (T:=T) c f with
               | Ok _ => TelescopeFrame.telescope_pointing f <> None
               | Raise e => e = AttributeError /\ TelescopeFrame.telescope_pointing f = None
               end) /\
  (forall c f, match telescope_to_horizon (T:=T) c f with
               | Ok _ => TelescopeFrame.telescope_pointing (frame c) <> None
               | Raise e =>
                   e = AttributeError /\ TelescopeFrame.telescope_pointing (frame c) = None
               end) /\
  (forall c f, match altaz_to_nominal (T:=T) c f with
               | Ok _ => NominalFrame.reference_point f <> None
               | Raise e => e = AttributeError /\ NominalFrame.reference_point f = None
               end) /\
  (forall c f, match nominal_to_altaz (T:=T) c f with
               | Ok _ => NominalFrame.reference_point (frame c) <> None
               | Raise e => e = AttributeError /\ NominalFrame.reference_point (frame c) = None
               end) /\
  (forall c f, match telescope_to_nominal (T:=T) c f with
               | Ok _ => TelescopeFrame.telescope_pointing (frame c) <> None /\
                         NominalFrame.reference_point f <> None
               | Raise e => e = AttributeError /\
                            (TelescopeFrame.telescope_pointing (frame c) = None \/
                             NominalFrame.reference_point f = None)
               end) /\
  (forall c f, match nominal_to_telescope (T:=T) c f with
               | Ok _ => TelescopeFrame.telescope_pointing f <> None /\
                         NominalFrame.reference_point (frame c) <> None
               | Raise e => e = AttributeError /\
                            (TelescopeFrame.telescope_pointing f = None \/
                             NominalFrame.reference_point (frame c) = None)
               end) /\
  (forall c f, exists r, camera_to_telescope (T:=T) c f = Ok r) /\
  (forall c f, exists r, telescope_to_camera (T:=T) c f = Ok r).
Proof.
  repeat match goal with |- _ /\ _ => split end.
  - intros c [[p|]]; unfold horizon_to_telescope; cbn [bind getattr TelescopeFrame.telescope_pointing];
      [destruct (altaz_to_offset _ _ _ _); discriminate | auto].
  - intros [[[p|]] d] f; unfold telescope_to_horizon;
      cbn [bind getattr TelescopeFrame.telescope_pointing frame];
      [destruct (offset_to_altaz _ _ _ _); discriminate | auto].
  - intros c [[p|]]; unfold altaz_to_nominal; cbn [bind getattr NominalFrame.reference_point];
      [destruct (altaz_to_offset _ _ _ _); discriminate | auto].
  - intros [[[p|]] d] f; unfold nominal_to_altaz;
      cbn [bind getattr NominalFrame.reference_point frame];
      [destruct (offset_to_altaz _ _ _ _); discriminate | auto].
  - intros [[[p|]] d] [[q|]]; unfold telescope_to_nominal;
      cbn [bind getattr TelescopeFrame.telescope_pointing NominalFrame.reference_point frame];
      auto.
    destruct (offset_to_altaz _ _ _ _); destruct (altaz_to_offset _ _ _ _).
    split; discriminate.
  - intros [[[q|]] d] [[p|]]; unfold nominal_to_telescope;
      cbn [bind getattr TelescopeFrame.telescope_pointing NominalFrame.reference_point frame];
      auto.
    destruct (offset_to_altaz _ _ _ _); destruct (altaz_to_offset _ _ _ _).
    split; discriminate.
  - intros c f. unfold camera_to_telescope.
    destruct (u.number_is_zero _); eexists; reflexivity.
  - intros c f. unfold telescope_to_camera.
    match goal with |- context [if ?b then _ else _] => destruct b end;
      eexists; reflexivity.
Qed.

(** X12.  What a registered transform returns carries the frame it was
    asked for, with the attributes of that frame instance: the attributes
    of the source frame are not handed on. *)
Theorem result_carries_the_target_frame (c r : @AnyCoord T) (f : @AnyFrame T) :
  frame_transform_graph c f = Some (Ok r) -> frame_of r = f.
Proof.
  destruct c as [c|c|c|c], f as [f|f|f|f]; cbn [frame_transform_graph]; try discriminate;
    unfold fmap; intros H;
    match type of H with
    | Some (bind ?t _) = _ => destruct t as [r'|e] eqn:E; cbn [bind] in H; [|discriminate]
    end;
    injection H as <-; cbn [frame_of]; f_equal.
  - unfold horizon_to_telescope in E.
    destruct (TelescopeFrame.telescope_pointing f); cbn [bind getattr] in E; [|discriminate].
    destruct (altaz_to_offset _ _ _ _). injection E as <-. reflexivity.
  - unfold altaz_to_nominal in E.
    destruct (NominalFrame.reference_point f); cbn [bind getattr] in E; [|discriminate].
    destruct (altaz_to_offset _ _ _ _). injection E as <-. reflexivity.
  - unfold telescope_to_horizon in E.
    destruct (TelescopeFrame.telescope_pointing (frame c)); cbn [bind getattr] in E;
      [|discriminate].
    destruct (offset_to_altaz _ _ _ _). injection E as <-. reflexivity.
  - unfold telescope_to_nominal in E.
    destruct (TelescopeFrame.telescope_pointing (frame c)); cbn [bind getattr] in E;
      [|discriminate].
    destruct (NominalFrame.reference_point f); cbn [bind getattr] in E; [|discriminate].
    destruct (offset_to_altaz _ _ _ _). destruct (altaz_to_offset _ _ _ _).
    injection E as <-. reflexivity.
  - unfold telescope_to_camera in E.
    match type of E with context [if ?b then _ else _] => destruct b end;
      injection E as <-; reflexivity.
  - unfold nominal_to_altaz in E.
    destruct (NominalFrame.reference_point (frame c)); cbn [bind getattr] in E;
      [|discriminate].
    destruct (offset_to_altaz _ _ _ _). injection E as <-. reflexivity.
  - unfold nominal_to_telescope in E.
    destruct (TelescopeFrame.telescope_pointing f); cbn [bind getattr] in E; [|discriminate].
    destruct (NominalFrame.reference_point (frame c)); cbn [bind getattr] in E;
      [|discriminate].
    destruct (offset_to_altaz _ _ _ _). destruct (altaz_to_offset _ _ _ _).
    injection E as <-. reflexivity.
  - unfold camera_to_telescope in E.
    destruct (u.number_is_zero _); injection E as <-; reflexivity.
Qed.

(** X13.  The registered edges come in pairs and leave the Camera frame
    reachable from the Telescope frame only: there is an edge from the
    frame of [c] to [f] exactly when there is one back, no frame has an
    edge to itself, and the Camera frame has no edge with the Horizon or
    the Nominal frame. *)
Theorem registered_edges_come_in_pairs (c c' : @AnyCoord T) (f f' : @AnyFrame T) :
  kind_of c' = kind_of_frame f -> kind_of_frame f' = kind_of c ->
  (frame_transform_graph c f = None <-> frame_transform_graph c' f' = None) /\
  (kind_of c = kind_of_frame f -> frame_transform_graph c f = None) /\
  (kind_of c = Camera -> kind_of_frame f <> Telescope -> frame_transform_graph c f = None) /\
  (kind_of_frame f = Camera -> kind_of c <> Telescope -> frame_transform_graph c f = None).
Proof.
  destruct c, f, c', f'; cbn [kind_of kind_of_frame frame_transform_graph];
    intros H1 H2; try discriminate;
    (split; [split; intros H; (reflexivity || discriminate) |]);
    (split; [intros H; (reflexivity || discriminate) |]);
    split; intros H H'; (reflexivity || discriminate || (exfalso; apply H'; reflexivity)).
Qed.

End Outcomes.

Lemma result_carries_the_target_frame_witness :
  let p := Pointing.make (u.mkQuantity 0 u.rad) (u.mkQuantity 1 u.rad) in
  let tf := TelescopeFrame.make (Some p) in
  let c := horizon_coord HorizonFrame.make (u.mkQuantity (1 / 10) u.rad) (u.mkQuantity 1 u.rad) in
  exists r,
    frame_transform_graph (AHorizon c) (ATelescopeFrame tf) = Some (Ok r) /\
    frame_of r = ATelescopeFrame tf.
Proof.
  cbv zeta.
  match goal with |- exists r, ?t = _ /\ _ => destruct t as [[r|e]|] eqn:E end.
  - exists r. split; [reflexivity|]. exact (result_carries_the_target_frame _ _ _ E).
  - exfalso. cbn [frame_transform_graph] in E. rewrite horizon_to_telescope_scalar in E.
    destruct (altaz_to_offset _ _ _ _). discriminate.
  - discriminate.
Defined.

Lemma registered_edges_come_in_pairs_witness :
  let p := Pointing.make (u.mkQuantity 0 u.rad) (u.mkQuantity 1 u.rad) in
  let tf := TelescopeFrame.make (Some p) in
  let c := AHorizon (horizon_coord HorizonFrame.make (u.mkQuantity 0 u.rad) (u.mkQuantity 1 u.rad)) in
  let c' := ATelescope (planar_coord tf (u.mkQuantity 0 u.rad) (u.mkQuantity 0 u.rad)) in
  let f := ATelescopeFrame tf in
  let f' := AHorizonFrame HorizonFrame.make in
  (frame_transform_graph c f = None <-> frame_transform_graph c' f' = None) /\
  (kind_of c = kind_of_frame f -> frame_transform_graph c f = None) /\
  (kind_of c = Camera -> kind_of_frame f <> Telescope -> frame_transform_graph c f = None) /\
  (kind_of_frame f = Camera -> kind_of c <> Telescope -> frame_transform_graph c f = None).
Proof.
  cbv zeta. apply registered_edges_come_in_pairs; reflexivity.
Defined.

(** ** The camera transforms as formulas *)

Lemma Reqb_true r : Reqb r 0 = true -> r = 0.
Proof. unfold Reqb. destruct (Req_dec_T r 0); [auto | discriminate]. Qed.

(** X14.  [camera_to_telescope] on a position in metres is the rotation by
    the frame's angle followed by the division by the focal length, for
    every angle and every focal length other than 0: the branch taken at
    rotation 0 returns what the rotation formula returns there. *)
Theorem camera_to_telescope_rotates_then_divides (x y f theta : R)
    (pointing : option (Pointing.t R)) (tf : TelescopeFrame.t R) :
  let cf := CameraFrame.make (u.mkQuantity f u.m) (u.mkQuantity theta u.rad) pointing in
  let position := Planar.make (u.mkQuantity (Scalar x) u.m) (u.mkQuantity (Scalar y) u.m) in
  f <> 0 ->
  camera_to_telescope (mkCoordinate cf (PlanarData position)) tf =
  Ok (planar_coord tf
        (u.mkQuantity ((x * cos theta - y * sin theta) / f) u.rad)
        (u.mkQuantity ((x * sin theta + y * cos theta) / f) u.rad)).
Proof.
  cbv zeta. intros _. camera_unfold.
  destruct (Reqb theta 0) eqn:E; np_unfold;
    cbn [bind realize_frame data Planar.x Planar.y u.convert u.angle_units u.length_units];
    apply planar_coord_ext;
    change (@ncos R R_numeric) with cos; change (@nsin R R_numeric) with sin;
    change (@mul R R_numeric) with Rmult; change (@div R R_numeric) with Rdiv;
    change (@sub R R_numeric) with Rminus; change (@add R R_numeric) with Rplus;
    try reflexivity.
  - apply Reqb_true in E. subst theta. rewrite cos_0, sin_0. unfold Rdiv. ring.
  - apply Reqb_true in E. subst theta. rewrite cos_0, sin_0. unfold Rdiv. ring.
Qed.

Lemma camera_to_telescope_rotates_then_divides_witness :
  let cf := CameraFrame.make (u.mkQuantity 28 u.m) (u.mkQuantity 0 u.rad) None in
  let position := Planar.make (u.mkQuantity (Scalar 1) u.m) (u.mkQuantity (Scalar 2) u.m) in
  camera_to_telescope (mkCoordinate cf (PlanarData position)) (TelescopeFrame.make None) =
  Ok (planar_coord (TelescopeFrame.make None)
        (u.mkQuantity ((1 * cos 0 - 2 * sin 0) / 28) u.rad)
        (u.mkQuantity ((1 * sin 0 + 2 * cos 0) / 28) u.rad)).
Proof.
  cbv zeta. apply camera_to_telescope_rotates_then_divides. lra.
Defined.

(** X15.  [telescope_to_camera] is the rotation by the opposite of the
    frame's angle followed by the multiplication by the focal length, on
    the offsets in radians, for every angle including 0; the position it
    returns is in the unit of the focal length, with a third coordinate of
    0 m. *)
Theorem telescope_to_camera_rotates_back_then_multiplies (x y : u.Quantity R u.AngleUnit)
    (f theta : R) (pointing : option (Pointing.t R)) (tf : TelescopeFrame.t R) :
  let cf := CameraFrame.make (u.mkQuantity f u.m) (u.mkQuantity theta u.rad) pointing in
  telescope_to_camera (planar_coord tf x y) cf =
  Ok (mkCoordinate cf
        (CartesianData
           (Cartesian.make
              (u.mkQuantity (Scalar ((radians x * cos theta + radians y * sin theta) * f)) u.m)
              (u.mkQuantity (Scalar ((- radians x * sin theta + radians y * cos theta) * f)) u.m)
              (u.mkQuantity (Scalar 0) u.m)))).
Proof.
  cbv zeta. destruct x as [vx ux], y as [vy uy].
  unfold radians, u.number_to_value. cbn [u.value u.unit].
  camera_unfold.
  change (@neg R R_numeric theta) with (- theta).
  rewrite Reqb_opp_0.
  destruct (Reqb theta 0) eqn:E; np_unfold;
    cbn [bind realize_frame frame data Planar.x Planar.y u.value u.unit];
    apply camera_coord_ext;
    change (@ncos R R_numeric) with cos; change (@nsin R R_numeric) with sin;
    change (@mul R R_numeric) with Rmult; change (@div R R_numeric) with Rdiv;
    change (@sub R R_numeric) with Rminus; change (@add R R_numeric) with Rplus;
    change (u.convert u.rad u.rad (- theta)) with (- theta);
    repeat (rewrite convert_sub || rewrite convert_add || rewrite convert_scale
            || rewrite convert_via || rewrite cos_neg || rewrite sin_neg);
    set (rx := u.convert ux u.rad vx); set (ry := u.convert uy u.rad vy);
    try (apply Reqb_true in E; subst theta; rewrite cos_0, sin_0); ring.
Qed.

(** ** The default rotation in binary64 *)

(** X26.  In binary64 arithmetic, a Camera frame built with no rotation
    takes the branch without trigonometry in both directions, whatever the
    mathematical library: [camera_to_telescope] divides the positions by the
    focal length, and [telescope_to_camera] (whose angle is the negative
    zero) multiplies the offsets in radians by it.  The third coordinate
    that [telescope_to_camera] returns is 0 m for one offset, and an array of
    as many zeros for an array of offsets. *)
Theorem default_rotation_skips_the_trigonometry (lm : Libm) (f : float)
    (pointing : option (Pointing.t float))
    (x y : u.Quantity (NDArray float) u.LengthUnit)
    (a b : u.Quantity (NDArray float) u.AngleUnit)
    (tf : TelescopeFrame.t float) (s : option nat) :
  let NT := float_numeric lm in
  let cf := CameraFrame.init (Some (u.mkQuantity f u.m)) None pointing in
  shape (u.value a) = s ->
  shape (u.value b) = s ->
  camera_to_telescope (mkCoordinate cf (PlanarData (Planar.make x y))) tf =
    Ok (mkCoordinate tf
          (Planar.make (u.mkQuantity (u.value x / Scalar f)%np u.rad)
                       (u.mkQuantity (u.value y / Scalar f)%np u.rad))) /\
  telescope_to_camera (mkCoordinate tf (Planar.make a b)) cf =
    Ok (mkCoordinate cf
          (CartesianData
             (Cartesian.make (u.mkQuantity (u.to_value a u.rad * Scalar f)%np u.m)
                             (u.mkQuantity (u.to_value b u.rad * Scalar f)%np u.m)
                             (u.mkQuantity (np.broadcast_to (Scalar 0%float) s) u.m)))).
Proof.
  intros NT cf Ha Hb.
  assert (Hrot : CameraFrame.rotation cf = u.mkQuantity 0%float u.rad)
    by (vm_compute; reflexivity).
  assert (Hf : CameraFrame.focal_length cf = u.mkQuantity f u.m) by reflexivity.
  split.
  - unfold camera_to_telescope. cbn [frame data]. rewrite Hrot, Hf. reflexivity.
  - unfold telescope_to_camera. cbn [frame data]. rewrite Hrot, Hf.
    change (eqb (u.value (u.number_neg (u.mkQuantity 0%float u.rad))) zero) with true.
    cbv iota beta. cbn [Planar.x Planar.y bind]. unfold realize_frame.
    match goal with
    | |- Ok (mkCoordinate _ (CartesianData ?l)) = Ok (mkCoordinate _ (CartesianData ?r)) =>
        assert (l = r) as ->; [|reflexivity]
    end.
    assert (Hs : forall q : u.Quantity (NDArray float) u.AngleUnit,
               shape (u.value q) = s ->
               shape (u.value (u.value_times (u.to_value q u.rad) (u.mkQuantity f u.m))) = s).
    { intros q Hq. unfold u.value_times, u.to_value. cbn [u.value].
      apply shape_map2_l; [apply shape_map1; exact Hq | apply broadcasts_scalar]. }
    pose proof (Hs a Ha) as Hx. pose proof (Hs b Hb) as Hy.
    unfold Cartesian.init, Cartesian.common_shape.
    set (X := u.value_times (u.to_value a u.rad) (u.mkQuantity f u.m)) in *.
    set (Y := u.value_times (u.to_value b u.rad) (u.mkQuantity f u.m)) in *.
    rewrite Hx, Hy.
    assert (Hn : match s with
                 | Some n => Some n
                 | None => match s with
                           | Some n => Some n
                           | None => shape (u.value (u.times (U:=u.LengthUnit)
                                                       (Scalar (zero (T:=float))) u.m))
                           end
                 end = s) by (destruct s; reflexivity).
    rewrite Hn. unfold Cartesian.broadcast.
    assert (Hkeep : forall v : NDArray float, shape v = s -> np.broadcast_to v s = v).
    { intros [v|l] Hv; [|reflexivity]. rewrite <- Hv. reflexivity. }
    rewrite (Hkeep _ Hx), (Hkeep _ Hy). reflexivity.
Qed.

(** The theorem at two positions and at two offsets. *)
Lemma default_rotation_skips_the_trigonometry_witness :
  let NT := float_numeric library_table in
  let cf := CameraFrame.init (Some (u.mkQuantity 28%float u.m)) None None in
  let tf := TelescopeFrame.make None in
  camera_to_telescope
    (mkCoordinate cf
       (PlanarData (Planar.make (u.mkQuantity (Array [14; 7]%float) u.m)
                                (u.mkQuantity (Array [0; 28]%float) u.m)))) tf =
    Ok (mkCoordinate tf
          (Planar.make (u.mkQuantity (Array [0.5; 0.25]%float) u.rad)
                       (u.mkQuantity (Array [0; 1]%float) u.rad))) /\
  telescope_to_camera
    (mkCoordinate tf
       (Planar.make (u.mkQuantity (Array [0.5; 0.25]%float) u.rad)
                    (u.mkQuantity (Array [0; 1]%float) u.rad))) cf =
    Ok (mkCoordinate cf
          (CartesianData
             (Cartesian.make (u.mkQuantity (Array [14; 7]%float) u.m)
                             (u.mkQuantity (Array [0; 28]%float) u.m)
                             (u.mkQuantity (Array [0; 0]%float) u.m)))).
Proof.
  cbv zeta.
  destruct (default_rotation_skips_the_trigonometry library_table 28%float None
              (u.mkQuantity (Array [14; 7]%float) u.m)
              (u.mkQuantity (Array [0; 28]%float) u.m)
              (u.mkQuantity (Array [0.5; 0.25]%float) u.rad)
              (u.mkQuantity (Array [0; 1]%float) u.rad)
              (TelescopeFrame.make None) (Some 2%nat) eq_refl eq_refl) as [H1 H2].
  split.
  - rewrite H1. vm_compute. reflexivity.
  - rewrite H2. vm_compute. reflexivity.
Defined.

(** ** The shape of what the kernels return *)

Section Shapes.

Context {T : Type} {NT : Numeric T}.

Ltac shape_exact :=
  lazymatch goal with
  | |- shape (np.map1 _ _) = _ => apply shape_map1; shape_exact
  | |- shape (np.map2 _ _ _) = _ =>
      first [ apply shape_map2_l; [shape_exact | shape_broadcasts]
            | apply shape_map2_r; [shape_broadcasts | shape_exact] ]
  | |- shape (if _ then _ else _) = _ => apply shape_overwrite; shape_exact
  | |- _ => assumption
  end
with shape_broadcasts :=
  lazymatch goal with
  | |- broadcasts_to _ (Scalar _) => apply broadcasts_scalar
  | |- broadcasts_to _ (np.map1 _ _) => apply broadcasts_map1; shape_broadcasts
  | |- broadcasts_to _ (np.map2 _ _ _) => apply broadcasts_map2; shape_broadcasts
  | |- _ => first [ assumption | right; shape_exact ]
  end.

(** X16.  The kernels return values of the shape of their inputs: when
    the two array arguments have one shape, or one of them is a scalar and
    broadcasts to the shape of the other, both results of
    [altaz_to_offset] and both results of [offset_to_altaz] have that
    shape (scalars for scalars, arrays of the same length for arrays),
    also where offsets of zero magnitude are patched. *)
Theorem kernels_keep_the_shape (s : option nat)
    (a b : u.Quantity (NDArray T) u.AngleUnit) (p q : u.Quantity T u.AngleUnit) :
  broadcasts_to s (u.value a) -> broadcasts_to s (u.value b) ->
  shape (u.value a) = s \/ shape (u.value b) = s ->
  (shape (fst (altaz_to_offset a b p q)) = s /\
   shape (snd (altaz_to_offset a b p q)) = s) /\
  (shape (u.value (fst (offset_to_altaz a b p q))) = s /\
   shape (u.value (snd (offset_to_altaz a b p q))) = s).
Proof.
  intros Ha Hb Hab. destruct a as [A ua], b as [B ub]. cbn [u.value] in *.
  split.
  - unfold altaz_to_offset, u.sub_, u.cos, u.sin, u.to_value, u.lift.
    cbn [fst snd u.value u.unit]. np_ops.
    destruct Hab as [H|H]; split; shape_exact.
  - rewrite offset_to_altaz_components. cbv zeta.
    unfold u.to, u.to_value, u.times. cbn [fst snd u.value u.unit]. np_ops.
    destruct Hab as [H|H]; split; shape_exact.
Qed.

End Shapes.

Lemma kernels_keep_the_shape_witness :
  let a := u.mkQuantity (Array [0; 1 / 10; 1 / 5]) u.rad in
  let b := u.mkQuantity (Scalar 0) u.rad in
  let p := u.mkQuantity 1 u.rad in
  let q := u.mkQuantity 2 u.rad in
  (shape (fst (altaz_to_offset a b p q)) = Some 3%nat /\
   shape (snd (altaz_to_offset a b p q)) = Some 3%nat) /\
  (shape (u.value (fst (offset_to_altaz a b p q))) = Some 3%nat /\
   shape (u.value (snd (offset_to_altaz a b p q))) = Some 3%nat).
Proof.
  cbv zeta. apply kernels_keep_the_shape.
  - right. reflexivity.
  - left. reflexivity.
  - left. reflexivity.
Defined.

(** * The drawer of the pipeline *)

Section DrawerProperties.

Import Drawer.
Import String Ascii.
Local Open Scope string_scope.
Local Open Scope list_scope.

Abbreviation updated s running nb_job_done :=
  (StagerRep.make (StagerRep.name s) (StagerRep.next_steps s) running nb_job_done).

Lemma step_change_loop_names l name running nb :
  map StagerRep.name (step_change_loop l name running nb) = map StagerRep.name l /\
  map StagerRep.next_steps (step_change_loop l name running nb) = map StagerRep.next_steps l.
Proof.
  induction l as [|s l [IHn IHs]]; [split; reflexivity|].
  cbn [step_change_loop]. cbv zeta.
  destruct (String.eqb (StagerRep.name s) _); cbn [map StagerRep.name StagerRep.next_steps].
  - split; reflexivity.
  - rewrite IHn, IHs. split; reflexivity.
Qed.

Lemma step_change_loop_find l name running nb :
  find_step (step_change_loop l name running nb) (split_first "$$thread" name) =
  option_map (fun s => updated s running nb) (find_step l (split_first "$$thread" name)).
Proof.
  induction l as [|s l IH]; [reflexivity|].
  cbn [step_change_loop find_step]. cbv zeta.
  destruct (String.eqb (StagerRep.name s) _) eqn:E; cbn [find_step StagerRep.name].
  - rewrite E. reflexivity.
  - rewrite E. exact IH.
Qed.

Lemma step_change_loop_others l name running nb i s :
  nth_error l i = Some s ->
  StagerRep.name s <> split_first "$$thread" name ->
  nth_error (step_change_loop l name running nb) i = Some s.
Proof.
  revert i. induction l as [|s0 l IH]; intros i Hi Hne; [destruct i; discriminate|].
  cbn [step_change_loop]. cbv zeta.
  destruct (String.eqb (StagerRep.name s0) _) eqn:E.
  - destruct i as [|i]; [|exact Hi].
    cbn in Hi. injection Hi as ->. apply String.eqb_eq in E. contradiction.
  - destruct i as [|i]; [exact Hi|]. cbn [nth_error] in *. apply IH; assumption.
Qed.

Lemma step_change_loop_later l name running nb i j s sj :
  (j < i)%nat ->
  nth_error l j = Some sj -> StagerRep.name sj = split_first "$$thread" name ->
  nth_error l i = Some s ->
  nth_error (step_change_loop l name running nb) i = Some s.
Proof.
  revert i j. induction l as [|s0 l IH]; intros i j Hlt Hj Hn Hi; [destruct i; discriminate|].
  cbn [step_change_loop]. cbv zeta.
  destruct (String.eqb (StagerRep.name s0) _) eqn:E.
  - destruct i as [|i]; [lia | exact Hi].
  - destruct j as [|j].
    + cbn in Hj. injection Hj as ->. rewrite <- Hn, String.eqb_refl in E. discriminate.
    + destruct i as [|i]; [lia|]. cbn [nth_error] in *.
      apply (IH i j); [lia | assumption..].
Qed.

(** X17.  [step_change] updates one step at most, the first whose name is
    the name of the message cut before ['$$thread']: that step receives the
    running flag and the number of jobs of the message, and keeps its name
    and its next steps; every step of another name, and every later step of
    the same name, is left as it is.  With no step of that name the steps
    are unchanged. *)
Theorem step_change_updates_first_match (self : Drawer.t) (l : list StagerRep.t)
    (name : String.string) (running : bool) (nb_job_done : Z) :
  Drawer.steps self = Some l ->
  let target := split_first "$$thread" name in
  exists l',
    step_change self (name, running, nb_job_done) = Return (set_steps self (Some l')) /\
    map StagerRep.name l' = map StagerRep.name l /\
    map StagerRep.next_steps l' = map StagerRep.next_steps l /\
    find_step l' target = option_map (fun s => updated s running nb_job_done) (find_step l target) /\
    (forall i s, nth_error l i = Some s -> StagerRep.name s <> target ->
                 nth_error l' i = Some s) /\
    (forall i j s sj, (j < i)%nat -> nth_error l j = Some sj -> StagerRep.name sj = target ->
                      nth_error l i = Some s -> nth_error l' i = Some s) /\
    (find_step l target = None -> l' = l).
Proof.
  intros Hl target. exists (step_change_loop l name running nb_job_done).
  unfold step_change. rewrite Hl.
  split; [reflexivity|].
  split; [apply step_change_loop_names|].
  split; [apply step_change_loop_names|].
  split; [apply step_change_loop_find|].
  split; [intros i s; apply step_change_loop_others|].
  split; [intros i j s sj; apply step_change_loop_later|].
  subst target. clear Hl. induction l as [|s l IH]; [reflexivity|].
  cbn [find_step step_change_loop]. cbv zeta.
  destruct (String.eqb (StagerRep.name s) _); [discriminate|].
  intros H. rewrite IH by exact H. reflexivity.
Qed.

Lemma step_change_updates_first_match_witness :
  let a := StagerRep.make "reader" ["cleaner"] false 0 in
  let b := StagerRep.make "cleaner" [] false 0 in
  let self := Drawer.make (Some [a; b]) 0%float [] 0 in
  exists l',
    step_change self ("cleaner$$thread2", true, 7%Z) = Return (set_steps self (Some l')) /\
    map StagerRep.name l' = map StagerRep.name [a; b] /\
    map StagerRep.next_steps l' = map StagerRep.next_steps [a; b] /\
    find_step l' (split_first "$$thread" "cleaner$$thread2") =
      option_map (fun s => updated s true 7%Z)
        (find_step [a; b] (split_first "$$thread" "cleaner$$thread2")) /\
    (forall i s, nth_error [a; b] i = Some s ->
                 StagerRep.name s <> split_first "$$thread" "cleaner$$thread2" ->
                 nth_error l' i = Some s) /\
    (forall i j s sj, (j < i)%nat -> nth_error [a; b] j = Some sj ->
                      StagerRep.name sj = split_first "$$thread" "cleaner$$thread2" ->
                      nth_error [a; b] i = Some s -> nth_error l' i = Some s) /\
    (find_step [a; b] (split_first "$$thread" "cleaner$$thread2") = None -> l' = [a; b]).
Proof.
  cbv zeta.
  exact (step_change_updates_first_match
           (Drawer.make (Some [StagerRep.make "reader" ["cleaner"] false 0;
                               StagerRep.make "cleaner" [] false 0]) 0%float [] 0)
           _ "cleaner$$thread2" true 7%Z eq_refl).
Defined.

Lemma prefix_other_char (c : Ascii.ascii) (sep s : String.string) (d : Ascii.ascii) :
  c <> d -> String.prefix (String.String d sep) (String.String c s) = false.
Proof.
  intros Hne. cbn. destruct (Ascii.ascii_dec d c) as [E|_]; [|reflexivity].
  symmetry in E. contradiction.
Qed.

Lemma split_first_cons (sep s : String.string) (c : Ascii.ascii) :
  split_first sep (String c s) =
  if String.prefix sep (String c s) then EmptyString else String c (split_first sep s).
Proof. reflexivity. Qed.

Lemma split_first_plain (n rest : String.string) :
  ~ In "$"%char (String.list_ascii_of_string n) ->
  split_first "$$thread" (n ++ "$$thread" ++ rest)%string = n /\
  split_first "$$thread" n = n.
Proof.
  induction n as [|c n IH]; intros Hn.
  - split; [|reflexivity].
    change ("" ++ "$$thread" ++ rest)%string with (String.String "$" (String.append "$thread" rest)).
    cbn [split_first].
    assert (String.prefix "$$thread" (String.String "$" (String.append "$thread" rest)) = true)
      as -> by (cbn; repeat (destruct (Ascii.ascii_dec _ _); [|contradiction]);
                 destruct rest; reflexivity).
    reflexivity.
  - cbn [String.list_ascii_of_string] in Hn.
    assert (Hc : c <> "$"%char) by (intros ->; apply Hn; left; reflexivity).
    assert (Hn' : ~ In "$"%char (String.list_ascii_of_string n))
      by (intros H; apply Hn; right; exact H).
    destruct (IH Hn') as [IH1 IH2].
    change (String c n ++ "$$thread" ++ rest)%string
      with (String c (n ++ "$$thread" ++ rest)%string).
    rewrite !split_first_cons, !(prefix_other_char c "$thread" _ "$"%char Hc).
    rewrite IH1, IH2. split; reflexivity.
Qed.

(** X18.  The messages of the threads of one step reach that step: for a
    step name without ['$'], [step_change] on the name followed by
    ['$$thread'] and anything does what it does on the name alone. *)
Theorem thread_messages_reach_their_step (self : Drawer.t) (n rest : String.string)
    (running : bool) (nb_job_done : Z) :
  ~ In "$"%char (String.list_ascii_of_string n) ->
  step_change self ((n ++ "$$thread" ++ rest)%string, running, nb_job_done) =
  step_change self (n, running, nb_job_done).
Proof.
  intros Hn. destruct (split_first_plain n rest Hn) as [H1 H2].
  unfold step_change. destruct (Drawer.steps self) as [l|]; [|reflexivity].
  do 3 f_equal.
  induction l as [|s l IH]; [reflexivity|].
  cbn [step_change_loop]. cbv zeta. rewrite H1, H2, IH. reflexivity.
Qed.

Lemma thread_messages_reach_their_step_witness :
  let self := Drawer.make (Some [StagerRep.make "cleaner" [] false 0]) 0%float [] 0 in
  step_change self (("cleaner" ++ "$$thread" ++ "12")%string, true, 3%Z) =
  step_change self ("cleaner", true, 3%Z).
Proof.
  cbv zeta. apply thread_messages_reach_their_step.
  cbn. intros H. repeat (destruct H as [H|H]; [discriminate H|]). exact H.
Defined.

(** ** The graph *)

Lemma find_step_name l n s : find_step l n = Some s -> StagerRep.name s = n.
Proof.
  induction l as [|s0 l IH]; [discriminate|]. cbn [find_step].
  destruct (String.eqb (StagerRep.name s0) n) eqn:E; [|exact IH].
  intros [= <-]. apply String.eqb_eq. exact E.
Qed.

Lemma find_step_known l n : find_step l n <> None <-> In n (map StagerRep.name l).
Proof.
  induction l as [|s0 l IH]; cbn [find_step map In].
  - split; [intros H; contradiction H; reflexivity | intros []].
  - destruct (String.eqb (StagerRep.name s0) n) eqn:E.
    + apply String.eqb_eq in E. split; [auto | discriminate].
    + apply String.eqb_neq in E. rewrite IH. split; [auto | intros [H|H]; [contradiction | exact H]].
Qed.

Lemma step_edges_known l nm ns :
  (forall n, In n ns -> In n (map StagerRep.name l)) ->
  step_edges l nm ns = Return (map (fun n => (nm, n)) ns).
Proof.
  induction ns as [|n ns IH]; intros H; [reflexivity|].
  cbn [step_edges map].
  destruct (find_step l n) as [s|] eqn:E.
  - rewrite IH by (intros n' Hn'; apply H; right; exact Hn').
    rewrite (find_step_name _ _ _ E). reflexivity.
  - exfalso. assert (Hin : In n (map StagerRep.name l)) by (apply H; left; reflexivity).
    apply find_step_known in Hin. contradiction.
Qed.

Lemma step_edges_unknown l nm ns n :
  In n ns -> ~ In n (map StagerRep.name l) ->
  step_edges l nm ns = Raised AttributeError.
Proof.
  induction ns as [|n0 ns IH]; intros Hin Hun; [destruct Hin|].
  cbn [step_edges].
  destruct (find_step l n0) as [s|] eqn:E; [|reflexivity].
  destruct Hin as [->|Hin].
  - exfalso. apply Hun. apply find_step_known. rewrite E. discriminate.
  - rewrite IH by assumption. reflexivity.
Qed.

Lemma step_edges_raises l nm ns e : step_edges l nm ns = Raised e -> e = AttributeError.
Proof.
  induction ns as [|n0 ns IH]; [discriminate|]. cbn [step_edges].
  destruct (find_step l n0); [|intros [= <-]; reflexivity].
  destruct (step_edges l nm ns); [discriminate|]. intros [= <-]. apply IH. reflexivity.
Qed.

Lemma all_edges_known l todo :
  (forall s n, In s todo -> In n (StagerRep.next_steps s) -> In n (map StagerRep.name l)) ->
  all_edges l todo =
  Return (flat_map (fun s => map (fun n => (StagerRep.name s, n)) (StagerRep.next_steps s)) todo).
Proof.
  induction todo as [|s todo IH]; intros H; [reflexivity|].
  cbn [all_edges flat_map].
  rewrite step_edges_known by (intros n Hn; apply (H s); [left; reflexivity | exact Hn]).
  rewrite IH by (intros s' n Hs Hn; apply (H s'); [right; exact Hs | exact Hn]).
  reflexivity.
Qed.

Lemma all_edges_unknown l todo s n :
  In s todo -> In n (StagerRep.next_steps s) -> ~ In n (map StagerRep.name l) ->
  all_edges l todo = Raised AttributeError.
Proof.
  induction todo as [|s0 todo IH]; intros Hs Hn Hun; [destruct Hs|].
  cbn [all_edges].
  destruct (step_edges l (StagerRep.name s0) (StagerRep.next_steps s0)) as [es|e] eqn:E.
  - destruct Hs as [->|Hs].
    + rewrite (step_edges_unknown l _ _ n Hn Hun) in E. discriminate.
    + rewrite IH by assumption. reflexivity.
  - apply step_edges_raises in E. rewrite E. reflexivity.
Qed.

(** X19.  [build_graph] returns the graph of the steps when every name in
    a [next_steps] list is the name of a step: one node per step, in order
    (filled in light blue when the step runs), and one edge per step and
    next step, in order.  A next step that names no step makes it raise
    [AttributeError], and steps that are [None] make it raise
    [TypeError]. *)
Theorem build_graph_needs_known_next_steps (self : Drawer.t) :
  match Drawer.steps self with
  | None => build_graph self = Raised TypeError
  | Some l =>
      ((forall s n, In s l -> In n (StagerRep.next_steps s) -> In n (map StagerRep.name l)) ->
       build_graph self =
       Return (mkDigraph "test" "png" (map node_of l)
                 (flat_map (fun s => map (fun n => (StagerRep.name s, n)) (StagerRep.next_steps s))
                    l))) /\
      (forall s n, In s l -> In n (StagerRep.next_steps s) -> ~ In n (map StagerRep.name l) ->
                   build_graph self = Raised AttributeError)
  end.
Proof.
  unfold build_graph. destruct (Drawer.steps self) as [l|]; [|reflexivity]. split.
  - intros H. rewrite all_edges_known by exact H. reflexivity.
  - intros s n Hs Hn Hun. rewrite (all_edges_unknown l l s n Hs Hn Hun). reflexivity.
Qed.

(** ** The queues of the routers *)

Lemma dict_get_set_same {V} (d : list (String.string * V)) key value :
  dict_get (dict_set d key value) key = Some value.
Proof.
  induction d as [|[k v] d IH]; cbn [dict_set dict_get].
  - rewrite String.eqb_refl. reflexivity.
  - destruct (String.eqb k key) eqn:E; cbn [dict_get]; rewrite E; [reflexivity | exact IH].
Qed.

Lemma dict_get_set_other {V} (d : list (String.string * V)) key value k' :
  k' <> key -> dict_get (dict_set d key value) k' = dict_get d k'.
Proof.
  intros Hne. induction d as [|[k v] d IH]; cbn [dict_set dict_get].
  - assert (String.eqb key k' = false) as -> by (apply String.eqb_neq; auto). reflexivity.
  - destruct (String.eqb k key) eqn:E; cbn [dict_get].
    + apply String.eqb_eq in E. subst k.
      assert (String.eqb key k' = false) as -> by (apply String.eqb_neq; auto). reflexivity.
    + destruct (String.eqb k k'); [reflexivity | exact IH].
Qed.

Lemma dict_set_keys {V} (d : list (String.string * V)) key value :
  map fst (dict_set d key value) =
  match dict_get d key with
  | Some _ => map fst d
  | None => map fst d ++ [key]
  end.
Proof.
  induction d as [|[k v] d IH]; cbn [dict_set dict_get map fst app]; [reflexivity|].
  destruct (String.eqb k key) eqn:E; cbn [map fst]; [reflexivity|].
  rewrite IH. destruct (dict_get d key); reflexivity.
Qed.

Lemma dict_get_none {V} (d : list (String.string * V)) key :
  dict_get d key = None -> ~ In key (map fst d).
Proof.
  induction d as [|[k v] d IH]; cbn [dict_get map fst In]; [auto|].
  destruct (String.eqb k key) eqn:E; [discriminate|].
  apply String.eqb_neq in E. intros H [Hk|Hin]; [contradiction | exact (IH H Hin)].
Qed.

Lemma dict_set_nodup {V} (d : list (String.string * V)) key value :
  NoDup (map fst d) -> NoDup (map fst (dict_set d key value)).
Proof.
  intros Hd. rewrite dict_set_keys.
  destruct (dict_get d key) eqn:E; [exact Hd|].
  apply NoDup_app; [exact Hd | repeat constructor; intros [] |].
  intros a Ha [<-|[]]. exact (dict_get_none _ _ E Ha).
Qed.

(** X20.  [router_change] records the queue of a router as a dictionary
    does: the router then has the queue of the message, every other router
    keeps its own, a router that was there keeps its place and a new one
    comes last, and no router is listed twice; the steps and the
    configuration time are not touched. *)
Theorem router_change_records_the_queue (self : Drawer.t) (name queue : String.string) :
  let self' := router_change self (name, queue) in
  dict_get (Drawer.queues self') name = Some queue /\
  (forall other, other <> name ->
     dict_get (Drawer.queues self') other = dict_get (Drawer.queues self) other) /\
  map fst (Drawer.queues self') =
    match dict_get (Drawer.queues self) name with
    | Some _ => map fst (Drawer.queues self)
    | None => map fst (Drawer.queues self) ++ [name]
    end /\
  (NoDup (map fst (Drawer.queues self)) -> NoDup (map fst (Drawer.queues self'))) /\
  Drawer.steps self' = Drawer.steps self /\
  Drawer.config_time self' = Drawer.config_time self.
Proof.
  cbv zeta. unfold router_change, set_queues. cbn [Drawer.queues Drawer.steps Drawer.config_time].
  split; [apply dict_get_set_same|].
  split; [intros other; apply dict_get_set_other|].
  split; [apply dict_set_keys|].
  split; [apply dict_set_nodup|].
  split; reflexivity.
Qed.

(** ** Sequences of messages *)

Lemma pipechange_returns (self : Drawer.t) (m : Message) :
  exists self',
    pipechange self m = Return self' /\
    Drawer.updates self' = S (Drawer.updates self) /\
    (NoDup (map fst (Drawer.queues self)) -> NoDup (map fst (Drawer.queues self'))).
Proof.
  destruct m as [t rs|n r nb|n r nb|n r nb|n q|topic]; cbn [pipechange].
  - eexists. split; [reflexivity|].
    destruct (negb _); cbn; auto.
  - destruct (Drawer.steps self) eqn:E.
    + unfold step_change. rewrite E. eexists. split; [reflexivity|]. cbn; auto.
    + eexists. split; [reflexivity|]. cbn; auto.
  - destruct (Drawer.steps self) eqn:E.
    + unfold step_change. rewrite E. eexists. split; [reflexivity|]. cbn; auto.
    + eexists. split; [reflexivity|]. cbn; auto.
  - destruct (Drawer.steps self) eqn:E.
    + unfold step_change. rewrite E. eexists. split; [reflexivity|]. cbn; auto.
    + eexists. split; [reflexivity|]. cbn; auto.
  - eexists. split; [reflexivity|]. split; [reflexivity|].
    cbn. apply dict_set_nodup.
  - eexists. split; [reflexivity|]. cbn; auto.
Qed.

(** X21.  [pipechange] never raises, whatever the messages and their
    order: after any sequence of messages the drawer has asked for one
    repaint per message, and no router is listed twice among its queues. *)
Theorem pipechange_never_raises (ms : list Message) (self : Drawer.t) :
  exists self',
    pipechanges self ms = Return self' /\
    Drawer.updates self' = (Drawer.updates self + List.length ms)%nat /\
    (NoDup (map fst (Drawer.queues self)) -> NoDup (map fst (Drawer.queues self'))).
Proof.
  revert self. induction ms as [|m ms IH]; intros self.
  - exists self. split; [reflexivity|]. split; [cbn; lia | auto].
  - destruct (pipechange_returns self m) as (s1 & H1 & Hu1 & Hq1).
    destruct (IH s1) as (s2 & H2 & Hu2 & Hq2).
    exists s2. cbn [pipechanges]. rewrite H1. split; [exact H2|].
    split; [cbn [List.length]; lia | auto].
Qed.

Lemma pipechange_keeps_shape (self self' : Drawer.t) (m : Message) :
  is_graph_message m = false ->
  pipechange self m = Return self' ->
  pipeline_shape self' = pipeline_shape self /\
  Drawer.config_time self' = Drawer.config_time self.
Proof.
  intros Hm. unfold pipeline_shape.
  assert (Hstep : forall n r nb,
            match Drawer.steps self with
            | Some _ =>
                match step_change self (n, r, nb) with
                | Return s => Return (update s)
                | Raised e => Raised e
                end
            | None => Return (update self)
            end = Return self' ->
            option_map (map (fun s => (StagerRep.name s, StagerRep.next_steps s)))
              (Drawer.steps self') =
            option_map (map (fun s => (StagerRep.name s, StagerRep.next_steps s)))
              (Drawer.steps self) /\
            Drawer.config_time self' = Drawer.config_time self).
  { intros n r nb. unfold step_change. destruct (Drawer.steps self) as [l|] eqn:E.
    - intros [= <-]. cbn [update set_steps Drawer.steps Drawer.config_time option_map].
      split; [|reflexivity]. f_equal.
      clear E. induction l as [|s l IH]; [reflexivity|].
      cbn [step_change_loop]. cbv zeta.
      destruct (String.eqb _ _); cbn [map StagerRep.name StagerRep.next_steps];
        [reflexivity | rewrite IH; reflexivity].
    - intros [= <-]. cbn [update Drawer.steps Drawer.config_time]. rewrite E. auto. }
  destruct m as [t rs|n r nb|n r nb|n r nb|n q|topic]; cbn [pipechange is_graph_message] in *;
    try discriminate; try apply Hstep.
  - intros [= <-]. split; reflexivity.
  - intros [= <-]. split; reflexivity.
Qed.

(** X22.  Only a [GUI_GRAPH] message changes the pipeline that is drawn:
    through any sequence of other messages the steps keep their names,
    their order and their next steps, and the configuration time stays. *)
Theorem only_graph_messages_change_the_pipeline (ms : list Message) (self self' : Drawer.t) :
  forallb (fun m => negb (is_graph_message m)) ms = true ->
  pipechanges self ms = Return self' ->
  pipeline_shape self' = pipeline_shape self /\
  Drawer.config_time self' = Drawer.config_time self.
Proof.
  revert self. induction ms as [|m ms IH]; intros self Hall H; cbn [pipechanges forallb] in *.
  - injection H as <-. split; reflexivity.
  - apply andb_prop in Hall. destruct Hall as [Hm Hall].
    apply negb_true_iff in Hm.
    destruct (pipechange self m) as [s1|e] eqn:E; [|discriminate].
    destruct (pipechange_keeps_shape self s1 m Hm E) as [Hs Ht].
    destruct (IH s1 Hall H) as [Hs' Ht'].
    rewrite Hs', Ht'. split; assumption.
Qed.

Lemma only_graph_messages_change_the_pipeline_witness :
  let self := Drawer.make (Some [StagerRep.make "reader" ["cleaner"] false 0;
                                 StagerRep.make "cleaner" [] false 0]) 0%float [] 0 in
  let ms := [GUI_STAGER_CHANGE "cleaner$$thread1" true 4; GUI_ROUTER_CHANGE "cleaner_router" "3";
             other_topic "FINISH"] in
  let self' := Drawer.make (Some [StagerRep.make "reader" ["cleaner"] false 0;
                                  StagerRep.make "cleaner" [] true 4]) 0%float
                 [("cleaner_router", "3")] 3 in
  pipeline_shape self' = pipeline_shape self /\
  Drawer.config_time self' = Drawer.config_time self.
Proof.
  cbv zeta.
  apply (only_graph_messages_change_the_pipeline
           [GUI_STAGER_CHANGE "cleaner$$thread1" true 4; GUI_ROUTER_CHANGE "cleaner_router" "3";
            other_topic "FINISH"]);
    reflexivity.
Defined.

Lemma pipechange_other_queue (self self' : Drawer.t) (m : Message) (key : String.string) :
  sets_queue_of key m = false ->
  pipechange self m = Return self' ->
  dict_get (Drawer.queues self') key = dict_get (Drawer.queues self) key.
Proof.
  intros Hm.
  destruct m as [t rs|n r nb|n r nb|n r nb|n q|topic]; cbn [pipechange sets_queue_of] in *.
  - intros [= <-]. destruct (negb _); reflexivity.
  - unfold step_change. destruct (Drawer.steps self); intros [= <-]; reflexivity.
  - unfold step_change. destruct (Drawer.steps self); intros [= <-]; reflexivity.
  - unfold step_change. destruct (Drawer.steps self); intros [= <-]; reflexivity.
  - intros [= <-]. cbn. apply dict_get_set_other.
    intros ->. rewrite String.eqb_refl in Hm. discriminate.
  - intros [= <-]. reflexivity.
Qed.

(** X23.  The queue shown for a router is the one of the last
    [GUI_ROUTER_CHANGE] message for it: after such a message and any
    messages that do not set the queue of that router, the router has the
    queue of the message. *)
Theorem last_router_message_wins (before after : list Message) (self self' : Drawer.t)
    (name queue : String.string) :
  forallb (fun m => negb (sets_queue_of name m)) after = true ->
  pipechanges self (before ++ GUI_ROUTER_CHANGE name queue :: after) = Return self' ->
  dict_get (Drawer.queues self') name = Some queue.
Proof.
  intros Hafter.
  revert self. induction before as [|m ms IH]; intros self H.
  - cbn [app pipechanges pipechange] in H.
    assert (Hq : dict_get (Drawer.queues (update (router_change self (name, queue)))) name
                 = Some queue) by (cbn; apply dict_get_set_same).
    revert H Hq. generalize (update (router_change self (name, queue))). intros s H Hq.
    revert s H Hq. induction after as [|m ms IH]; intros s H Hq.
    + injection H as <-. exact Hq.
    + cbn [forallb pipechanges] in *. apply andb_prop in Hafter. destruct Hafter as [Hm Hall].
      apply negb_true_iff in Hm.
      destruct (pipechange s m) as [s1|e] eqn:E; [|discriminate].
      apply (IH Hall s1 H). rewrite (pipechange_other_queue s s1 m name Hm E). exact Hq.
  - cbn [app pipechanges] in H.
    destruct (pipechange self m) as [s1|e]; [|discriminate]. exact (IH s1 H).
Qed.

Lemma last_router_message_wins_witness :
  let self' := Drawer.make (Some []) 0%float [("a_router", "5"); ("b_router", "1")] 4 in
  dict_get (Drawer.queues self') "a_router" = Some "5".
Proof.
  cbv zeta.
  apply (last_router_message_wins
           [GUI_ROUTER_CHANGE "a_router" "2"]
           [GUI_ROUTER_CHANGE "b_router" "1"; GUI_STAGER_CHANGE "x" true 1]
           Drawer.init _ "a_router" "5");
    reflexivity.
Defined.

End DrawerProperties.

(** * The life cycle of a tool *)

Section ToolProperties.

Import String.
Local Open Scope string_scope.
Local Open Scope list_scope.

Variable User : Type.
Variable parse_command_line : option (list string) -> Tool.Method User unit.
Variable load_config_file : string -> Tool.Method User unit.
Variable initialize : Tool.Method User unit.
Variable show_config : Tool.t User -> string.

Abbreviation setup := (Tool._setup parse_command_line load_config_file initialize).
Abbreviation run_with start finish :=
  (Tool.run parse_command_line load_config_file initialize start finish show_config).

Abbreviation started := (Tool.started show_config).
Abbreviation caught := (@Tool.caught User).

(** X24.  [run] lets no [Exception] out: whatever the methods do, what
    [run] raises, if anything, is not an instance of [Exception]; and an
    exception of another kind that a method raises is not caught. *)
Theorem run_lets_no_exception_out (start finish : Tool.Method User unit)
    (argv : option (list string)) (self : Tool.t User) :
  match fst (run_with start finish argv self) with
  | Tool.Return _ => True
  | Tool.Raise err => Tool.is_exception err = false
  end /\
  (forall err self',
     setup argv self = (Tool.Raise err, self') -> Tool.is_exception err = false ->
     run_with start finish argv self = (Tool.Raise err, self')).
Proof.
  unfold Tool.run, Tool.try_except. split.
  - match goal with |- context [match ?b with _ => _ end] => destruct b as [[[]|err] s] end;
      cbn [fst]; [exact I|].
    destruct (Tool.is_exception err) eqn:E; cbn [fst Tool.log_]; [exact I | exact E].
  - intros err self' Hs He. unfold Tool.bind at 1. rewrite Hs, He. reflexivity.
Qed.

(** X25.  [run] stops at the first method that raises, and [finish] is no
    clean-up: when [_setup] raises an [Exception], nothing is logged but the
    exception, and [start] and [finish] are not run; when [start] raises
    one, [finish] is not run.  In both cases [run] returns, with the
    exception logged as an error. *)
Theorem run_stops_at_the_first_exception (start finish : Tool.Method User unit)
    (argv : option (list string)) (self : Tool.t User) :
  (forall err self',
     setup argv self = (Tool.Raise err, self') -> Tool.is_exception err = true ->
     run_with start finish argv self = (Tool.Return tt, caught err self')) /\
  (forall err self1 self2,
     setup argv self = (Tool.Return tt, self1) ->
     start (started self1) = (Tool.Raise err, self2) -> Tool.is_exception err = true ->
     run_with start finish argv self = (Tool.Return tt, caught err self2)) /\
  (forall self1 self2 self3,
     setup argv self = (Tool.Return tt, self1) ->
     start (started self1) = (Tool.Return tt, self2) ->
     finish self2 = (Tool.Return tt, self3) ->
     run_with start finish argv self = (Tool.Return tt, self3)).
Proof.
  unfold Tool.run, Tool.try_except. split; [|split].
  - intros err self' Hs He. unfold Tool.bind at 1. rewrite Hs, He. reflexivity.
  - intros err self1 self2 Hs Hstart He.
    unfold Tool.bind at 1. rewrite Hs.
    unfold Tool.bind, Tool.get, Tool.log_. fold (Tool.started show_config self1).
    rewrite Hstart, He. reflexivity.
  - intros self1 self2 self3 Hs Hstart Hfinish.
    unfold Tool.bind at 1. rewrite Hs.
    unfold Tool.bind, Tool.get, Tool.log_. fold (Tool.started show_config self1).
    rewrite Hstart, Hfinish. reflexivity.
Qed.

End ToolProperties.
